(** * Whiteboard backend: rooms, room codes and the realtime relay

    A shallow embedding of [src/index.js] (the Express routes register,
    login, create-room and verify-room, the room-code generator and the
    Socket.IO event handlers) together with the properties of the
    specification that concern them.  The file holds two revisions of
    the server; the embedding follows the first one, to which the line
    numbers below refer.

    Conventions of the embedding.
    - JavaScript strings are [string], one character of the string for
      one UTF-16 code unit; the model covers the strings whose code
      units are below 256.  On all of those [trim] is the one of
      JavaScript: it removes TAB, LF, VT, FF, CR, SPACE and the
      no-break space U+00A0 from both ends.  [toUpperCase] maps a-z to
      A-Z, which is the one of JavaScript on the code units below 128.
    - The routes and the handlers are first embedded for fields of the
      types of the message tables: a room code or an image is a string,
      a field of a request body is a string or is missing.  What
      create-room, verify-room and the socket handlers do with a field
      of another JSON type is embedded on top of that
      ([create_room_request], [verify_room_request], [relay_raw]), as
      is what register does with an email of another JSON type
      ([register_request]); the other fields of register and those of
      login are strings or missing.
    - [Math.random()] is a stream [random : nat -> Q]: the k-th value the
      process obtains.  The product with [chars.length] and [Math.floor]
      are taken over the rationals; the rounded product of a double below
      1 by 36 stays below 36, so the index has the same range.
    - The Socket.IO adapter ([io.sockets.adapter.rooms]) is a finite map
      from room names to sets of socket ids; what Socket.IO itself does
      at connection and at disconnection is part of the model.
    - The Mongoose collection behind [Room] is a list of documents; each
      call to it may reject, which is driven by a schedule of outcomes
      carried in the state.
    - A handler runs to completion before the next one starts (sequential
      calls); [console.log] lines are not part of the model,
      [console.error] lines are. *)

From Stdlib Require Import String Ascii List ZArith QArith Qround Lia Bool.
From stdpp Require Import base option gmap sets strings list.

#[local] Set Warnings "-clear-no-such-hyp,-register-all".

Local Open Scope string_scope.
Local Open Scope list_scope.

(** ** JavaScript strings *)

Module JsString.

Definition is_lower (c : ascii) : bool :=
  let n := nat_of_ascii c in (97 <=? n)%nat && (n <=? 122)%nat.

Definition upper_char (c : ascii) : ascii :=
  if is_lower c then ascii_of_nat (nat_of_ascii c - 32) else c.

(** [String.prototype.toUpperCase] *)
Fixpoint toUpperCase (s : string) : string :=
  match s with
  | EmptyString => EmptyString
  | String c rest => String (upper_char c) (toUpperCase rest)
  end.

(** The white space that [trim] removes, among the code units below
    256: U+0009 to U+000D, U+0020 and U+00A0. *)
Definition is_space (c : ascii) : bool :=
  let n := nat_of_ascii c in
  ((9 <=? n)%nat && (n <=? 13)%nat) || (n =? 32)%nat || (n =? 160)%nat.

Definition is_empty (s : string) : bool :=
  match s with EmptyString => true | String _ _ => false end.

Fixpoint trimStart (s : string) : string :=
  match s with
  | EmptyString => EmptyString
  | String c rest => if is_space c then trimStart rest else s
  end.

Fixpoint trimEnd (s : string) : string :=
  match s with
  | EmptyString => EmptyString
  | String c rest =>
      let t := trimEnd rest in
      if is_space c && is_empty t then EmptyString else String c t
  end.

(** [String.prototype.trim] *)
Definition trim (s : string) : string := trimEnd (trimStart s).

(** [String.prototype.charAt]: the one-character string at [i], the
    empty string when [i] is out of range. *)
Definition charAt (s : string) (i : Z) : string :=
  if (i <? 0)%Z then EmptyString
  else match String.get (Z.to_nat i) s with
       | Some c => String c EmptyString
       | None => EmptyString
       end.

(** Truthiness of a value that is a string or missing ([undefined]). *)
Definition truthy (v : option string) : bool :=
  match v with
  | Some s => negb (is_empty s)
  | None => false
  end.

(** The characters of a string, to quantify over them. *)
Fixpoint chars_of (s : string) : list ascii :=
  match s with
  | EmptyString => []
  | String c rest => c :: chars_of rest
  end.

End JsString.
Import JsString.

(** ** The room-code generator ([genRoomCode], lines 47-54) *)

Definition chars : string := "ABCDEFGHIJKLMNOPQRSTUVWXYZ0123456789".

(** Membership in [A-Z0-9]. *)
Definition in_alphabet (c : ascii) : bool :=
  let n := nat_of_ascii c in
  ((65 <=? n)%nat && (n <=? 90)%nat) || ((48 <=? n)%nat && (n <=? 57)%nat).

Section Generator.

(** The successive values of [Math.random()]. *)
Variable random : nat -> Q.

(** [Math.floor(Math.random() * chars.length)] at draw [k]. *)
Definition random_index (k : nat) : Z :=
  Qfloor (random k * inject_Z (Z.of_nat (String.length chars))).

(** The [for] loop of [genRoomCode]: [todo] iterations are left,
    [result] is the string built so far and [k] the next draw. *)
Fixpoint genRoomCode_loop (todo : nat) (result : string) (k : nat) : string * nat :=
  match todo with
  | O => (result, k)
  | S todo' =>
      genRoomCode_loop todo' (result +:+ charAt chars (random_index k)) (S k)
  end.

Definition genRoomCode (k : nat) : string * nat := genRoomCode_loop 6 "" k.

End Generator.

(** ** Data model *)

(** A document of the [Room] collection.  [canvasData] is [None] until a
    snapshot has been written. *)
Record Room := mkRoom {
  code : string;
  room_name : string;
  creator : string;
  members : list string;
  canvasData : option string
}.

(** The seven fields of a stroke, as the relay forwards them. *)
Record Stroke := mkStroke {
  prevX : Q;
  prevY : Q;
  currentX : Q;
  currentY : Q;
  color : string;
  size : Q;
  tool : string
}.

(** What a socket can do: it connects, sends one of the four messages,
    or disconnects. *)
Inductive SocketEvent :=
| Connection
| JoinRoom (roomCode : string)
| DrawingDataIn (roomCode : string) (stroke : Stroke)
| CanvasDataIn (roomCode : string) (imageData : string)
| ClearCanvasIn (roomCode : string)
| Disconnect.

(** Messages from the server to a client. *)
Inductive ServerMsg :=
| CanvasData (imageData : string)
| DrawingData (stroke : Stroke)
| ClearCanvas.

(** The [console.error] lines, one constructor per [catch] block, with
    the message of the error caught. *)
Inductive ErrorLine :=
| CreateRoomError (message : string)
| VerifyRoomError (message : string)
| JoinRoomError (message : string)
| DrawingDataError (message : string)
| CanvasDataError (message : string)
| ClearCanvasError (message : string).

(** The state of the process and what it has emitted.
    - [rooms]: the adapter's map from room name to the sockets in it;
    - [docs]: the [Room] collection;
    - [faults]: the outcomes of the coming calls to the collection, in
      order: [Some m] makes the call reject with an error of message [m],
      [None] lets it through, and so does an exhausted schedule;
    - [draws]: how many values of [Math.random()] have been consumed;
    - [sent]: the messages emitted to sockets, oldest first;
    - [errors]: the [console.error] lines, oldest first. *)
Record World := mkWorld {
  rooms : gmap string (gset string);
  docs : list Room;
  faults : list (option string);
  draws : nat;
  sent : list (string * ServerMsg);
  errors : list ErrorLine
}.

Definition set_rooms (f : gmap string (gset string) -> gmap string (gset string))
    (w : World) : World :=
  mkWorld (f (rooms w)) (docs w) (faults w) (draws w) (sent w) (errors w).

Definition set_docs (f : list Room -> list Room) (w : World) : World :=
  mkWorld (rooms w) (f (docs w)) (faults w) (draws w) (sent w) (errors w).

Definition set_faults (fs : list (option string)) (w : World) : World :=
  mkWorld (rooms w) (docs w) fs (draws w) (sent w) (errors w).

Definition set_draws (k : nat) (w : World) : World :=
  mkWorld (rooms w) (docs w) (faults w) k (sent w) (errors w).

Definition add_sent (ms : list (string * ServerMsg)) (w : World) : World :=
  mkWorld (rooms w) (docs w) (faults w) (draws w) (sent w ++ ms) (errors w).

Definition add_error (e : ErrorLine) (w : World) : World :=
  mkWorld (rooms w) (docs w) (faults w) (draws w) (sent w) (errors w ++ [e]).

(** ** Computations: state, exceptions and a loop budget *)

Inductive Outcome (A : Type) :=
| Ok (a : A)
| Throw (message : string)
| OutOfFuel.
Arguments Ok {A} a.
Arguments Throw {A} message.
Arguments OutOfFuel {A}.

Definition M (A : Type) : Type := World -> Outcome A * World.

#[global] Instance M_ret : MRet M := fun A a w => (Ok a, w).

#[global] Instance M_bind : MBind M := fun A B k m w =>
  match m w with
  | (Ok a, w') => k a w'
  | (Throw e, w') => (Throw e, w')
  | (OutOfFuel, w') => (OutOfFuel, w')
  end.

Definition throw {A} (message : string) : M A := fun w => (Throw message, w).

(** [try { body } catch (error) { handler }] *)
Definition try_catch {A} (body : M A) (handler : string -> M A) : M A := fun w =>
  match body w with
  | (Throw e, w') => handler e w'
  | r => r
  end.

Definition modify (f : World -> World) : M unit := fun w => (Ok tt, f w).

Definition console_error (e : ErrorLine) : M unit := modify (add_error e).

(** An event handler of a socket: the state it leaves. *)
Definition run (m : M unit) (w : World) : World := snd (m w).

(** ** The Room collection *)

(** Modelled from the spec: the Mongoose model [models/Room] is not part
    of the sources.  A query [{ code: q }] matches the documents whose
    [code] equals [q] exactly. *)
Definition has_code (q : string) (r : Room) : bool := String.eqb (code r) q.

(** Modelled from the spec: an update through [models/Room] rewrites the
    first document that matches and nothing when none does (no upsert). *)
Fixpoint update_first (q : string) (f : Room -> Room) (ds : list Room) : list Room :=
  match ds with
  | [] => []
  | r :: rest => if has_code q r then f r :: rest else r :: update_first q f rest
  end.

Definition set_canvasData (v : option string) (r : Room) : Room :=
  mkRoom (code r) (room_name r) (creator r) (members r) v.

Definition set_members (ms : list string) (r : Room) : Room :=
  mkRoom (code r) (room_name r) (creator r) ms (canvasData r).

(** Modelled from the spec: one call to [models/Room].  It consumes one
    entry of the schedule and rejects with a store error if the entry
    says so; otherwise it runs on the documents. *)
Definition store_call {A} (op : list Room -> Outcome A * list Room) : M A := fun w =>
  let w' := set_faults (tail (faults w)) w in
  match faults w with
  | Some e :: _ => (Throw e, w')
  | _ => let '(r, ds) := op (docs w) in (r, set_docs (fun _ => ds) w')
  end.

(** Modelled from the spec: [Room.findOne({ code: q })] of [models/Room],
    the first document with that code or none. *)
Definition Room_findOne (q : string) : M (option Room) :=
  store_call (fun ds => (Ok (List.find (has_code q) ds), ds)).

(** Modelled from the spec: [Room.find({})] of [models/Room], all the
    documents. *)
Definition Room_find : M (list Room) :=
  store_call (fun ds => (Ok ds, ds)).

(** Modelled from the spec: [Room.findOneAndUpdate({ code: q }, ...)] of
    [models/Room]; a code that matches no room is not an error. *)
Definition Room_findOneAndUpdate (q : string) (f : Room -> Room) : M unit :=
  store_call (fun ds => (Ok tt, update_first q f ds)).

(** Modelled from the spec: [save] of a new document of [models/Room];
    the code is unique, a second document with a code already there is
    refused. *)
Definition Room_save_new (r : Room) : M unit :=
  store_call (fun ds =>
    if existsb (has_code (code r)) ds then (Throw "DuplicateCode", ds)
    else (Ok tt, (ds ++ [r])%list)).

(** Modelled from the spec: [save] of a document of [models/Room] that
    was read from the collection; it is written back in place. *)
Definition Room_save (r : Room) : M unit :=
  store_call (fun ds => (Ok tt, update_first (code r) (fun _ => r) ds)).

(** ** The Socket.IO adapter *)

(** The sockets in a room; a room that is not in the map has none. *)
Definition room_members (w : World) (room : string) : gset string :=
  default ∅ (rooms w !! room).

(** The map once [socket] is added to [room], the room being created if
    it was not there. *)
Definition joined (socket room : string) (rs : gmap string (gset string))
    : gmap string (gset string) :=
  <[room := {[socket]} ∪ default ∅ (rs !! room)]> rs.

(** [socket.join(room)] *)
Definition socket_join (socket room : string) : M unit :=
  modify (set_rooms (joined socket room)).

(** [socket.emit(msg)]: to this socket only. *)
Definition socket_emit (socket : string) (msg : ServerMsg) : M unit :=
  modify (add_sent [(socket, msg)]).

(** The recipients of a broadcast to [room] from [socket], each with the
    payload: every socket in the room but the sender. *)
Definition broadcast (w : World) (socket room : string) (msg : ServerMsg)
    : list (string * ServerMsg) :=
  (fun peer => (peer, msg)) <$> elements (room_members w room ∖ {[socket]}).

(** [socket.to(room).emit(msg)] *)
Definition socket_to_emit (socket room : string) (msg : ServerMsg) : M unit := fun w =>
  (Ok tt, add_sent (broadcast w socket room msg) w).

(** What Socket.IO does when a socket closes, before the [disconnect]
    event is raised: the socket leaves every room, and a room left empty
    is dropped from the map. *)
Definition without (socket : string) (s : gset string) : option (gset string) :=
  let s' := s ∖ {[socket]} in if decide (s' = ∅) then None else Some s'.

Definition leave_all (socket : string) : M unit :=
  modify (set_rooms (omap (without socket))).

(** ** The socket event handlers (lines 415-511) *)

(** [io.on('connection', ...)]: Socket.IO has put the socket in the room
    named by its own id; the callback only registers the handlers. *)
Definition on_connection (socket : string) : World -> World :=
  run (socket_join socket socket).

(** [socket.on('join-room', ...)] *)
Definition on_join_room (socket roomCode : string) : World -> World :=
  run (try_catch
    (let upperRoomCode := toUpperCase roomCode in
     socket_join socket upperRoomCode;;
     roomData ← Room_findOne upperRoomCode;
     match roomData with
     | Some room =>
         if truthy (canvasData room)
         then socket_emit socket (CanvasData (default "" (canvasData room)))
         else mret tt
     | None => mret tt
     end)
    (fun error => console_error (JoinRoomError error))).

(** [socket.on('drawing-data', ...)] *)
Definition on_drawing_data (socket roomCode : string) (stroke : Stroke) : World -> World :=
  run (try_catch
    (let upperRoomCode := toUpperCase roomCode in
     socket_to_emit socket upperRoomCode
       (DrawingData (mkStroke (prevX stroke) (prevY stroke) (currentX stroke)
                       (currentY stroke) (color stroke) (size stroke) (tool stroke))))
    (fun error => console_error (DrawingDataError error))).

(** [socket.on('canvas-data', ...)] *)
Definition on_canvas_data (socket roomCode imageData : string) : World -> World :=
  run (try_catch
    (let upperRoomCode := toUpperCase roomCode in
     socket_to_emit socket upperRoomCode (CanvasData imageData);;
     Room_findOneAndUpdate upperRoomCode (set_canvasData (Some imageData)))
    (fun error => console_error (CanvasDataError error))).

(** [socket.on('clear-canvas', ...)] *)
Definition on_clear_canvas (socket roomCode : string) : World -> World :=
  run (try_catch
    (let upperRoomCode := toUpperCase roomCode in
     socket_to_emit socket upperRoomCode ClearCanvas;;
     Room_findOneAndUpdate upperRoomCode (set_canvasData (Some "")))
    (fun error => console_error (ClearCanvasError error))).

(** [socket.on('disconnect', ...)]: Socket.IO has emptied the socket's
    rooms; the callback itself only writes a [console.log] line. *)
Definition on_disconnect (socket : string) : World -> World :=
  run (leave_all socket).

(** The relay: one event of one socket. *)
Definition relay (socket : string) (ev : SocketEvent) : World -> World :=
  match ev with
  | Connection => on_connection socket
  | JoinRoom roomCode => on_join_room socket roomCode
  | DrawingDataIn roomCode stroke => on_drawing_data socket roomCode stroke
  | CanvasDataIn roomCode imageData => on_canvas_data socket roomCode imageData
  | ClearCanvasIn roomCode => on_clear_canvas socket roomCode
  | Disconnect => on_disconnect socket
  end.

(** ** The HTTP routes *)

Inductive Body :=
| ErrorBody (error : string) (details : option string)
| RoomCreated (roomCode roomName message : string)
| RoomNotFound (error : string) (availableRooms : nat)
| RoomFound (room_name code : string) (memberCount : nat) (message : string).

Record Response := mkResponse {
  status : nat;
  body : Body
}.

Definition present {A} (o : option A) : bool :=
  match o with Some _ => true | None => false end.

(** [Array.prototype.includes] on the members of a room. *)
Definition includes (ms : list string) (userId : string) : bool :=
  existsb (String.eqb userId) ms.

Definition double_quote : string := String (ascii_of_nat 34) EmptyString.

Section Routes.

Variable random : nat -> Q.

(** A call of [genRoomCode()]: it takes the next six draws. *)
Definition genRoomCodeM : M string := fun w =>
  let '(result, k) := genRoomCode random (draws w) in (Ok result, set_draws k w).

(** The [do ... while (existingRoom && attempts < 10)] loop of
    create-room (lines 253-258).  [fuel] bounds the number of iterations
    for the recursion; [attempts] is the counter of the source.  The
    result is the last [code], the last [existingRoom] and [attempts]. *)
Fixpoint generate_unique (fuel attempts : nat) : M (string * option Room * nat) :=
  match fuel with
  | O => fun w => (OutOfFuel, w)
  | S fuel' =>
      code ← genRoomCodeM;
      existingRoom ← Room_findOne (toUpperCase code);
      let attempts := S attempts in
      if present existingRoom && (attempts <? 10)%nat
      then generate_unique fuel' attempts
      else mret (code, existingRoom, attempts)
  end.

(** [POST /api/create-room] (lines 234-296), after [authenticateToken]
    has set [req.userId].  [roomName] is [None] when the body has no
    such field. *)
Definition create_room (userId : string) (roomName : option string) : M Response :=
  if negb (truthy roomName) || negb (truthy (trim <$> roomName)) then
    mret (mkResponse 400 (ErrorBody "Room name is required" None))
  else
    let roomName := default "" roomName in
    try_catch
      ('(code, existingRoom, _) ← generate_unique 10 0;
       if present existingRoom then
         mret (mkResponse 500 (ErrorBody "Failed to generate unique room code" None))
       else
         let finalCode := toUpperCase code in
         let room := mkRoom finalCode (trim roomName) userId [userId] None in
         Room_save_new room;;
         mret (mkResponse 201
                 (RoomCreated finalCode (trim roomName) "Room created successfully")))
      (fun error =>
         console_error (CreateRoomError error);;
         mret (mkResponse 500 (ErrorBody "Room creation failed" (Some error)))).

End Routes.

(** [POST /api/verify-room] (lines 299-364), after [authenticateToken]. *)
Definition verify_room (userId : string) (roomCode : option string) : M Response :=
  if negb (truthy roomCode) || negb (truthy (trim <$> roomCode)) then
    mret (mkResponse 400 (ErrorBody "Room code is required" None))
  else
    let roomCode := default "" roomCode in
    try_catch
      (let cleanCode := toUpperCase (trim roomCode) in
       found ← Room_findOne cleanCode;
       match found with
       | None =>
           allRooms ← Room_find;
           mret (mkResponse 404
                   (RoomNotFound
                      ("Room with code " +:+ double_quote +:+ cleanCode +:+ double_quote
                         +:+ " not found")
                      (length allRooms)))
       | Some room =>
           room ← (if negb (includes (members room) userId) then
                     let room := set_members (members room ++ [userId]) room in
                     Room_save room;; mret room
                   else mret room);
           mret (mkResponse 200
                   (RoomFound (room_name room) (code room) (length (members room))
                      "Room found successfully"))
       end)
      (fun error =>
         console_error (VerifyRoomError error);;
         mret (mkResponse 500 (ErrorBody "Room verification failed" (Some error)))).

(** A state with nothing in it: no socket, no room, no pending fault. *)
Definition empty_world : World := mkWorld ∅ [] [] 0 [] [].

(** ** Histories *)

(** The events of a run, oldest first, each with the socket it comes
    from. *)
Fixpoint run_events (evs : list (string * SocketEvent)) (w : World) : World :=
  match evs with
  | [] => w
  | (socket, ev) :: later => run_events later (relay socket ev w)
  end.

Definition is_join (ev : SocketEvent) : bool :=
  match ev with JoinRoom _ => true | _ => false end.

(** No [join-room] of [socket] occurs in the history. *)
Definition never_joined (socket : string) (evs : list (string * SocketEvent)) : bool :=
  forallb (fun '(s, ev) => negb (String.eqb s socket && is_join ev)) evs.

(** The events that write a snapshot. *)
Definition is_sync (ev : SocketEvent) : bool :=
  match ev with CanvasDataIn _ _ | ClearCanvasIn _ => true | _ => false end.

(** No event of the history writes a snapshot. *)
Definition no_sync (evs : list (string * SocketEvent)) : bool :=
  forallb (fun '(_, ev) => negb (is_sync ev)) evs.

(** No event of [socket] occurs in the history. *)
Definition silent (socket : string) (evs : list (string * SocketEvent)) : bool :=
  forallb (fun '(s, _) => negb (String.eqb s socket)) evs.

(** The messages emitted between a state [w] and a later state [w']. *)
Definition emitted (w w' : World) : list (string * ServerMsg) :=
  drop (length (sent w)) (sent w').

(** The messages a single event sends, as a function of the event and of
    the state before it. *)
Definition sends (socket : string) (ev : SocketEvent) (w : World)
    : list (string * ServerMsg) :=
  match ev with
  | Connection | Disconnect => []
  | JoinRoom roomCode =>
      match faults w with
      | Some _ :: _ => []
      | _ =>
          match List.find (has_code (toUpperCase roomCode)) (docs w) with
          | Some room =>
              if truthy (canvasData room)
              then [(socket, CanvasData (default "" (canvasData room)))]
              else []
          | None => []
          end
      end
  | DrawingDataIn roomCode stroke =>
      broadcast w socket (toUpperCase roomCode) (DrawingData stroke)
  | CanvasDataIn roomCode imageData =>
      broadcast w socket (toUpperCase roomCode) (CanvasData imageData)
  | ClearCanvasIn roomCode => broadcast w socket (toUpperCase roomCode) ClearCanvas
  end.

(** ** Candidates of the code allocation *)

(** The code that attempt number [j] (from 0) of a create-room started
    in [w] generates, and whether the collection already has it. *)
Definition candidate (random : nat -> Q) (w : World) (j : nat) : string :=
  fst (genRoomCode random (draws w + 6 * j)).

Definition collides (random : nat -> Q) (w : World) (j : nat) : bool :=
  present (List.find (has_code (toUpperCase (candidate random w j))) (docs w)).

(** All characters of a string are white space. *)
Definition blank (s : string) : bool := forallb is_space (chars_of s).

(** ** Scenarios *)

(** The stroke of the specification's scenario. *)
Definition pen_stroke : Stroke :=
  mkStroke 0 0 (inject_Z 10) (inject_Z 10) "#000" (inject_Z 2) "pen".

(** Sockets A and B are connected; A joins with a padded lower-case code
    and B with the clean code. *)
Definition padded_join : list (string * SocketEvent) :=
  [("A", Connection); ("B", Connection);
   ("A", JoinRoom " abc123 "); ("B", JoinRoom "ABC123")].

(** Socket B is in room ROOM1, socket A is connected and joins nothing. *)
Definition lurker : list (string * SocketEvent) :=
  [("A", Connection); ("B", Connection); ("B", JoinRoom "ROOM1")].

(** Sockets A and B are both in room ROOM1, whatever the case they wrote
    it in. *)
Definition two_peers : list (string * SocketEvent) :=
  [("A", Connection); ("B", Connection);
   ("A", JoinRoom "ROOM1"); ("B", JoinRoom "room1")].

(** A collection with one room, created by user u1. *)
Definition one_room : World :=
  mkWorld ∅ [mkRoom "ROOM1" "Team Sync" "u1" ["u1"] None] [] 0 [] [].

(** A collection in which the code AAAAAA is taken, and a generator
    that only ever produces that code. *)
Definition taken : World :=
  mkWorld ∅ [mkRoom "AAAAAA" "Old room" "u0" ["u0"] None] [] 0 [] [].

Definition stuck : nat -> Q := fun _ => 0%Q.

(** ** The requests of the room subsystem, in one type *)

(** A request to the routes create-room and verify-room, or an event of
    a socket. *)
Inductive Request :=
| CreateRoom (userId : string) (roomName : option string)
| VerifyRoom (userId : string) (roomCode : option string)
| Socket (socket : string) (ev : SocketEvent).

(** The state a request leaves. *)
Definition serve (random : nat -> Q) (rq : Request) (w : World) : World :=
  match rq with
  | CreateRoom userId roomName => snd (create_room random userId roomName w)
  | VerifyRoom userId roomCode => snd (verify_room userId roomCode w)
  | Socket socket ev => relay socket ev w
  end.

(** The requests of a run, oldest first. *)
Fixpoint serve_all (random : nat -> Q) (rqs : list Request) (w : World) : World :=
  match rqs with
  | [] => w
  | rq :: later => serve_all random later (serve random rq w)
  end.

(** A room and a later version of it: the code, the name and the creator
    are the same, and the members are the old ones, in order, followed by
    those that came since. *)
Definition room_grows (r r' : Room) : Prop :=
  code r' = code r ∧ room_name r' = room_name r ∧ creator r' = creator r
  ∧ members r `prefix_of` members r'.

(** A collection and a later version of it: the old rooms at their
    places, each grown, followed by the rooms created since. *)
Definition docs_grow (d d' : list Room) : Prop :=
  ∃ kept new, d' = kept ++ new ∧ Forall2 room_grows d kept.

(** No two rooms of the collection have the same code. *)
Definition unique_codes (d : list Room) : Prop := NoDup (code <$> d).

(** No room lists a member twice. *)
Definition unique_members (d : list Room) : Prop :=
  Forall (fun r => NoDup (members r)) d.

(** A room without its snapshot. *)
Definition without_snapshot (r : Room) : string * string * string * list string :=
  (code r, room_name r, creator r, members r).

(** ** Regular expressions *)

(** The part of JavaScript's regular expressions that the server uses:
    character classes, literal characters, sequence and repetition.
    [RNever] and [RAlt] are needed to take derivatives. *)
Inductive Regex :=
| RNever
| REmpty
| RClass (p : ascii -> bool)
| RSeq (r1 r2 : Regex)
| RAlt (r1 r2 : Regex)
| RStar (r : Regex).

(** The strings of a regular expression. *)
Inductive Matches : Regex -> string -> Prop :=
| MEmpty : Matches REmpty ""
| MClass p c : p c = true -> Matches (RClass p) (String c "")
| MSeq r1 r2 s1 s2 : Matches r1 s1 -> Matches r2 s2 -> Matches (RSeq r1 r2) (s1 +:+ s2)
| MAltL r1 r2 s : Matches r1 s -> Matches (RAlt r1 r2) s
| MAltR r1 r2 s : Matches r2 s -> Matches (RAlt r1 r2) s
| MStarNil r : Matches (RStar r) ""
| MStarCons r s1 s2 : Matches r s1 -> Matches (RStar r) s2 -> Matches (RStar r) (s1 +:+ s2).

Fixpoint nullable (r : Regex) : bool :=
  match r with
  | RNever => false
  | REmpty => true
  | RClass _ => false
  | RSeq r1 r2 => nullable r1 && nullable r2
  | RAlt r1 r2 => nullable r1 || nullable r2
  | RStar _ => true
  end.

(** What is left of [r] once it has read the character [c]. *)
Fixpoint derive (c : ascii) (r : Regex) : Regex :=
  match r with
  | RNever => RNever
  | REmpty => RNever
  | RClass p => if p c then REmpty else RNever
  | RSeq r1 r2 =>
      if nullable r1 then RAlt (RSeq (derive c r1) r2) (derive c r2)
      else RSeq (derive c r1) r2
  | RAlt r1 r2 => RAlt (derive c r1) (derive c r2)
  | RStar r1 => RSeq (derive c r1) (RStar r1)
  end.

(** [/^r$/.test(s)]: the whole string is read by [r]. *)
Fixpoint matches (r : Regex) (s : string) : bool :=
  match s with
  | EmptyString => nullable r
  | String c rest => matches (derive c r) rest
  end.

(** [r+] *)
Definition one_or_more (r : Regex) : Regex := RSeq r (RStar r).

(** The characters of [s], one after the other. *)
Fixpoint literal (s : string) : Regex :=
  match s with
  | EmptyString => REmpty
  | String c rest => RSeq (RClass (Ascii.eqb c)) (literal rest)
  end.

(** The class [[a-zA-Z0-9._%+-]]. *)
Definition email_local (c : ascii) : bool :=
  let n := nat_of_ascii c in
  ((97 <=? n)%nat && (n <=? 122)%nat) || ((65 <=? n)%nat && (n <=? 90)%nat)
  || ((48 <=? n)%nat && (n <=? 57)%nat)
  || (n =? 46)%nat || (n =? 95)%nat || (n =? 37)%nat || (n =? 43)%nat || (n =? 45)%nat.

(** [/^[a-zA-Z0-9._%+-]+@gmail\.com$/] (line 93) *)
Definition gmail_pattern : Regex :=
  RSeq (one_or_more (RClass email_local)) (literal "@gmail.com").

(** ** Accounts: the routes register and login (lines 78-218) *)

(** Modelled from the spec: a document of the collection of the model
    [models/User], which is not part of the sources: an identity with a
    username, an email, the password as the model stores it, the flag
    [isActive] and the time of the last login. *)
Record User := mkUser {
  _id : string;
  username : string;
  email : string;
  password : string;
  isActive : bool;
  lastLogin : option nat
}.

(** An error caught by a route, with the fields the routes read:
    [error.name], [error.message] and, for a validation error of the
    model, the messages of [Object.values(error.errors)]. *)
Record JsError := mkError {
  error_name : string;
  error_message : string;
  error_errors : list string
}.

Inductive AccountErrorLine :=
| RegistrationError (error : JsError)
| LoginError (error : JsError).

(** The accounts and what the routes have written to [console.error];
    [user_faults] schedules the outcomes of the coming calls to the
    collection, as [faults] does for the rooms. *)
Record Accounts := mkAccounts {
  users : list User;
  user_faults : list (option JsError);
  account_errors : list AccountErrorLine
}.

Inductive Attempt (A : Type) :=
| Done (a : A)
| Rejected (error : JsError).
Arguments Done {A} a.
Arguments Rejected {A} error.

Definition Auth (A : Type) : Type := Accounts -> Attempt A * Accounts.

Definition auth_ret {A} (a : A) : Auth A := fun acc => (Done a, acc).

Definition auth_bind {A B} (m : Auth A) (k : A -> Auth B) : Auth B := fun acc =>
  match m acc with
  | (Done a, acc') => k a acc'
  | (Rejected e, acc') => (Rejected e, acc')
  end.

(** [try { body } catch (error) { handler }] in a route of the accounts. *)
Definition auth_try {A} (body : Auth A) (handler : JsError -> Auth A) : Auth A := fun acc =>
  match body acc with
  | (Rejected e, acc') => handler e acc'
  | r => r
  end.

Definition account_error (e : AccountErrorLine) : Auth unit := fun acc =>
  (Done tt, mkAccounts (users acc) (user_faults acc) (account_errors acc ++ [e])).

(** Modelled from the spec: one call to [models/User]; it consumes one
    entry of the schedule and rejects if the entry says so. *)
Definition user_call {A} (op : list User -> A * list User) : Auth A := fun acc =>
  match user_faults acc with
  | Some e :: rest => (Rejected e, mkAccounts (users acc) rest (account_errors acc))
  | fs => let '(a, us) := op (users acc) in
          (Done a, mkAccounts us (tail fs) (account_errors acc))
  end.

(** Modelled from the spec: [User.findOne({ $or: [{ username: u },
    { email: e }] })] of [models/User], the first user with that username
    or that email. *)
Definition User_findOne_or (u e : string) : Auth (option User) :=
  user_call (fun us =>
    (List.find (fun x => String.eqb (username x) u || String.eqb (email x) e) us, us)).

(** Modelled from the spec: [save] of a document of [models/User] that
    was read from the collection; it is written back in place. *)
Definition User_save (u : User) : Auth unit :=
  user_call (fun us =>
    (tt, map (fun x => if String.eqb (_id x) (_id u) then u else x) us)).

Definition with_lastLogin (t : nat) (u : User) : User :=
  mkUser (_id u) (username u) (email u) (password u) (isActive u) (Some t).

Inductive AccountBody :=
| AccountError (error : string) (details : option string)
| Registered (message : string)
| LoggedIn (id username email token message : string).

Record AccountResponse := mkAccountResponse {
  account_status : nat;
  account_body : AccountBody
}.

(** [Array.prototype.join] *)
Fixpoint join (sep : string) (parts : list string) : string :=
  match parts with
  | [] => ""
  | [p] => p
  | p :: rest => p +:+ sep +:+ join sep rest
  end.

Section Accounts.

(** Modelled from the spec: the document that [new User({ username,
    email, password })] of [models/User] becomes when it is saved in a
    collection (the model hashes the password and sets the identity). *)
Variable new_user : list User -> string -> string -> string -> User.

(** Modelled from the spec: [user.comparePassword(candidate)] of
    [models/User]. *)
Variable comparePassword : User -> string -> bool.

(** [generateToken] of [utils/jwt], which is not part of the sources. *)
Variable generateToken : string -> string.

(** Modelled from the spec: [save] of a new document of [models/User]. *)
Definition User_save_new (u e p : string) : Auth unit :=
  user_call (fun us => (tt, us ++ [new_user us u e p])).

(** [POST /api/register] (lines 78-150).  The arguments are the fields
    [username], [email] and [password] of the body, [None] when the body
    does not have them. *)
Definition register (body_username body_email body_password : option string)
    : Auth AccountResponse :=
  if negb (truthy body_username) || negb (truthy body_email)
     || negb (truthy body_password) then
    auth_ret (mkAccountResponse 400
                (AccountError "Username, email, and password are required" None))
  else
    let given_username := default "" body_username in
    let given_email := default "" body_email in
    let given_password := default "" body_password in
    if negb (matches gmail_pattern given_email) then
      auth_ret (mkAccountResponse 400
                  (AccountError "Email must be in format: xyz@gmail.com" None))
    else if (String.length given_password <? 6)%nat then
      auth_ret (mkAccountResponse 400
                  (AccountError "Password must be at least 6 characters" None))
    else
      auth_try
        (auth_bind (User_findOne_or given_username given_email) (fun existingUser =>
           match existingUser with
           | Some existing =>
               let field := if String.eqb (email existing) given_email
                            then "email" else "username" in
               auth_ret (mkAccountResponse 409
                           (AccountError ("User with this " +:+ field +:+ " already exists")
                              None))
           | None =>
               auth_bind (User_save_new given_username given_email given_password)
                 (fun _ =>
                    auth_ret (mkAccountResponse 201
                                (Registered "Registration successful! Please login.")))
           end))
        (fun error =>
           auth_bind (account_error (RegistrationError error)) (fun _ =>
             if String.eqb (error_name error) "ValidationError" then
               auth_ret (mkAccountResponse 400
                           (AccountError (join ", " (error_errors error)) None))
             else
               auth_ret (mkAccountResponse 500
                           (AccountError "Registration failed"
                              (Some (error_message error)))))).

(** [POST /api/login] (lines 152-218).  The arguments are the fields
    [username] and [password] of the body; [now] is the value of
    [new Date()] when the route runs. *)
Definition login (now : nat) (body_username body_password : option string)
    : Auth AccountResponse :=
  if negb (truthy body_username) || negb (truthy body_password) then
    auth_ret (mkAccountResponse 400
                (AccountError "Username/email and password are required" None))
  else
    let given_username := default "" body_username in
    let given_password := default "" body_password in
    auth_try
      (auth_bind (User_findOne_or given_username given_username) (fun found =>
         match found with
         | None =>
             auth_ret (mkAccountResponse 401 (AccountError "Invalid credentials" None))
         | Some user =>
             if negb (isActive user) then
               auth_ret (mkAccountResponse 401 (AccountError "Account is inactive" None))
             else if negb (comparePassword user given_password) then
               auth_ret (mkAccountResponse 401 (AccountError "Invalid credentials" None))
             else
               let user := with_lastLogin now user in
               auth_bind (User_save user) (fun _ =>
                 let token := generateToken (_id user) in
                 auth_ret (mkAccountResponse 200
                             (LoggedIn (_id user) (username user) (email user) token
                                "Login successful")))
         end))
      (fun error =>
         auth_bind (account_error (LoginError error)) (fun _ =>
           auth_ret (mkAccountResponse 500
                       (AccountError "Login failed" (Some (error_message error)))))).

End Accounts.

(** What identifies an account and lets its owner in: every field of a
    user but the time of the last login. *)
Definition credentials (u : User) : string * string * string * string * bool :=
  (_id u, username u, email u, password u, isActive u).

(** Accounts for the examples: Alice is active, Bob is not. *)
Definition alice : User :=
  mkUser "id-alice" "alice" "alice@gmail.com" "hash-of-wonderland" true None.

Definition bob : User :=
  mkUser "id-bob" "bob" "bob@gmail.com" "hash-of-builder" false None.

Definition two_accounts : Accounts := mkAccounts [alice; bob] [] [].

(** A model that stores what it is given, a comparison of passwords that
    knows of one hash function only, and a token that names the user. *)
Definition plain_user (us : list User) (u e p : string) : User :=
  mkUser ("id-" +:+ u) u e ("hash-of-" +:+ p) true None.

Definition plain_compare (u : User) (candidate : string) : bool :=
  String.eqb (password u) ("hash-of-" +:+ candidate).

Definition plain_token (id : string) : string := "token-for-" +:+ id.

(** A collection with the room ABC123, which has a snapshot. *)
Definition abc_room : World :=
  mkWorld ∅ [mkRoom "ABC123" "Team Sync" "u1" ["u1"] (Some "X")] [] 0 [] [].

(** A name made of one no-break space. *)
Definition no_break_space : string := String (ascii_of_nat 160) EmptyString.

(** ** Fields that are not strings *)

(** The values of JSON, for a field of a request body or an argument of
    a socket event. *)
Inductive Json :=
| JNull
| JBool (b : bool)
| JNumber (q : Q)
| JString (s : string)
| JArray (items : list Json)
| JObject (fields : list (string * Json)).

(** Truthiness of a field; [None] is a field that is not there
    ([undefined]). *)
Definition truthy_json (v : option Json) : bool :=
  match v with
  | None => false
  | Some JNull => false
  | Some (JBool b) => b
  | Some (JNumber q) => negb (Qeq_bool q 0)
  | Some (JString s) => negb (is_empty s)
  | Some (JArray _) => true
  | Some (JObject _) => true
  end.

(** The field is a value on which [.trim()] and [.toUpperCase()] cannot
    be called: it is truthy and not a string. *)
Definition not_a_string (v : option Json) : bool :=
  match v with
  | Some (JString _) => false
  | _ => truthy_json v
  end.

(** The field is a string. *)
Definition is_string (v : option Json) : bool :=
  match v with
  | Some (JString _) => true
  | _ => false
  end.

(** The message of the [TypeError] of a call of a method that the value
    does not have. *)
Definition type_error : string := "TypeError".

(** [POST /api/create-room] for any JSON field [roomName].  The test
    [!roomName || !roomName.trim()] of line 242 is before the [try]: a
    falsy field is answered like a missing one by the first disjunct; on
    a truthy field that is not a string the call of [trim] throws, and
    the exception leaves the handler, which sends no response. *)
Definition create_room_request (random : nat -> Q) (userId : string)
    (roomName : option Json) : M Response :=
  match roomName with
  | Some (JString s) => create_room random userId (Some s)
  | _ =>
      if truthy_json roomName then throw type_error
      else create_room random userId None
  end.

(** [POST /api/verify-room] for any JSON field [roomCode]: the test of
    line 306 is before the [try] as well. *)
Definition verify_room_request (userId : string) (roomCode : option Json)
    : M Response :=
  match roomCode with
  | Some (JString s) => verify_room userId (Some s)
  | _ =>
      if truthy_json roomCode then throw type_error
      else verify_room userId None
  end.

(** The events of a socket with any JSON value, or none, as room code.
    The payload of drawing-data and of canvas-data is an object, of which
    [roomCode] is a field; the other fields have the types of the message
    tables. *)
Inductive RawEvent :=
| RawConnection
| RawJoinRoom (roomCode : option Json)
| RawDrawingData (roomCode : option Json) (stroke : Stroke)
| RawCanvasData (roomCode : option Json) (imageData : string)
| RawClearCanvas (roomCode : option Json)
| RawDisconnect.


(** A socket handler on a raw event.  [roomCode.toUpperCase()] is the
    first call in the [try] of each of the four handlers (lines 420, 443,
    465 and 489): when the code is not a string it throws, whether the
    value is missing, [null] or of another type, and the [catch] block
    writes the error; nothing else is done. *)
Definition relay_raw (socket : string) (ev : RawEvent) (w : World) : World :=
  match ev with
  | RawConnection => on_connection socket w
  | RawJoinRoom (Some (JString c)) => on_join_room socket c w
  | RawJoinRoom _ => add_error (JoinRoomError type_error) w
  | RawDrawingData (Some (JString c)) stroke => on_drawing_data socket c stroke w
  | RawDrawingData _ _ => add_error (DrawingDataError type_error) w
  | RawCanvasData (Some (JString c)) imageData => on_canvas_data socket c imageData w
  | RawCanvasData _ _ => add_error (CanvasDataError type_error) w
  | RawClearCanvas (Some (JString c)) => on_clear_canvas socket c w
  | RawClearCanvas _ => add_error (ClearCanvasError type_error) w
  | RawDisconnect => on_disconnect socket w
  end.

Fixpoint run_raw_events (evs : list (string * RawEvent)) (w : World) : World :=
  match evs with
  | [] => w
  | (socket, ev) :: later => run_raw_events later (relay_raw socket ev w)
  end.


(** A history with room codes of several types. *)
Definition mixed_codes : list (string * RawEvent) :=
  [("A", RawConnection); ("A", RawJoinRoom (Some (JString "nowhere")));
   ("A", RawJoinRoom None); ("B", RawDrawingData (Some (JNumber 7)) pen_stroke);
   ("B", RawDrawingData (Some (JString "room1")) pen_stroke);
   ("C", RawCanvasData (Some JNull) "X"); ("C", RawCanvasData (Some (JString "nosuch")) "X");
   ("D", RawClearCanvas (Some (JArray []))); ("D", RawClearCanvas (Some (JString "room1")));
   ("E", RawDisconnect)].

(** The [TypeError] of [email.match] on a value that has no such
    method. *)
Definition match_type_error : JsError :=
  mkError "TypeError" "email.match is not a function" [].

(** [POST /api/register] for any JSON field [email], the fields
    [username] and [password] being strings or missing.  The tests of
    lines 85 and 93 are before the [try]: when one of the three fields
    is falsy the answer is that of line 87; when all are truthy and the
    email is not a string, [email.match] throws and the exception leaves
    the handler, which sends no response. *)
Definition register_request (new_user : list User -> string -> string -> string -> User)
    (body_username : option string) (body_email : option Json)
    (body_password : option string) : Auth AccountResponse :=
  match body_email with
  | Some (JString e) => register new_user body_username (Some e) body_password
  | _ =>
      if truthy body_username && truthy_json body_email && truthy body_password
      then fun acc => (Rejected match_type_error, acc)
      else register new_user body_username None body_password
  end.

(** Unfolding of the computations of a handler. *)
Ltac run_handler :=
  cbv [mbind M_bind mret M_ret run try_catch throw modify console_error
       store_call Room_findOne Room_find Room_findOneAndUpdate Room_save Room_save_new
       socket_join socket_emit socket_to_emit leave_all
       set_rooms set_docs set_faults set_draws add_sent add_error
       rooms docs faults draws sent errors tail snd fst].

(** * Properties *)

(** ** Strings *)

Lemma length_append (s t : string) :
  String.length (s +:+ t) = String.length s + String.length t.
Proof. induction s as [|c s IH]; simpl; [reflexivity | now rewrite IH]. Qed.

Lemma chars_of_append (s t : string) :
  chars_of (s +:+ t) = (chars_of s ++ chars_of t)%list.
Proof. induction s as [|c s IH]; simpl; [reflexivity | now rewrite IH]. Qed.

Lemma trimStart_blank (s : string) : blank s = true → trimStart s = "".
Proof.
  unfold blank. induction s as [|c s IH]; simpl; [reflexivity |].
  intros [Hc Hs]%andb_true_iff. rewrite Hc. now apply IH.
Qed.

Lemma trim_blank (s : string) : blank s = true → trim s = "".
Proof. intros H. unfold trim. now rewrite trimStart_blank. Qed.

Lemma is_empty_true (s : string) : is_empty s = true ↔ s = "".
Proof. destruct s; simpl; split; congruence. Qed.

(** ** The generator *)

Lemma chars_get (n : nat) :
  n < 36 → ∃ c, String.get n chars = Some c ∧ in_alphabet c = true.
Proof.
  intros Hn.
  do 36 (destruct n as [|n]; [eexists; split; reflexivity |]).
  lia.
Qed.

Lemma random_index_range (random : nat → Q) (k : nat) :
  (0 <= random k)%Q → (random k < 1)%Q → (0 ≤ random_index random k < 36)%Z.
Proof.
  intros H0 H1. unfold random_index.
  change (Z.of_nat (String.length chars)) with 36%Z.
  split.
  - rewrite <- (Qfloor_Z 0). apply Qfloor_resp_le.
    apply Qmult_le_0_compat; [assumption | discriminate].
  - assert (Hlt : (random k * inject_Z 36 < inject_Z 36)%Q).
    { apply Qlt_le_trans with (1 * inject_Z 36)%Q.
      - apply Qmult_lt_r; [reflexivity | assumption].
      - unfold Qle; simpl; lia. }
    pose proof (Qfloor_le (random k * inject_Z 36)) as Hfl.
    pose proof (Qle_lt_trans _ _ _ Hfl Hlt) as Hz.
    now rewrite <- Zlt_Qlt in Hz.
Qed.

Lemma charAt_chars (i : Z) :
  (0 ≤ i < 36)%Z → ∃ c, charAt chars i = String c "" ∧ in_alphabet c = true.
Proof.
  intros [H0 H1]. unfold charAt.
  destruct (Z.ltb_spec i 0) as [Hneg|_]; [lia |].
  destruct (chars_get (Z.to_nat i)) as (c & Hget & Hc); [lia |].
  rewrite Hget. now exists c.
Qed.

Lemma genRoomCode_loop_draws (random : nat → Q) (todo : nat) :
  ∀ result k, snd (genRoomCode_loop random todo result k) = k + todo.
Proof.
  induction todo as [|todo IH]; intros result k; simpl; [lia |].
  rewrite IH. lia.
Qed.

Lemma genRoomCode_loop_shape (random : nat → Q) (todo : nat) :
  (∀ i, (0 <= random i)%Q ∧ (random i < 1)%Q) →
  ∀ result k,
    Forall (λ c, in_alphabet c = true) (chars_of result) →
    String.length (fst (genRoomCode_loop random todo result k))
      = String.length result + todo
    ∧ Forall (λ c, in_alphabet c = true)
        (chars_of (fst (genRoomCode_loop random todo result k))).
Proof.
  intros Hrandom. induction todo as [|todo IH]; intros result k Hres; simpl.
  - split; [lia | assumption].
  - destruct (Hrandom k) as [H0 H1].
    destruct (charAt_chars _ (random_index_range random k H0 H1)) as (c & Hc & Hin).
    rewrite Hc.
    destruct (IH (result +:+ String c "") (S k)) as [Hlen Hall].
    + rewrite chars_of_append. apply Forall_app. split; [assumption |].
      simpl. constructor; [assumption | constructor].
    + split; [| assumption]. rewrite Hlen, length_append. simpl. lia.
Qed.

Lemma genRoomCode_draws (random : nat → Q) (k : nat) :
  snd (genRoomCode random k) = k + 6.
Proof. apply genRoomCode_loop_draws. Qed.

(** C9. Whatever the values of [Math.random()] (each in the interval
    from 0 included to 1 excluded), the string that [genRoomCode] returns
    has length exactly 6 and each of its characters is one of the 36
    symbols A-Z, 0-9. *)
Theorem genRoomCode_six_alphanumeric (random : nat → Q) (k : nat) :
  (∀ i, (0 <= random i)%Q ∧ (random i < 1)%Q) →
  String.length (fst (genRoomCode random k)) = 6
  ∧ Forall (λ c, in_alphabet c = true) (chars_of (fst (genRoomCode random k))).
Proof.
  intros Hrandom. unfold genRoomCode.
  destruct (genRoomCode_loop_shape random 6 Hrandom "" k) as [Hlen Hall].
  - constructor.
  - split; assumption.
Qed.

Lemma genRoomCode_six_alphanumeric_witness :
  String.length (fst (genRoomCode (λ i, (Z.of_nat (i mod 9) # 9)%Q) 0)) = 6
  ∧ Forall (λ c, in_alphabet c = true)
      (chars_of (fst (genRoomCode (λ i, (Z.of_nat (i mod 9) # 9)%Q) 0))).
Proof.
  apply genRoomCode_six_alphanumeric.
  intros i. unfold Qle, Qlt. simpl.
  pose proof (Nat.mod_upper_bound i 9 ltac:(discriminate)) as Hmod.
  split; lia.
Defined.

(** ** Equations of the socket handlers *)

Lemma on_connection_eq (socket : string) (w : World) :
  on_connection socket w = set_rooms (joined socket socket) w.
Proof. reflexivity. Qed.

Lemma on_join_room_eq (socket roomCode : string) (w : World) :
  on_join_room socket roomCode w =
    let w1 := set_rooms (joined socket (toUpperCase roomCode)) w in
    match faults w with
    | Some e :: fs => add_error (JoinRoomError e) (set_faults fs w1)
    | fs =>
        let w2 := set_docs (λ _, docs w) (set_faults (tail fs) w1) in
        match List.find (has_code (toUpperCase roomCode)) (docs w) with
        | Some room =>
            if truthy (canvasData room)
            then add_sent [(socket, CanvasData (default "" (canvasData room)))] w2
            else w2
        | None => w2
        end
    end.
Proof.
  destruct w as [r d f k s e]. destruct f as [|[m|] f].
  - unfold on_join_room. run_handler.
    destruct (List.find _ d) as [room|]; [destruct (truthy _) |]; reflexivity.
  - reflexivity.
  - unfold on_join_room. run_handler.
    destruct (List.find _ d) as [room|]; [destruct (truthy _) |]; reflexivity.
Qed.

Lemma on_drawing_data_eq (socket roomCode : string) (stroke : Stroke) (w : World) :
  on_drawing_data socket roomCode stroke w =
    add_sent (broadcast w socket (toUpperCase roomCode) (DrawingData stroke)) w.
Proof. destruct stroke. reflexivity. Qed.

Lemma on_canvas_data_eq (socket roomCode imageData : string) (w : World) :
  on_canvas_data socket roomCode imageData w =
    let w1 := add_sent (broadcast w socket (toUpperCase roomCode) (CanvasData imageData)) w in
    match faults w with
    | Some e :: fs => add_error (CanvasDataError e) (set_faults fs w1)
    | fs => set_docs (update_first (toUpperCase roomCode) (set_canvasData (Some imageData)))
              (set_faults (tail fs) w1)
    end.
Proof. destruct w as [r d f k s e]. destruct f as [|[m|] f]; reflexivity. Qed.

Lemma on_clear_canvas_eq (socket roomCode : string) (w : World) :
  on_clear_canvas socket roomCode w =
    let w1 := add_sent (broadcast w socket (toUpperCase roomCode) ClearCanvas) w in
    match faults w with
    | Some e :: fs => add_error (ClearCanvasError e) (set_faults fs w1)
    | fs => set_docs (update_first (toUpperCase roomCode) (set_canvasData (Some "")))
              (set_faults (tail fs) w1)
    end.
Proof. destruct w as [r d f k s e]. destruct f as [|[m|] f]; reflexivity. Qed.

Lemma on_disconnect_eq (socket : string) (w : World) :
  on_disconnect socket w = set_rooms (omap (without socket)) w.
Proof. reflexivity. Qed.

(** ** The adapter *)

Lemma emitted_app (w w' : World) (new : list (string * ServerMsg)) :
  sent w' = sent w ++ new → emitted w w' = new.
Proof. intros H. unfold emitted. rewrite H. apply drop_app_length. Qed.

Lemma emitted_same (w w' : World) : sent w' = sent w → emitted w w' = [].
Proof. intros H. apply emitted_app. now rewrite app_nil_r. Qed.

Lemma elem_of_joined (socket room : string) (w : World) (peer r : string) :
  peer ∈ room_members (set_rooms (joined socket room) w) r
  ↔ (peer = socket ∧ r = room) ∨ peer ∈ room_members w r.
Proof.
  unfold room_members, set_rooms, joined. simpl.
  destruct (decide (room = r)) as [->|Hne].
  - rewrite lookup_insert_eq. simpl. set_solver.
  - rewrite lookup_insert_ne by assumption. split; [tauto |].
    intros [[_ ->]|H]; [congruence | assumption].
Qed.

Lemma elem_of_left (socket : string) (w : World) (peer r : string) :
  peer ∈ room_members (set_rooms (omap (without socket)) w) r
  ↔ peer ∈ room_members w r ∧ peer ≠ socket.
Proof.
  unfold room_members, set_rooms. simpl. rewrite lookup_omap.
  destruct (rooms w !! r) as [s|]; simpl; [| set_solver].
  unfold without. destruct (decide (s ∖ {[socket]} = ∅)) as [He|He]; simpl; set_solver.
Qed.

Lemma elem_of_broadcast (w : World) (socket room : string) (msg : ServerMsg)
    (peer : string) (m : ServerMsg) :
  (peer, m) ∈ broadcast w socket room msg
  ↔ peer ∈ room_members w room ∧ peer ≠ socket ∧ m = msg.
Proof.
  unfold broadcast. rewrite list_elem_of_fmap. split.
  - intros (p & [= -> ->] & Hp). apply elem_of_elements in Hp. set_solver.
  - intros (Hp & Hne & ->). exists peer. split; [reflexivity |].
    apply elem_of_elements. set_solver.
Qed.

Lemma NoDup_broadcast (w : World) (socket room : string) (msg : ServerMsg) :
  NoDup (broadcast w socket room msg).
Proof.
  unfold broadcast. apply NoDup_fmap_2; [| apply NoDup_elements].
  intros p q [= ->]. reflexivity.
Qed.

Lemma broadcast_rooms (w w' : World) (socket room : string) (msg : ServerMsg) :
  rooms w' = rooms w → broadcast w' socket room msg = broadcast w socket room msg.
Proof. intros H. unfold broadcast, room_members. now rewrite H. Qed.

Lemma toUpperCase_idem (s : string) : toUpperCase (toUpperCase s) = toUpperCase s.
Proof.
  induction s as [|c s IH]; simpl; [reflexivity |]. rewrite IH. f_equal.
  unfold upper_char at 1.
  destruct (is_lower (upper_char c)) eqn:Hl; [| reflexivity].
  exfalso. revert Hl. unfold upper_char.
  destruct c as [[] [] [] [] [] [] [] []]; vm_compute; congruence.
Qed.

(** ** What each event sends and what it leaves alone *)

Lemma sent_on_join_room (socket roomCode : string) (w : World) :
  sent (on_join_room socket roomCode w) = sent w ++
    match faults w with
    | Some _ :: _ => []
    | _ =>
        match List.find (has_code (toUpperCase roomCode)) (docs w) with
        | Some room =>
            if truthy (canvasData room)
            then [(socket, CanvasData (default "" (canvasData room)))]
            else []
        | None => []
        end
    end.
Proof.
  rewrite on_join_room_eq. destruct w as [r d f k s e]. simpl.
  destruct f as [|[m|] f]; simpl; rewrite ?app_nil_r; try reflexivity;
    (destruct (List.find _ d) as [room|]; [destruct (truthy _) |]);
    simpl; rewrite ?app_nil_r; reflexivity.
Qed.

Lemma rooms_on_join_room (socket roomCode : string) (w : World) :
  rooms (on_join_room socket roomCode w) = joined socket (toUpperCase roomCode) (rooms w).
Proof.
  rewrite on_join_room_eq. destruct w as [r d f k s e]. simpl.
  destruct f as [|[m|] f]; simpl; try reflexivity;
    (destruct (List.find _ d) as [room|]; [destruct (truthy _) |]); reflexivity.
Qed.

Lemma docs_on_join_room (socket roomCode : string) (w : World) :
  docs (on_join_room socket roomCode w) = docs w.
Proof.
  rewrite on_join_room_eq. destruct w as [r d f k s e]. simpl.
  destruct f as [|[m|] f]; simpl; try reflexivity;
    (destruct (List.find _ d) as [room|]; [destruct (truthy _) |]); reflexivity.
Qed.

Lemma faults_on_join_room (socket roomCode : string) (w : World) :
  faults (on_join_room socket roomCode w) = tail (faults w).
Proof.
  rewrite on_join_room_eq. destruct w as [r d f k s e]. simpl.
  destruct f as [|[m|] f]; simpl; try reflexivity;
    (destruct (List.find _ d) as [room|]; [destruct (truthy _) |]); reflexivity.
Qed.

Lemma room_members_rooms (w w' : World) (room : string) :
  rooms w' = rooms w → room_members w' room = room_members w room.
Proof. intros H. unfold room_members. now rewrite H. Qed.

Lemma elem_of_on_join_room (socket roomCode : string) (w : World) (peer r : string) :
  peer ∈ room_members (on_join_room socket roomCode w) r
  ↔ (peer = socket ∧ r = toUpperCase roomCode) ∨ peer ∈ room_members w r.
Proof.
  rewrite <- elem_of_joined.
  rewrite (room_members_rooms (set_rooms (joined socket (toUpperCase roomCode)) w)
             (on_join_room socket roomCode w)); [reflexivity |].
  apply rooms_on_join_room.
Qed.

Lemma sent_on_canvas_data (socket roomCode imageData : string) (w : World) :
  sent (on_canvas_data socket roomCode imageData w)
  = sent w ++ broadcast w socket (toUpperCase roomCode) (CanvasData imageData).
Proof.
  rewrite on_canvas_data_eq. destruct w as [r d f k s e].
  destruct f as [|[m|] f]; reflexivity.
Qed.

Lemma sent_on_clear_canvas (socket roomCode : string) (w : World) :
  sent (on_clear_canvas socket roomCode w)
  = sent w ++ broadcast w socket (toUpperCase roomCode) ClearCanvas.
Proof.
  rewrite on_clear_canvas_eq. destruct w as [r d f k s e].
  destruct f as [|[m|] f]; reflexivity.
Qed.

Lemma rooms_on_canvas_data (socket roomCode imageData : string) (w : World) :
  rooms (on_canvas_data socket roomCode imageData w) = rooms w.
Proof.
  rewrite on_canvas_data_eq. destruct w as [r d f k s e].
  destruct f as [|[m|] f]; reflexivity.
Qed.

Lemma rooms_on_clear_canvas (socket roomCode : string) (w : World) :
  rooms (on_clear_canvas socket roomCode w) = rooms w.
Proof.
  rewrite on_clear_canvas_eq. destruct w as [r d f k s e].
  destruct f as [|[m|] f]; reflexivity.
Qed.

Lemma sent_relay (socket : string) (ev : SocketEvent) (w : World) :
  sent (relay socket ev w) = sent w ++ sends socket ev w.
Proof.
  destruct ev as [|rc|rc stroke|rc img|rc|]; unfold relay, sends.
  - apply eq_sym, app_nil_r.
  - apply sent_on_join_room.
  - now rewrite on_drawing_data_eq.
  - apply sent_on_canvas_data.
  - apply sent_on_clear_canvas.
  - apply eq_sym, app_nil_r.
Qed.

Lemma sent_run_events (evs : list (string * SocketEvent)) :
  ∀ w, ∃ new, sent (run_events evs w) = sent w ++ new.
Proof.
  induction evs as [|[s ev] evs IH]; intros w; simpl.
  - exists []. now rewrite app_nil_r.
  - destruct (IH (relay s ev w)) as [new Hnew].
    exists (sends s ev w ++ new). now rewrite Hnew, sent_relay, app_assoc.
Qed.

(** ** Relaying strokes *)

(** C3. When a connection sends drawing-data for room R, every other
    connection currently in R receives one drawing-data message carrying
    the seven fields of the event unchanged, nobody else receives
    anything, the sender receives nothing (no echo), and the collection is
    neither read nor written. *)
Theorem drawing_data_forwarded_verbatim
    (socket roomCode : string) (stroke : Stroke) (w : World) :
  let w' := on_drawing_data socket roomCode stroke w in
  (∀ peer msg,
      (peer, msg) ∈ emitted w w'
      ↔ peer ∈ room_members w (toUpperCase roomCode) ∧ peer ≠ socket
        ∧ msg = DrawingData stroke)
  ∧ NoDup (emitted w w')
  ∧ (∀ msg, (socket, msg) ∉ emitted w w')
  ∧ docs w' = docs w ∧ faults w' = faults w
  ∧ rooms w' = rooms w ∧ errors w' = errors w.
Proof.
  intros w'. subst w'. rewrite on_drawing_data_eq.
  assert (Hnew : emitted w
            (add_sent (broadcast w socket (toUpperCase roomCode) (DrawingData stroke)) w)
          = broadcast w socket (toUpperCase roomCode) (DrawingData stroke))
    by (apply emitted_app; reflexivity).
  rewrite Hnew. split; [| split; [| split]].
  - intros peer msg. apply elem_of_broadcast.
  - apply NoDup_broadcast.
  - intros msg Hin%elem_of_broadcast. tauto.
  - repeat split; reflexivity.
Qed.

(** The scenario of the specification: A and B are in the room, A sends a
    stroke, B receives exactly that stroke and A receives nothing. *)
Example two_peers_stroke :
  emitted (run_events two_peers empty_world)
    (on_drawing_data "A" "Room1" pen_stroke (run_events two_peers empty_world))
  = [("B", DrawingData pen_stroke)].
Proof. vm_compute. reflexivity. Qed.

(** ** Persistence does not reach the clients *)

(** C6. For a canvas-data and for a clear-canvas message, the messages
    sent are the broadcast to the other sockets of the room and nothing
    else, whatever the collection holds (a room with that code or none)
    and whatever the outcome of the write that follows (it goes through
    or it rejects): they depend on the sockets' rooms only.  When the write
    rejects, the error goes to [console.error], nothing is written and no
    client is told. *)
Theorem broadcast_regardless_of_persistence
    (socket roomCode imageData : string) (w : World)
    (ds : list Room) (fs : list (option string)) (e : string) :
  let any := set_faults fs (set_docs (λ _, ds) w) in
  let failing := set_faults (Some e :: fs) (set_docs (λ _, ds) w) in
  emitted any (on_canvas_data socket roomCode imageData any)
    = broadcast w socket (toUpperCase roomCode) (CanvasData imageData)
  ∧ emitted any (on_clear_canvas socket roomCode any)
    = broadcast w socket (toUpperCase roomCode) ClearCanvas
  ∧ errors (on_canvas_data socket roomCode imageData failing)
    = errors w ++ [CanvasDataError e]
  ∧ errors (on_clear_canvas socket roomCode failing)
    = errors w ++ [ClearCanvasError e]
  ∧ docs (on_canvas_data socket roomCode imageData failing) = ds
  ∧ docs (on_clear_canvas socket roomCode failing) = ds.
Proof.
  intros any failing. subst any failing.
  split; [| split].
  - apply emitted_app. rewrite sent_on_canvas_data. reflexivity.
  - apply emitted_app. rewrite sent_on_clear_canvas. reflexivity.
  - rewrite on_canvas_data_eq, on_clear_canvas_eq.
    destruct w as [r d f k s er]. repeat split; reflexivity.
Qed.

(** ** Room codes of the socket events *)

(** Two sockets, two rooms: a socket that joins with the code " abc123 "
    is registered in the room " ABC123 ", spaces included, and not in the
    room of the trimmed and upper-cased code, where a socket joining with
    "ABC123" is alone. *)
Lemma join_room_keeps_spaces :
  room_members (run_events padded_join empty_world) " ABC123 " = {["A"]}
  ∧ room_members (run_events padded_join empty_world) (toUpperCase (trim " abc123 "))
    = {["B"]}.
Proof. split; vm_compute; reflexivity. Qed.

(** C1, the failing input.  Room ABC123 is in the collection, with a
    snapshot.  Verify-room trims and upper-cases the code " abc123 " and
    finds the room (200).  Join-room with the same code only upper-cases
    it: the socket is registered in the room " ABC123 ", spaces included,
    it is not in the room of the trimmed and upper-cased code, and it is
    not sent the snapshot, which a join with "abc123" is sent. *)
Theorem padded_code_is_verified_but_joins_another_room :
  fst (verify_room "u2" (Some " abc123 ") abc_room)
  = Ok (mkResponse 200 (RoomFound "Team Sync" "ABC123" 2 "Room found successfully"))
  ∧ room_members (on_join_room "A" " abc123 " abc_room) " ABC123 " = {["A"]}
  ∧ room_members (on_join_room "A" " abc123 " abc_room) (toUpperCase (trim " abc123 "))
    = ∅
  ∧ emitted abc_room (on_join_room "A" " abc123 " abc_room) = []
  ∧ emitted abc_room (on_join_room "A" "abc123" abc_room) = [("A", CanvasData "X")].
Proof. repeat split; vm_compute; reflexivity. Qed.

(** What the socket handlers take as room name.  The join-room handler
    registers the socket in the room named by the upper-cased raw code
    and looks the snapshot up under that same name; drawing-data,
    canvas-data and clear-canvas broadcast to the room named by their
    upper-cased code.  So two joins whose codes differ in case only land
    in the same room. *)
Theorem join_room_registers_uppercase
    (socket other roomCode otherCode : string) (stroke : Stroke)
    (imageData : string) (w : World) :
  let w' := on_join_room socket roomCode w in
  rooms w' = joined socket (toUpperCase roomCode) (rooms w)
  ∧ socket ∈ room_members w' (toUpperCase roomCode)
  ∧ emitted w w' =
      match faults w with
      | Some _ :: _ => []
      | _ =>
          match List.find (has_code (toUpperCase roomCode)) (docs w) with
          | Some room =>
              if truthy (canvasData room)
              then [(socket, CanvasData (default "" (canvasData room)))]
              else []
          | None => []
          end
      end
  ∧ (toUpperCase otherCode = toUpperCase roomCode →
     socket ∈ room_members (on_join_room other otherCode w') (toUpperCase roomCode)
     ∧ other ∈ room_members (on_join_room other otherCode w') (toUpperCase roomCode))
  ∧ emitted w' (on_drawing_data other otherCode stroke w')
    = broadcast w' other (toUpperCase otherCode) (DrawingData stroke)
  ∧ emitted w' (on_canvas_data other otherCode imageData w')
    = broadcast w' other (toUpperCase otherCode) (CanvasData imageData)
  ∧ emitted w' (on_clear_canvas other otherCode w')
    = broadcast w' other (toUpperCase otherCode) ClearCanvas.
Proof.
  intros w'. subst w'.
  split; [apply rooms_on_join_room |].
  split; [apply elem_of_on_join_room; now left |].
  split; [apply emitted_app, sent_on_join_room |].
  split; [| split; [| split]].
  - intros Heq. split; apply elem_of_on_join_room.
    + right. apply elem_of_on_join_room. now left.
    + left. now split.
  - apply emitted_app. now rewrite on_drawing_data_eq.
  - apply emitted_app, sent_on_canvas_data.
  - apply emitted_app, sent_on_clear_canvas.
Qed.

(** ** Who is in which room *)

Lemma elem_of_relay (s : string) (ev : SocketEvent) (w : World) (peer r : string) :
  peer ∈ room_members (relay s ev w) r →
  peer ∈ room_members w r
  ∨ (peer = s ∧ ev = Connection ∧ r = s)
  ∨ (peer = s ∧ ∃ roomCode, ev = JoinRoom roomCode ∧ r = toUpperCase roomCode).
Proof.
  destruct ev as [|rc|rc stroke|rc img|rc|]; unfold relay.
  - rewrite on_connection_eq. intros [[-> ->]|H]%elem_of_joined; [right; left | left]; auto.
  - intros [[-> ->]|H]%elem_of_on_join_room; [right; right | left]; eauto.
  - rewrite on_drawing_data_eq. auto.
  - rewrite (room_members_rooms w); [auto | apply rooms_on_canvas_data].
  - rewrite (room_members_rooms w); [auto | apply rooms_on_clear_canvas].
  - rewrite on_disconnect_eq. intros [H _]%elem_of_left. auto.
Qed.

Lemma never_joined_rooms (socket : string) (evs : list (string * SocketEvent)) :
  never_joined socket evs = true →
  ∀ w room,
    socket ∈ room_members (run_events evs w) room →
    socket ∈ room_members w room ∨ room = socket.
Proof.
  induction evs as [|[s ev] evs IH]; simpl; intros Hnever w room Hin; [now left |].
  apply andb_true_iff in Hnever as [Hhead Hrest].
  destruct (IH Hrest _ _ Hin) as [Hstep|Hown]; [| now right].
  destruct (elem_of_relay _ _ _ _ _ Hstep) as [Hw|[(-> & _ & ->)|(-> & rc & -> & _)]].
  - now left.
  - now right.
  - simpl in Hhead. rewrite String.eqb_refl in Hhead. discriminate.
Qed.

Lemma room_members_empty_world (room : string) : room_members empty_world room = ∅.
Proof. reflexivity. Qed.

Lemma broadcast_nil (w : World) (socket room : string) (msg : ServerMsg) :
  broadcast w socket room msg = [] ↔ room_members w room ∖ {[socket]} = ∅.
Proof.
  unfold broadcast. split.
  - intros H%fmap_nil_inv. now apply elements_empty_inv, leibniz_equiv in H.
  - intros ->. now rewrite elements_empty.
Qed.

(** C7, what fails: socket A has joined no room and sends drawing-data
    for the room socket B is in; B receives the stroke. *)
Lemma drawing_data_from_outside_is_delivered :
  never_joined "A" lurker = true
  ∧ emitted (run_events lurker empty_world)
      (on_drawing_data "A" "room1" pen_stroke (run_events lurker empty_world))
    = [("B", DrawingData pen_stroke)].
Proof. split; vm_compute; reflexivity. Qed.

(** C7, as amended.  A connection that has never joined any room is in
    no room but the one of its own id; when it sends drawing-data, no
    state changes, and the stroke goes to every other connection of the
    room the message names (upper-cased): no connection receives anything
    exactly when that room has no other connection. *)
Theorem drawing_data_without_join
    (evs : list (string * SocketEvent)) (socket roomCode : string) (stroke : Stroke) :
  never_joined socket evs = true →
  let w := run_events evs empty_world in
  let w' := on_drawing_data socket roomCode stroke w in
  (∀ room, socket ∈ room_members w room → room = socket)
  ∧ rooms w' = rooms w ∧ docs w' = docs w ∧ faults w' = faults w
  ∧ errors w' = errors w
  ∧ emitted w w' = broadcast w socket (toUpperCase roomCode) (DrawingData stroke)
  ∧ (emitted w w' = [] ↔ room_members w (toUpperCase roomCode) ∖ {[socket]} = ∅).
Proof.
  intros Hnever w w'. subst w w'. rewrite on_drawing_data_eq.
  set (w := run_events evs empty_world).
  assert (Hnew : emitted w
            (add_sent (broadcast w socket (toUpperCase roomCode) (DrawingData stroke)) w)
          = broadcast w socket (toUpperCase roomCode) (DrawingData stroke))
    by (apply emitted_app; reflexivity).
  rewrite Hnew. split; [| repeat split; try reflexivity].
  - intros room Hin.
    destruct (never_joined_rooms socket evs Hnever empty_world room Hin) as [H|H];
      [| assumption].
    rewrite room_members_empty_world in H. set_solver.
  - apply broadcast_nil.
  - apply broadcast_nil.
Qed.

Lemma drawing_data_without_join_witness :
  (∀ room, "A" ∈ room_members (run_events lurker empty_world) room → room = "A")
  ∧ rooms (on_drawing_data "A" "room1" pen_stroke (run_events lurker empty_world))
    = rooms (run_events lurker empty_world)
  ∧ docs (on_drawing_data "A" "room1" pen_stroke (run_events lurker empty_world))
    = docs (run_events lurker empty_world)
  ∧ faults (on_drawing_data "A" "room1" pen_stroke (run_events lurker empty_world))
    = faults (run_events lurker empty_world)
  ∧ errors (on_drawing_data "A" "room1" pen_stroke (run_events lurker empty_world))
    = errors (run_events lurker empty_world)
  ∧ emitted (run_events lurker empty_world)
      (on_drawing_data "A" "room1" pen_stroke (run_events lurker empty_world))
    = broadcast (run_events lurker empty_world) "A" (toUpperCase "room1")
        (DrawingData pen_stroke)
  ∧ (emitted (run_events lurker empty_world)
       (on_drawing_data "A" "room1" pen_stroke (run_events lurker empty_world)) = []
     ↔ room_members (run_events lurker empty_world) (toUpperCase "room1") ∖ {["A"]} = ∅).
Proof.
  apply (drawing_data_without_join lurker "A" "room1" pen_stroke).
  vm_compute. reflexivity.
Defined.

(** ** Disconnecting *)

Lemma emitted_run_events_cons (s : string) (ev : SocketEvent)
    (evs : list (string * SocketEvent)) (w : World) :
  emitted w (run_events ((s, ev) :: evs) w)
  = sends s ev w ++ emitted (relay s ev w) (run_events evs (relay s ev w)).
Proof.
  simpl. destruct (sent_run_events evs (relay s ev w)) as [new Hnew].
  rewrite (emitted_app _ _ _ Hnew).
  apply emitted_app. now rewrite Hnew, sent_relay, app_assoc.
Qed.

Lemma outsider_stays_out (socket s : string) (ev : SocketEvent) (w : World) :
  s ≠ socket →
  (∀ room, socket ∉ room_members w room) →
  ∀ room, socket ∉ room_members (relay s ev w) room.
Proof.
  intros Hne Hout room Hin.
  destruct (elem_of_relay _ _ _ _ _ Hin) as [Hw|[(-> & _)|(-> & _)]].
  - exact (Hout room Hw).
  - now apply Hne.
  - now apply Hne.
Qed.

Lemma outsider_receives_nothing (socket s : string) (ev : SocketEvent) (w : World) :
  s ≠ socket →
  (∀ room, socket ∉ room_members w room) →
  ∀ msg, (socket, msg) ∉ sends s ev w.
Proof.
  intros Hne Hout msg.
  destruct ev as [|rc|rc stroke|rc img|rc|]; unfold sends.
  - apply not_elem_of_nil.
  - destruct (faults w) as [|[m|] f];
      try apply not_elem_of_nil;
      (destruct (List.find _ (docs w)) as [room|]; [destruct (truthy _) |]);
      try apply not_elem_of_nil;
      intros [= <- _]%list_elem_of_singleton; now apply Hne.
  - intros [Hin _]%elem_of_broadcast. exact (Hout _ Hin).
  - intros [Hin _]%elem_of_broadcast. exact (Hout _ Hin).
  - intros [Hin _]%elem_of_broadcast. exact (Hout _ Hin).
  - apply not_elem_of_nil.
Qed.

Lemma silent_receives_nothing (socket : string) (evs : list (string * SocketEvent)) :
  silent socket evs = true →
  ∀ w, (∀ room, socket ∉ room_members w room) →
       ∀ msg, (socket, msg) ∉ emitted w (run_events evs w).
Proof.
  induction evs as [|[s ev] evs IH]; intros Hsilent w Hout msg.
  - simpl. rewrite emitted_same by reflexivity. apply not_elem_of_nil.
  - simpl in Hsilent. apply andb_true_iff in Hsilent as [Hs Hrest].
    assert (Hne : s ≠ socket).
    { intros ->. rewrite String.eqb_refl in Hs. discriminate. }
    rewrite emitted_run_events_cons. intros [Hin|Hin]%elem_of_app.
    + exact (outsider_receives_nothing socket s ev w Hne Hout msg Hin).
    + exact (IH Hrest _ (outsider_stays_out socket s ev w Hne Hout) msg Hin).
Qed.

(** C8. When a connection disconnects it is removed from every room of
    the registry and the other connections stay where they were; no
    message is sent to anyone, and the collection is neither read nor
    written.  Whatever the other connections do afterwards, the
    disconnected one receives nothing. *)
Theorem disconnect_leaves_quietly
    (socket : string) (w : World) (evs : list (string * SocketEvent)) :
  silent socket evs = true →
  let w' := on_disconnect socket w in
  (∀ room, socket ∉ room_members w' room)
  ∧ (∀ room peer, peer ≠ socket →
       (peer ∈ room_members w' room ↔ peer ∈ room_members w room))
  ∧ sent w' = sent w ∧ emitted w w' = []
  ∧ docs w' = docs w ∧ faults w' = faults w ∧ errors w' = errors w
  ∧ (∀ msg, (socket, msg) ∉ emitted w' (run_events evs w')).
Proof.
  intros Hsilent w'. subst w'. rewrite on_disconnect_eq.
  assert (Hout : ∀ room, socket ∉ room_members (set_rooms (omap (without socket)) w) room).
  { intros room [_ Hne]%elem_of_left. now apply Hne. }
  split; [exact Hout |].
  split.
  { intros room peer Hne. rewrite elem_of_left. tauto. }
  split; [reflexivity |].
  split; [now apply emitted_same |].
  split; [reflexivity |]. split; [reflexivity |]. split; [reflexivity |].
  now apply silent_receives_nothing.
Qed.

Lemma disconnect_leaves_quietly_witness :
  (∀ room, "B" ∉ room_members (on_disconnect "B" (run_events lurker empty_world)) room)
  ∧ (∀ room peer, peer ≠ "B" →
       (peer ∈ room_members (on_disconnect "B" (run_events lurker empty_world)) room
        ↔ peer ∈ room_members (run_events lurker empty_world) room))
  ∧ sent (on_disconnect "B" (run_events lurker empty_world))
    = sent (run_events lurker empty_world)
  ∧ emitted (run_events lurker empty_world)
      (on_disconnect "B" (run_events lurker empty_world)) = []
  ∧ docs (on_disconnect "B" (run_events lurker empty_world))
    = docs (run_events lurker empty_world)
  ∧ faults (on_disconnect "B" (run_events lurker empty_world))
    = faults (run_events lurker empty_world)
  ∧ errors (on_disconnect "B" (run_events lurker empty_world))
    = errors (run_events lurker empty_world)
  ∧ (∀ msg, ("B", msg) ∉ emitted (on_disconnect "B" (run_events lurker empty_world))
       (run_events [("A", JoinRoom "room1"); ("A", DrawingDataIn "ROOM1" pen_stroke)]
          (on_disconnect "B" (run_events lurker empty_world)))).
Proof.
  apply (disconnect_leaves_quietly "B" (run_events lurker empty_world)
           [("A", JoinRoom "room1"); ("A", DrawingDataIn "ROOM1" pen_stroke)]).
  vm_compute. reflexivity.
Defined.

(** ** Snapshots *)

Lemma find_update_first (q : string) (f : Room → Room) (ds : list Room) :
  (∀ r, code (f r) = code r) →
  List.find (has_code q) (update_first q f ds) = f <$> List.find (has_code q) ds.
Proof.
  intros Hcode. induction ds as [|r ds IH]; simpl; [reflexivity |].
  destruct (has_code q r) eqn:Hr; simpl.
  - unfold has_code in *. now rewrite Hcode, Hr.
  - now rewrite Hr.
Qed.

Lemma docs_relay_no_sync (s : string) (ev : SocketEvent) (w : World) :
  is_sync ev = false → docs (relay s ev w) = docs w.
Proof.
  destruct ev as [|rc|rc stroke|rc img|rc|]; try discriminate;
    intros _; unfold relay.
  - reflexivity.
  - apply docs_on_join_room.
  - now rewrite on_drawing_data_eq.
  - reflexivity.
Qed.

Lemma faults_relay_nil (s : string) (ev : SocketEvent) (w : World) :
  faults w = [] → faults (relay s ev w) = [].
Proof.
  intros Hf. destruct ev as [|rc|rc stroke|rc img|rc|]; unfold relay.
  - exact Hf.
  - now rewrite faults_on_join_room, Hf.
  - now rewrite on_drawing_data_eq.
  - rewrite on_canvas_data_eq. destruct w as [r d f k s' e]. simpl in *. now subst f.
  - rewrite on_clear_canvas_eq. destruct w as [r d f k s' e]. simpl in *. now subst f.
  - exact Hf.
Qed.

Lemma run_events_no_sync (evs : list (string * SocketEvent)) :
  no_sync evs = true →
  ∀ w, faults w = [] →
       docs (run_events evs w) = docs w ∧ faults (run_events evs w) = [].
Proof.
  induction evs as [|[s ev] evs IH]; simpl; intros Hno w Hf; [now split |].
  apply andb_true_iff in Hno as [Hev Hrest]. apply negb_true_iff in Hev.
  destruct (IH Hrest (relay s ev w) (faults_relay_nil s ev w Hf)) as [Hd Hf'].
  split; [| assumption]. now rewrite Hd, docs_relay_no_sync.
Qed.

Lemma truthy_Some (s : string) : s ≠ "" → truthy (Some s) = true.
Proof. destruct s; simpl; congruence. Qed.

(** C2. Let room R be in the collection and let the writes go through.
    After a canvas-data message for R with a non-empty imageData X, a
    connection that joins R (at once, or after any events that write no
    snapshot) receives one message: canvas-data with imageData X, sent to
    it alone.  After a clear-canvas message for R, a connection that joins
    R receives no message. *)
Theorem snapshot_sent_to_late_joiner
    (sender joiner R imageData : string) (w : World)
    (evs : list (string * SocketEvent)) :
  faults w = [] →
  present (List.find (has_code (toUpperCase R)) (docs w)) = true →
  imageData ≠ "" →
  no_sync evs = true →
  let synced := run_events evs (on_canvas_data sender R imageData w) in
  let cleared := run_events evs (on_clear_canvas sender R w) in
  emitted synced (on_join_room joiner R synced) = [(joiner, CanvasData imageData)]
  ∧ emitted cleared (on_join_room joiner R cleared) = [].
Proof.
  intros Hf Hroom Himg Hno synced cleared.
  destruct (List.find (has_code (toUpperCase R)) (docs w)) as [room|] eqn:Hfind;
    [clear Hroom | discriminate].
  assert (Hsync : docs synced
            = update_first (toUpperCase R) (set_canvasData (Some imageData)) (docs w)
            ∧ faults synced = []).
  { subst synced.
    destruct (run_events_no_sync evs Hno (on_canvas_data sender R imageData w)) as [Hd Hf'].
    - rewrite on_canvas_data_eq. destruct w as [r d f k s e]. simpl in *. now subst f.
    - split; [| assumption]. rewrite Hd, on_canvas_data_eq.
      destruct w as [r d f k s e]. simpl in *. now subst f. }
  assert (Hclear : docs cleared
            = update_first (toUpperCase R) (set_canvasData (Some "")) (docs w)
            ∧ faults cleared = []).
  { subst cleared.
    destruct (run_events_no_sync evs Hno (on_clear_canvas sender R w)) as [Hd Hf'].
    - rewrite on_clear_canvas_eq. destruct w as [r d f k s e]. simpl in *. now subst f.
    - split; [| assumption]. rewrite Hd, on_clear_canvas_eq.
      destruct w as [r d f k s e]. simpl in *. now subst f. }
  destruct Hsync as [Hsd Hsf]. destruct Hclear as [Hcd Hcf].
  split; apply emitted_app; rewrite sent_on_join_room.
  - rewrite Hsf, Hsd, find_update_first, Hfind by reflexivity.
    cbn [fmap option_fmap option_map set_canvasData canvasData].
    now rewrite truthy_Some.
  - rewrite Hcf, Hcd, find_update_first, Hfind by reflexivity. reflexivity.
Qed.

Lemma snapshot_sent_to_late_joiner_witness :
  emitted
    (run_events [("B", Connection); ("B", DrawingDataIn "room1" pen_stroke)]
       (on_canvas_data "A" "room1" "X" one_room))
    (on_join_room "C" "room1"
       (run_events [("B", Connection); ("B", DrawingDataIn "room1" pen_stroke)]
          (on_canvas_data "A" "room1" "X" one_room)))
  = [("C", CanvasData "X")]
  ∧ emitted
      (run_events [("B", Connection); ("B", DrawingDataIn "room1" pen_stroke)]
         (on_clear_canvas "A" "room1" one_room))
      (on_join_room "C" "room1"
         (run_events [("B", Connection); ("B", DrawingDataIn "room1" pen_stroke)]
            (on_clear_canvas "A" "room1" one_room)))
    = [].
Proof.
  apply (snapshot_sent_to_late_joiner "A" "C" "room1" "X" one_room
           [("B", Connection); ("B", DrawingDataIn "room1" pen_stroke)]).
  - reflexivity.
  - vm_compute. reflexivity.
  - discriminate.
  - reflexivity.
Defined.

(** ** Allocation of a room code *)

Lemma genRoomCodeM_eq (random : nat → Q) (w : World) :
  genRoomCodeM random w
  = (Ok (fst (genRoomCode random (draws w))), set_draws (draws w + 6) w).
Proof.
  unfold genRoomCodeM. pose proof (genRoomCode_draws random (draws w)) as Hk.
  destruct (genRoomCode random (draws w)) as [result k]. simpl in *. now subst k.
Qed.

Lemma generate_unique_eq (random : nat → Q) (fuel attempts : nat) (w : World) :
  generate_unique random (S fuel) attempts w =
    let code := fst (genRoomCode random (draws w)) in
    let w1 := set_draws (draws w + 6) w in
    match faults w with
    | Some e :: fs => (Throw e, set_faults fs w1)
    | fs =>
        let w2 := set_docs (λ _, docs w) (set_faults (tail fs) w1) in
        let existingRoom := List.find (has_code (toUpperCase code)) (docs w) in
        if present existingRoom && (S attempts <? 10)%nat
        then generate_unique random fuel (S attempts) w2
        else (Ok (code, existingRoom, S attempts), w2)
    end.
Proof.
  cbn [generate_unique]. unfold mbind at 1, M_bind at 1.
  rewrite genRoomCodeM_eq.
  destruct w as [r d f k s e]. destruct f as [|[m|] f]; run_handler;
    try reflexivity;
    destruct (present _ && _); reflexivity.
Qed.

Lemma generate_unique_frame (random : nat → Q) (fuel : nat) :
  ∀ attempts w,
    let w' := snd (generate_unique random fuel attempts w) in
    rooms w' = rooms w ∧ docs w' = docs w ∧ sent w' = sent w ∧ errors w' = errors w.
Proof.
  induction fuel as [|fuel IH]; intros attempts w; [simpl; auto |].
  cbv zeta. rewrite generate_unique_eq. cbv zeta.
  destruct w as [r d f k s e]. destruct f as [|[m|] f]; cbn [faults];
    try (simpl; auto; fail);
    (destruct (present _ && _); [| simpl; auto]);
    match goal with |- context [generate_unique random fuel ?a ?w0] =>
      destruct (IH a w0) as (Hr & Hd & Hs & He) end;
    rewrite Hr, Hd, Hs, He; simpl; auto.
Qed.

Lemma candidate_next (random : nat → Q) (r : gmap string (gset string)) (d : list Room)
    (f : list (option string)) (k : nat) (s : list (string * ServerMsg))
    (e : list ErrorLine) (j : nat) :
  candidate random (mkWorld r d f (k + 6) s e) j = candidate random (mkWorld r d f k s e) (S j).
Proof. unfold candidate. cbn [draws]. f_equal. f_equal. lia. Qed.

Lemma collides_next (random : nat → Q) (r : gmap string (gset string)) (d : list Room)
    (f : list (option string)) (k : nat) (s : list (string * ServerMsg))
    (e : list ErrorLine) (j : nat) :
  collides random (mkWorld r d f (k + 6) s e) j = collides random (mkWorld r d f k s e) (S j).
Proof. unfold collides. now rewrite candidate_next. Qed.

(** With no fault scheduled, the loop started at [attempts] below 10 ends
    after [n] iterations, [n] at most [10 - attempts]: all candidates but
    the last collide, and the last one is free or the budget is spent. *)
Lemma generate_unique_spec (random : nat → Q) (fuel : nat) :
  ∀ (attempts : nat) (r : gmap string (gset string)) (d : list Room) (k : nat)
    (s : list (string * ServerMsg)) (e : list ErrorLine),
    (attempts < 10)%nat → (10 - attempts ≤ fuel)%nat →
    let w := mkWorld r d [] k s e in
    ∃ n, (1 ≤ n)%nat ∧ (attempts + n ≤ 10)%nat
      ∧ (∀ j, (j < n - 1)%nat → collides random w j = true)
      ∧ (collides random w (n - 1) = true → attempts + n = 10)
      ∧ generate_unique random fuel attempts w
        = (Ok (candidate random w (n - 1),
               List.find (has_code (toUpperCase (candidate random w (n - 1)))) d,
               attempts + n),
           mkWorld r d [] (k + 6 * n) s e).
Proof.
  induction fuel as [|fuel IH]; intros attempts r d k s e Hlt Hfuel w; [lia |].
  subst w. rewrite generate_unique_eq. cbv zeta. cbn [faults docs draws tail].
  set (w := mkWorld r d [] k s e).
  assert (Hc0 : fst (genRoomCode random k) = candidate random w 0).
  { unfold candidate, w. cbn [draws]. f_equal. f_equal. lia. }
  destruct (present (List.find (has_code (toUpperCase (fst (genRoomCode random k)))) d)
            && (S attempts <? 10)%nat) eqn:Hgo.
  - apply andb_true_iff in Hgo as [Hhit Hmore]. apply Nat.ltb_lt in Hmore.
    destruct (IH (S attempts) r d (k + 6) s e Hmore ltac:(lia))
      as (n & Hn1 & Hn10 & Hbefore & Hlast & Hrun).
    exists (S n). split; [lia |]. split; [lia |].
    replace (S n - 1) with (S (n - 1)) by lia.
    split; [| split].
    + intros [|j] Hj.
      * unfold collides. now rewrite <- Hc0.
      * subst w. rewrite <- collides_next. apply Hbefore. lia.
    + subst w. rewrite <- collides_next. intros H. specialize (Hlast H). lia.
    + unfold set_docs, set_faults, set_draws, w. simpl. rewrite Hrun.
      rewrite candidate_next.
      replace (S attempts + n) with (attempts + S n) by lia.
      replace (k + 6 + 6 * n) with (k + 6 * S n) by lia. reflexivity.
  - exists 1. split; [lia |]. split; [lia |]. simpl.
    split; [intros j Hj; lia |]. split.
    + unfold collides. rewrite <- Hc0. unfold w. cbn [docs]. intros Hhit.
      rewrite Hhit in Hgo. cbn [andb] in Hgo. apply Nat.ltb_ge in Hgo. lia.
    + rewrite <- Hc0. unfold set_docs, set_faults, set_draws, w. simpl.
      replace (attempts + 1) with (S attempts) by lia. reflexivity.
Qed.

(** ** Creating a room *)

Lemma existsb_find {A} (p : A → bool) (l : list A) :
  existsb p l = present (List.find p l).
Proof. induction l as [|x l IH]; simpl; [reflexivity |]. now destruct (p x). Qed.

Lemma trim_nonempty (s : string) : trim s ≠ "" → s ≠ "".
Proof. intros H ->. now apply H. Qed.

Lemma valid_name (s : string) :
  trim s ≠ "" → negb (truthy (Some s)) || negb (truthy (trim <$> Some s)) = false.
Proof.
  intros H. cbn [fmap option_fmap option_map].
  rewrite (truthy_Some _ H), (truthy_Some _ (trim_nonempty _ H)). reflexivity.
Qed.

Lemma invalid_name (roomName : option string) :
  roomName = None ∨ (∃ s, roomName = Some s ∧ blank s = true) →
  negb (truthy roomName) || negb (truthy (trim <$> roomName)) = true.
Proof.
  intros [->|(s & -> & Hblank)]; [reflexivity |].
  cbn [fmap option_fmap option_map]. rewrite (trim_blank _ Hblank).
  apply orb_true_r.
Qed.

(** C4. With a collection that answers, the allocation of create-room
    calls the generator [n] times, [n] between 1 and 10, and looks each
    candidate up, upper-cased, in the collection: every candidate before
    the last is taken.  If the last one is free, it is the code of the
    room created and returned, and no room of the collection had it; if
    it is taken too, then [n] is 10, the response is the server error
    "Failed to generate unique room code" and no room is created. *)
Theorem create_room_allocates_code
    (random : nat → Q) (userId roomName : string) (w : World) :
  faults w = [] →
  trim roomName ≠ "" →
  ∃ n, (1 ≤ n ≤ 10)%nat
    ∧ draws (snd (create_room random userId (Some roomName) w)) = draws w + 6 * n
    ∧ (∀ j, (j < n - 1)%nat → collides random w j = true)
    ∧ if collides random w (n - 1)
      then n = 10
        ∧ fst (create_room random userId (Some roomName) w)
          = Ok (mkResponse 500 (ErrorBody "Failed to generate unique room code" None))
        ∧ docs (snd (create_room random userId (Some roomName) w)) = docs w
      else List.find (has_code (toUpperCase (candidate random w (n - 1)))) (docs w) = None
        ∧ fst (create_room random userId (Some roomName) w)
          = Ok (mkResponse 201
                  (RoomCreated (toUpperCase (candidate random w (n - 1)))
                     (trim roomName) "Room created successfully"))
        ∧ docs (snd (create_room random userId (Some roomName) w))
          = docs w ++ [mkRoom (toUpperCase (candidate random w (n - 1)))
                         (trim roomName) userId [userId] None].
Proof.
  intros Hf Hname. destruct w as [r d f k s e]. simpl in Hf. subst f.
  destruct (generate_unique_spec random 10 0 r d k s e ltac:(lia) ltac:(lia))
    as (n & Hn1 & Hn10 & Hbefore & Hlast & Hrun).
  cbv zeta in Hbefore, Hlast, Hrun.
  set (w := mkWorld r d [] k s e) in *.
  set (c := candidate random w (n - 1)) in *.
  assert (Hcr : create_room random userId (Some roomName) w =
            match List.find (has_code (toUpperCase c)) d with
            | Some _ =>
                (Ok (mkResponse 500 (ErrorBody "Failed to generate unique room code" None)),
                 mkWorld r d [] (k + 6 * n) s e)
            | None =>
                (Ok (mkResponse 201
                       (RoomCreated (toUpperCase c) (trim roomName)
                          "Room created successfully")),
                 mkWorld r (d ++ [mkRoom (toUpperCase c) (trim roomName) userId [userId] None])
                   [] (k + 6 * n) s e)
            end).
  { unfold create_room. rewrite (valid_name _ Hname).
    unfold try_catch, mbind at 1, M_bind at 1. rewrite Hrun.
    destruct (List.find (has_code (toUpperCase c)) d) as [room|] eqn:Hfind;
      cbn [present default]; [reflexivity |].
    run_handler. rewrite existsb_find. cbn [code]. rewrite Hfind. reflexivity. }
  exists n. split; [lia |]. rewrite Hcr. clear Hcr.
  unfold collides in *. cbn [docs w draws] in *. fold c.
  destruct (List.find (has_code (toUpperCase c)) d) as [room|] eqn:Hfind;
    cbn [present fst snd docs draws].
  - split; [reflexivity |]. split; [exact Hbefore |].
    split; [apply Hlast; fold c; now rewrite Hfind |]. split; reflexivity.
  - split; [reflexivity |]. split; [exact Hbefore |]. repeat split; reflexivity.
Qed.

Lemma create_room_allocates_code_witness :
  ∃ n, (1 ≤ n ≤ 10)%nat
    ∧ draws (snd (create_room stuck "u1" (Some "Team Sync") taken)) = draws taken + 6 * n
    ∧ (∀ j, (j < n - 1)%nat → collides stuck taken j = true)
    ∧ if collides stuck taken (n - 1)
      then n = 10
        ∧ fst (create_room stuck "u1" (Some "Team Sync") taken)
          = Ok (mkResponse 500 (ErrorBody "Failed to generate unique room code" None))
        ∧ docs (snd (create_room stuck "u1" (Some "Team Sync") taken)) = docs taken
      else List.find (has_code (toUpperCase (candidate stuck taken (n - 1)))) (docs taken)
           = None
        ∧ fst (create_room stuck "u1" (Some "Team Sync") taken)
          = Ok (mkResponse 201
                  (RoomCreated (toUpperCase (candidate stuck taken (n - 1)))
                     (trim "Team Sync") "Room created successfully"))
        ∧ docs (snd (create_room stuck "u1" (Some "Team Sync") taken))
          = docs taken ++ [mkRoom (toUpperCase (candidate stuck taken (n - 1)))
                             (trim "Team Sync") "u1" ["u1"] None].
Proof.
  apply (create_room_allocates_code stuck "u1" "Team Sync" taken).
  - reflexivity.
  - vm_compute. discriminate.
Defined.

(** Ten colliding attempts: sixty draws, the server error, no room. *)
Example create_room_exhausted :
  create_room stuck "u1" (Some "Team Sync") taken
  = (Ok (mkResponse 500 (ErrorBody "Failed to generate unique room code" None)),
     mkWorld ∅ [mkRoom "AAAAAA" "Old room" "u0" ["u0"] None] [] 60 [] []).
Proof. vm_compute. reflexivity. Qed.

(** A free code at the first attempt: six draws and the room is there. *)
Example create_room_first_attempt :
  create_room stuck "u1" (Some "  Team Sync ") empty_world
  = (Ok (mkResponse 201 (RoomCreated "AAAAAA" "Team Sync" "Room created successfully")),
     mkWorld ∅ [mkRoom "AAAAAA" "Team Sync" "u1" ["u1"] None] [] 6 [] []).
Proof. vm_compute. reflexivity. Qed.

Lemma trimEnd_empty (s : string) : trimEnd s = "" → blank s = true.
Proof.
  unfold blank. induction s as [|c s IH]; [reflexivity |].
  cbn [trimEnd chars_of forallb]. cbv zeta.
  destruct (is_space c); cbn [andb]; [| discriminate].
  destruct (is_empty (trimEnd s)) eqn:He; [| discriminate].
  intros _. apply IH. now apply is_empty_true.
Qed.

Lemma blank_trimStart (s : string) : blank (trimStart s) = blank s.
Proof.
  unfold blank. induction s as [|c s IH]; [reflexivity |].
  cbn [trimStart]. destruct (is_space c) eqn:Hc.
  - rewrite IH. cbn [chars_of forallb]. now rewrite Hc.
  - reflexivity.
Qed.

(** A name has something left after [trim] exactly when one of its
    characters is not white space. *)
Lemma trim_not_blank (s : string) : blank s = false → trim s ≠ "".
Proof.
  intros Hs Ht. apply trimEnd_empty in Ht. rewrite blank_trimStart in Ht. congruence.
Qed.

(** The run of create-room on a valid name when the collection answers:
    the loop stops at the first free candidate, or at the tenth. *)
Lemma create_room_loop (random : nat → Q) (userId roomName : string)
    (r : gmap string (gset string)) (d : list Room) (k : nat)
    (s : list (string * ServerMsg)) (e : list ErrorLine) :
  trim roomName ≠ "" →
  let w := mkWorld r d [] k s e in
  ∃ n, (1 ≤ n ≤ 10)%nat
    ∧ (∀ j, (j < n - 1)%nat → collides random w j = true)
    ∧ (collides random w (n - 1) = true → n = 10)
    ∧ create_room random userId (Some roomName) w
      = if collides random w (n - 1)
        then (Ok (mkResponse 500 (ErrorBody "Failed to generate unique room code" None)),
              mkWorld r d [] (k + 6 * n) s e)
        else (Ok (mkResponse 201
                    (RoomCreated (toUpperCase (candidate random w (n - 1)))
                       (trim roomName) "Room created successfully")),
              mkWorld r
                (d ++ [mkRoom (toUpperCase (candidate random w (n - 1)))
                         (trim roomName) userId [userId] None])
                [] (k + 6 * n) s e).
Proof.
  intros Hname w.
  destruct (generate_unique_spec random 10 0 r d k s e ltac:(lia) ltac:(lia))
    as (n & Hn1 & Hn10 & Hbefore & Hlast & Hrun).
  cbv zeta in Hbefore, Hlast, Hrun. fold w in Hbefore, Hlast, Hrun.
  exists n. split; [lia |]. split; [exact Hbefore |]. split; [exact Hlast |].
  unfold collides. set (c := candidate random w (n - 1)) in *.
  unfold create_room. rewrite (valid_name _ Hname).
  unfold try_catch, mbind at 1, M_bind at 1. rewrite Hrun.
  subst w. cbn [docs].
  destruct (List.find (has_code (toUpperCase c)) d) as [room|] eqn:Hfind;
    cbn [present default]; [reflexivity |].
  run_handler. rewrite existsb_find. cbn [code]. rewrite Hfind. reflexivity.
Qed.

(** Create-room on a roomName that is a string or is missing: the
    rejected names, the answers 201 and the accepted names. *)
Lemma create_room_name_cases
    (random : nat → Q) (userId : string) (roomName : option string) (w : World) :
  let result := create_room random userId roomName w in
  ((roomName = None ∨ ∃ s, roomName = Some s ∧ blank s = true) →
   result = (Ok (mkResponse 400 (ErrorBody "Room name is required" None)), w))
  ∧ (∀ resp, fst result = Ok resp → status resp = 201 →
     ∃ s roomCode,
       roomName = Some s
       ∧ body resp = RoomCreated roomCode (trim s) "Room created successfully"
       ∧ docs (snd result) = docs w ++ [mkRoom roomCode (trim s) userId [userId] None])
  ∧ (∀ s, roomName = Some s → blank s = false → faults w = [] →
     (∃ j, (j < 10)%nat ∧ collides random w j = false) →
     ∃ roomCode,
       fst result
       = Ok (mkResponse 201 (RoomCreated roomCode (trim s) "Room created successfully"))
       ∧ docs (snd result) = docs w ++ [mkRoom roomCode (trim s) userId [userId] None]).
Proof.
  intros result. subst result. split; [| split].
  - intros Hbad. unfold create_room. now rewrite (invalid_name _ Hbad).
  - intros resp.
    destruct (create_room random userId roomName w) as [res w'] eqn:Hres.
    cbn [fst snd]. revert Hres. unfold create_room.
    destruct (negb (truthy roomName) || negb (truthy (trim <$> roomName))) eqn:Hcond.
    { intros [= <- <-] [= <-]. discriminate. }
    destruct roomName as [name|]; [| discriminate]. cbn [default].
    unfold try_catch, mbind at 1, M_bind at 1.
    pose proof (generate_unique_frame random 10 0 w) as Hframe. cbv zeta in Hframe.
    destruct (generate_unique random 10 0 w) as [[[[c ex] n]|err|] w1].
    + cbn [snd] in Hframe. destruct Hframe as (_ & Hd & _).
      destruct (present ex).
      { intros [= <- <-] [= <-]. discriminate. }
      run_handler. fold (docs w1). fold (faults w1). rewrite Hd.
      destruct (faults w1) as [|[m|] fs];
        try (intros [= <- <-] [= <-]; discriminate);
        (destruct (existsb _ (docs w)); [intros [= <- <-] [= <-]; discriminate |]);
        intros [= <- <-] [= <-] _; exists name, (toUpperCase c);
        repeat split; reflexivity.
    + run_handler. intros [= <- <-] [= <-]. discriminate.
    + intros [= <- <-]. discriminate.
  - intros s -> Hs Hf (j & Hj & Hfree).
    destruct w as [r d f k snt e]. cbn [faults] in Hf. subst f.
    destruct (create_room_loop random userId s r d k snt e (trim_not_blank _ Hs))
      as (n & Hn & Hbefore & Hlast & Hrun).
    cbv zeta in Hbefore, Hlast, Hrun. rewrite Hrun.
    destruct (collides random (mkWorld r d [] k snt e) (n - 1)) eqn:Hc.
    + specialize (Hlast eq_refl). subst n.
      assert (Hhit : collides random (mkWorld r d [] k snt e) j = true).
      { destruct (Nat.eq_dec j 9) as [-> | Hne]; [exact Hc | apply Hbefore; lia]. }
      congruence.
    + eexists. split; reflexivity.
Qed.

(** C10. A create-room request whose roomName is missing, falsy or made
    of white space only is answered 400 "Room name is required" and
    changes nothing.  Whenever the answer is 201, the roomName of the
    request is a string, and the roomName of the response and the
    room_name of the one room added to the collection are that string
    without its surrounding white space.  And a roomName with a character
    that is not white space is accepted: when the collection answers and
    one of the ten candidate codes is free, the answer is 201 with the
    trimmed name, and the room stored has it. *)
Theorem create_room_trims_name
    (random : nat → Q) (userId : string) (roomName : option Json) (w : World) :
  let result := create_room_request random userId roomName w in
  ((truthy_json roomName = false ∨ ∃ s, roomName = Some (JString s) ∧ blank s = true) →
   result = (Ok (mkResponse 400 (ErrorBody "Room name is required" None)), w))
  ∧ (∀ resp, fst result = Ok resp → status resp = 201 →
     ∃ s roomCode,
       roomName = Some (JString s)
       ∧ body resp = RoomCreated roomCode (trim s) "Room created successfully"
       ∧ docs (snd result) = docs w ++ [mkRoom roomCode (trim s) userId [userId] None])
  ∧ (∀ s, roomName = Some (JString s) → blank s = false → faults w = [] →
     (∃ j, (j < 10)%nat ∧ collides random w j = false) →
     ∃ roomCode,
       fst result
       = Ok (mkResponse 201 (RoomCreated roomCode (trim s) "Room created successfully"))
       ∧ docs (snd result) = docs w ++ [mkRoom roomCode (trim s) userId [userId] None]).
Proof.
  intros result. subst result.
  assert (Hmissing :
    create_room random userId None w
    = (Ok (mkResponse 400 (ErrorBody "Room name is required" None)), w)).
  { apply (proj1 (create_room_name_cases random userId None w)). now left. }
  assert (Hfalsy : ∀ v : option Json,
    create_room_request random userId v w = create_room random userId None w →
    (∀ s, v ≠ Some (JString s)) →
    (create_room_request random userId v w
     = (Ok (mkResponse 400 (ErrorBody "Room name is required" None)), w))
    ∧ (∀ resp, fst (create_room_request random userId v w) = Ok resp → status resp = 201 →
       ∃ s roomCode,
         v = Some (JString s)
         ∧ body resp = RoomCreated roomCode (trim s) "Room created successfully"
         ∧ docs (snd (create_room_request random userId v w))
           = docs w ++ [mkRoom roomCode (trim s) userId [userId] None])
    ∧ (∀ s, v = Some (JString s) → blank s = false → faults w = [] →
       (∃ j, (j < 10)%nat ∧ collides random w j = false) →
       ∃ roomCode,
         fst (create_room_request random userId v w)
         = Ok (mkResponse 201 (RoomCreated roomCode (trim s) "Room created successfully"))
         ∧ docs (snd (create_room_request random userId v w))
           = docs w ++ [mkRoom roomCode (trim s) userId [userId] None])).
  { intros v -> Hv. rewrite Hmissing. cbn [fst snd]. split; [reflexivity |]. split.
    - intros resp [= <-]. discriminate.
    - intros s Hs. now elim (Hv s). }
  assert (Hthrows : ∀ v : option Json,
    create_room_request random userId v w = (Throw type_error, w) →
    truthy_json v = true → (∀ s, v ≠ Some (JString s)) →
    ((truthy_json v = false ∨ ∃ s, v = Some (JString s) ∧ blank s = true) →
     create_room_request random userId v w
     = (Ok (mkResponse 400 (ErrorBody "Room name is required" None)), w))
    ∧ (∀ resp, fst (create_room_request random userId v w) = Ok resp → status resp = 201 →
       ∃ s roomCode,
         v = Some (JString s)
         ∧ body resp = RoomCreated roomCode (trim s) "Room created successfully"
         ∧ docs (snd (create_room_request random userId v w))
           = docs w ++ [mkRoom roomCode (trim s) userId [userId] None])
    ∧ (∀ s, v = Some (JString s) → blank s = false → faults w = [] →
       (∃ j, (j < 10)%nat ∧ collides random w j = false) →
       ∃ roomCode,
         fst (create_room_request random userId v w)
         = Ok (mkResponse 201 (RoomCreated roomCode (trim s) "Room created successfully"))
         ∧ docs (snd (create_room_request random userId v w))
           = docs w ++ [mkRoom roomCode (trim s) userId [userId] None])).
  { intros v -> Ht Hv. cbn [fst snd]. split; [| split].
    - intros [Hf | (s & Hs & _)]; [congruence | now elim (Hv s)].
    - intros resp [=].
    - intros s Hs. now elim (Hv s). }
  destruct roomName as [[|b|q|name|items|fields]|].
  - split; [intros _ |]; now apply Hfalsy.
  - destruct b.
    + now apply Hthrows.
    + split; [intros _ |]; now apply Hfalsy.
  - destruct (negb (Qeq_bool q 0)) eqn:Hq.
    + apply Hthrows; [| exact Hq | discriminate].
      unfold create_room_request. cbn [truthy_json]. now rewrite Hq.
    + split; [intros _ |]; apply Hfalsy; try discriminate;
        unfold create_room_request; cbn [truthy_json]; now rewrite Hq.
  - change (create_room_request random userId (Some (JString name)) w)
      with (create_room random userId (Some name) w).
    destruct (create_room_name_cases random userId (Some name) w)
      as (Hbad & Hgood & Haccept).
    cbv zeta in Hbad, Hgood, Haccept. split; [| split].
    + intros [Hf | (s & [= ->] & Hs)]; apply Hbad; right.
      * exists name. split; [reflexivity |].
        cbn [truthy_json] in Hf. apply negb_false_iff, is_empty_true in Hf. now subst name.
      * now exists s.
    + intros resp Hres H201.
      destruct (Hgood resp Hres H201) as (s & roomCode & [= <-] & Hbody & Hdocs).
      now exists name, roomCode.
    + intros s [= <-]. now apply Haccept.
  - now apply Hthrows.
  - now apply Hthrows.
  - split; [intros _ |]; now apply Hfalsy.
Qed.

(** An accepted request: the padded name is stored and returned trimmed. *)
Lemma create_room_trims_name_witness :
  ∃ roomCode,
    fst (create_room_request stuck "u1" (Some (JString "  Team Sync ")) empty_world)
    = Ok (mkResponse 201
            (RoomCreated roomCode (trim "  Team Sync ") "Room created successfully"))
    ∧ docs (snd (create_room_request stuck "u1" (Some (JString "  Team Sync "))
                   empty_world))
      = docs empty_world ++ [mkRoom roomCode (trim "  Team Sync ") "u1" ["u1"] None].
Proof.
  apply (proj2 (proj2 (create_room_trims_name stuck "u1" (Some (JString "  Team Sync "))
                         empty_world))
           "  Team Sync " eq_refl).
  - reflexivity.
  - reflexivity.
  - exists 0%nat. split; [lia | reflexivity].
Defined.

(** The name of the stored room, for that request. *)
Example create_room_trimmed_name_stored :
  room_name <$> docs (snd (create_room stuck "u1" (Some "  Team Sync ") empty_world))
  = ["Team Sync"].
Proof. vm_compute. reflexivity. Qed.

(** A name made of no-break spaces is white space only. *)
Example create_room_no_break_space_name :
  create_room stuck "u1" (Some (no_break_space +:+ " " +:+ no_break_space)) empty_world
  = (Ok (mkResponse 400 (ErrorBody "Room name is required" None)), empty_world).
Proof. vm_compute. reflexivity. Qed.

Example create_room_blank_name :
  create_room stuck "u1" (Some "   ") taken
  = (Ok (mkResponse 400 (ErrorBody "Room name is required" None)), taken).
Proof. reflexivity. Qed.

(** ** Joining the members of a room *)

Lemma find_has_code (q : string) (ds : list Room) (room : Room) :
  List.find (has_code q) ds = Some room → code room = q.
Proof.
  intros H. apply find_some in H as [_ H]. now apply String.eqb_eq in H.
Qed.

Lemma update_first_found (q : string) (g : Room → Room) (ds : list Room) (room : Room) :
  List.find (has_code q) ds = Some room →
  update_first (code room) (λ _, g room) ds = update_first q g ds.
Proof.
  intros Hfind. rewrite (find_has_code _ _ _ Hfind).
  induction ds as [|r0 ds IH]; simpl in *; [reflexivity |].
  destruct (has_code q r0).
  - now injection Hfind as ->.
  - now rewrite IH.
Qed.

Lemma includes_snoc (ms : list string) (userId : string) :
  includes (ms ++ [userId]) userId = true.
Proof.
  unfold includes. rewrite existsb_app. simpl.
  rewrite String.eqb_refl. now rewrite orb_true_r.
Qed.

(** The run of verify-room on a valid code when the collection answers. *)
Lemma verify_room_run (userId roomCode : string) (r : gmap string (gset string))
    (d : list Room) (k : nat) (s : list (string * ServerMsg)) (e : list ErrorLine) :
  trim roomCode ≠ "" →
  verify_room userId (Some roomCode) (mkWorld r d [] k s e) =
    let cleanCode := toUpperCase (trim roomCode) in
    match List.find (has_code cleanCode) d with
    | None =>
        (Ok (mkResponse 404
               (RoomNotFound
                  ("Room with code " +:+ double_quote +:+ cleanCode +:+ double_quote
                     +:+ " not found")
                  (length d))),
         mkWorld r d [] k s e)
    | Some room =>
        if includes (members room) userId
        then (Ok (mkResponse 200
                    (RoomFound (room_name room) (code room) (length (members room))
                       "Room found successfully")),
              mkWorld r d [] k s e)
        else (Ok (mkResponse 200
                    (RoomFound (room_name room) (code room)
                       (length (members room ++ [userId])) "Room found successfully")),
              mkWorld r
                (update_first cleanCode (set_members (members room ++ [userId])) d)
                [] k s e)
    end.
Proof.
  intros Hcode. unfold verify_room. rewrite (valid_name _ Hcode). cbn [default].
  cbv zeta. unfold try_catch, mbind at 1, M_bind at 1.
  run_handler. change (id roomCode) with roomCode.
  destruct (List.find (has_code (toUpperCase (trim roomCode))) d) as [room|] eqn:Hfind;
    [| reflexivity].
  destruct (includes (members room) userId); cbn [negb]; [reflexivity |].
  rewrite <- (update_first_found _ (set_members (members room ++ [userId])) _ _ Hfind).
  reflexivity.
Qed.

(** C5. Verify-room on the code of a room R, by a user U, with a
    collection that answers: if U is among the members of R nothing is
    written; otherwise U is appended once to the members of R, the other
    rooms being left as they were.  A second call with the same code and
    user writes nothing: the members are those left by the first call, and
    the member count it reports is their number. *)
Theorem verify_room_add_member_idempotent
    (userId roomCode : string) (w : World) (room : Room) :
  faults w = [] →
  trim roomCode ≠ "" →
  List.find (has_code (toUpperCase (trim roomCode))) (docs w) = Some room →
  let after := if includes (members room) userId then members room
               else members room ++ [userId] in
  let w1 := snd (verify_room userId (Some roomCode) w) in
  let second := verify_room userId (Some roomCode) w1 in
  docs w1 = (if includes (members room) userId then docs w
             else update_first (toUpperCase (trim roomCode)) (set_members after) (docs w))
  ∧ members <$> List.find (has_code (toUpperCase (trim roomCode))) (docs w1) = Some after
  ∧ docs (snd second) = docs w1
  ∧ fst second = Ok (mkResponse 200
                       (RoomFound (room_name room) (code room) (length after)
                          "Room found successfully")).
Proof.
  intros Hf Hcode Hfind. destruct w as [r d f k s e]. simpl in Hf, Hfind. subst f.
  cbv zeta. rewrite (verify_room_run userId roomCode r d k s e Hcode). cbv zeta.
  rewrite Hfind. cbn [docs].
  destruct (includes (members room) userId) eqn:Hin; cbn [snd docs].
  - rewrite (verify_room_run userId roomCode r d k s e Hcode). cbv zeta.
    rewrite Hfind, Hin. cbn [fst snd docs]. repeat split; reflexivity.
  - rewrite (verify_room_run userId roomCode r _ k s e Hcode). cbv zeta.
    rewrite find_update_first, Hfind by reflexivity.
    cbn [fmap option_fmap option_map set_members members room_name code].
    rewrite includes_snoc. cbn [fst snd docs]. repeat split; reflexivity.
Qed.

Lemma verify_room_add_member_idempotent_witness :
  docs (snd (verify_room "u2" (Some " room1 ") one_room))
  = (if includes ["u1"] "u2" then docs one_room
     else update_first (toUpperCase (trim " room1 "))
            (set_members (if includes ["u1"] "u2" then ["u1"] else ["u1"] ++ ["u2"]))
            (docs one_room))
  ∧ members <$> List.find (has_code (toUpperCase (trim " room1 ")))
                  (docs (snd (verify_room "u2" (Some " room1 ") one_room)))
    = Some (if includes ["u1"] "u2" then ["u1"] else ["u1"] ++ ["u2"])
  ∧ docs (snd (verify_room "u2" (Some " room1 ")
                 (snd (verify_room "u2" (Some " room1 ") one_room))))
    = docs (snd (verify_room "u2" (Some " room1 ") one_room))
  ∧ fst (verify_room "u2" (Some " room1 ")
           (snd (verify_room "u2" (Some " room1 ") one_room)))
    = Ok (mkResponse 200
            (RoomFound "Team Sync" "ROOM1"
               (length (if includes ["u1"] "u2" then ["u1"] else ["u1"] ++ ["u2"]))
               "Room found successfully")).
Proof.
  apply (verify_room_add_member_idempotent "u2" " room1 " one_room
           (mkRoom "ROOM1" "Team Sync" "u1" ["u1"] None)).
  - reflexivity.
  - vm_compute. discriminate.
  - reflexivity.
Defined.

(** The scenario of the specification: U2 verifies the room of U1 twice,
    in lower case and with spaces; the member count is 2 both times. *)
Example verify_room_twice :
  fst (verify_room "u2" (Some " room1 ") one_room)
  = Ok (mkResponse 200 (RoomFound "Team Sync" "ROOM1" 2 "Room found successfully"))
  ∧ fst (verify_room "u2" (Some " room1 ")
           (snd (verify_room "u2" (Some " room1 ") one_room)))
    = Ok (mkResponse 200 (RoomFound "Team Sync" "ROOM1" 2 "Room found successfully"))
  ∧ members <$> docs (snd (verify_room "u2" (Some " room1 ")
                             (snd (verify_room "u2" (Some " room1 ") one_room))))
    = [["u1"; "u2"]].
Proof. repeat split; vm_compute; reflexivity. Qed.

(** * Further properties of the routes and of the relay *)

(** ** How each request changes the collection *)

Lemma fmap_update_first {B} (g : Room → B) (q : string) (f : Room → Room) (ds : list Room) :
  (∀ r, g (f r) = g r) → g <$> update_first q f ds = g <$> ds.
Proof.
  intros Hg. induction ds as [|r ds IH]; cbn [update_first]; [reflexivity |].
  destruct (has_code q r); rewrite !fmap_cons; [now rewrite Hg | now rewrite IH].
Qed.

Lemma room_grows_refl (r : Room) : room_grows r r.
Proof. unfold room_grows. repeat split; reflexivity. Qed.

Lemma room_grows_trans (r1 r2 r3 : Room) :
  room_grows r1 r2 → room_grows r2 r3 → room_grows r1 r3.
Proof.
  intros (Hc & Hn & Hk & Hm) (Hc' & Hn' & Hk' & Hm'). unfold room_grows.
  repeat split; try congruence. now transitivity (members r2).
Qed.

Lemma Forall2_room_grows_refl (ds : list Room) : Forall2 room_grows ds ds.
Proof. induction ds; constructor; [apply room_grows_refl | assumption]. Qed.

Lemma update_first_grows (q : string) (f : Room → Room) (ds : list Room) :
  (∀ r, room_grows r (f r)) → Forall2 room_grows ds (update_first q f ds).
Proof.
  intros Hf. induction ds as [|r ds IH]; simpl; [constructor |].
  destruct (has_code q r); constructor;
    auto using room_grows_refl, Forall2_room_grows_refl.
Qed.

Lemma docs_grow_refl (d : list Room) : docs_grow d d.
Proof.
  exists d, []. split; [now rewrite app_nil_r | apply Forall2_room_grows_refl].
Qed.

Lemma docs_grow_trans (d1 d2 d3 : list Room) :
  docs_grow d1 d2 → docs_grow d2 d3 → docs_grow d1 d3.
Proof.
  intros (k1 & n1 & -> & H1) (k2 & n2 & -> & H2).
  apply Forall2_app_inv_l in H2 as (k2a & k2b & Ha & Hb & ->).
  exists k2a, (k2b ++ n2). split; [now rewrite app_assoc |].
  clear Hb. revert k2a Ha. induction H1 as [|x y l l' Hxy _ IH]; intros k2a Ha.
  - inversion Ha. constructor.
  - inversion Ha as [|? z ? l'' Hyz Hrest]; subst. constructor.
    + exact (room_grows_trans _ _ _ Hxy Hyz).
    + now apply IH.
Qed.

Lemma docs_relay (s : string) (ev : SocketEvent) (w : World) :
  docs (relay s ev w) = docs w
  ∨ ∃ q v, docs (relay s ev w) = update_first q (set_canvasData v) (docs w).
Proof.
  destruct ev as [|rc|rc stroke|rc img|rc|]; unfold relay.
  - now left.
  - left. apply docs_on_join_room.
  - left. now rewrite on_drawing_data_eq.
  - rewrite on_canvas_data_eq. destruct w as [r d f k s' e].
    destruct f as [|[m|] f]; simpl; eauto.
  - rewrite on_clear_canvas_eq. destruct w as [r d f k s' e].
    destruct f as [|[m|] f]; simpl; eauto.
  - now left.
Qed.

(** The loop of create-room never exhausts its budget of ten iterations;
    when it returns, the code is one the generator produced and the room
    beside it is the result of the look-up of that code. *)
Lemma generate_unique_result (random : nat → Q) (fuel : nat) :
  ∀ (attempts : nat) (w : World),
    (attempts < 10)%nat → (10 - attempts ≤ fuel)%nat →
    match generate_unique random fuel attempts w with
    | (Ok (c, existing, _), _) =>
        (∃ k, c = fst (genRoomCode random k))
        ∧ existing = List.find (has_code (toUpperCase c)) (docs w)
    | (Throw _, _) => True
    | (OutOfFuel, _) => False
    end.
Proof.
  induction fuel as [|fuel IH]; intros attempts w Hlt Hfuel; [lia |].
  rewrite generate_unique_eq. cbv zeta.
  destruct w as [r d f k s e]. cbn [faults docs draws].
  assert (Hstep : ∀ fs,
    match
      (if present (List.find (has_code (toUpperCase (fst (genRoomCode random k)))) d)
          && (S attempts <? 10)%nat
       then generate_unique random fuel (S attempts)
              (set_docs (λ _, d) (set_faults fs
                 (set_draws (k + 6) (mkWorld r d f k s e))))
       else (Ok (fst (genRoomCode random k),
                 List.find (has_code (toUpperCase (fst (genRoomCode random k)))) d,
                 S attempts),
             set_docs (λ _, d) (set_faults fs
               (set_draws (k + 6) (mkWorld r d f k s e)))))
    with
    | (Ok (c, existing, _), _) =>
        (∃ k, c = fst (genRoomCode random k))
        ∧ existing = List.find (has_code (toUpperCase c)) d
    | (Throw _, _) => True
    | (OutOfFuel, _) => False
    end).
  { intros fs.
    destruct (present _ && (S attempts <? 10)%nat) eqn:Hgo.
    - apply andb_true_iff in Hgo as [_ Hmore]. apply Nat.ltb_lt in Hmore.
      apply (IH (S attempts)); lia.
    - split; [now exists k | reflexivity]. }
  destruct f as [|[m|] f]; cbn [tail]; [apply Hstep | exact I | apply Hstep].
Qed.

Lemma truthy_trim (s : string) :
  negb (truthy (Some s)) || negb (truthy (trim <$> Some s)) = false → trim s ≠ "".
Proof.
  intros H Hempty. cbn [fmap option_fmap option_map] in H. rewrite Hempty in H.
  simpl in H. now rewrite orb_true_r in H.
Qed.

(** The outcomes of create-room, whatever the collection answers: a
    response in every case; either nothing is written (400 or 500), or the
    response is 201 and one room is appended, with a generated code that
    no room had. *)
Lemma create_room_cases (random : nat → Q) (userId : string)
    (roomName : option string) (w : World) :
  ∃ resp w',
    create_room random userId roomName w = (Ok resp, w')
    ∧ rooms w' = rooms w ∧ sent w' = sent w
    ∧ ((docs w' = docs w ∧ (status resp = 400 ∨ status resp = 500))
       ∨ (∃ s k,
            roomName = Some s ∧ trim s ≠ ""
            ∧ resp = mkResponse 201
                       (RoomCreated (toUpperCase (fst (genRoomCode random k))) (trim s)
                          "Room created successfully")
            ∧ List.find (has_code (toUpperCase (fst (genRoomCode random k)))) (docs w) = None
            ∧ docs w' = docs w ++ [mkRoom (toUpperCase (fst (genRoomCode random k)))
                                     (trim s) userId [userId] None])).
Proof.
  destruct w as [r d f k s e]. unfold create_room.
  set (w := mkWorld r d f k s e).
  destruct (negb (truthy roomName) || negb (truthy (trim <$> roomName))) eqn:Hcond.
  { eexists _, w. split; [reflexivity |]. repeat split; try reflexivity.
    left. split; [reflexivity | now left]. }
  destruct roomName as [name|]; [| discriminate]. cbn [default].
  pose proof (truthy_trim _ Hcond) as Hname.
  unfold try_catch, mbind at 1, M_bind at 1.
  pose proof (generate_unique_frame random 10 0 w) as Hframe. cbv zeta in Hframe.
  pose proof (generate_unique_result random 10 0 w ltac:(lia) ltac:(lia)) as Hres.
  destruct (generate_unique random 10 0 w) as [[[[c ex] n]|err|] w1];
    cbn [snd] in Hframe; destruct Hframe as (Hr & Hd & Hs & _);
    destruct w1 as [r1 d1 f1 k1 s1 e1]; simpl in Hr, Hd, Hs; subst r1 d1 s1;
    cbn [docs rooms sent w] in *.
  - destruct Hres as [[k0 ->] ->].
    remember (fst (genRoomCode random k0)) as c eqn:Hc.
    destruct (List.find (has_code (toUpperCase c)) d)
      as [room|] eqn:Hfind; cbn [present].
    { eexists _, _. split; [reflexivity |]. repeat split; try reflexivity.
      left. split; [reflexivity | now right]. }
    run_handler. rewrite existsb_find. cbn [code]. rewrite Hfind. cbn [present].
    destruct f1 as [|[m|] f1].
    + eexists _, _. split; [reflexivity |]. repeat split; try reflexivity.
      right. exists name, k0. subst c.
      repeat split; try reflexivity; first [exact Hname | exact Hfind].
    + eexists _, _. split; [reflexivity |]. repeat split; try reflexivity.
      left. split; [reflexivity | now right].
    + eexists _, _. split; [reflexivity |]. repeat split; try reflexivity.
      right. exists name, k0. subst c.
      repeat split; try reflexivity; first [exact Hname | exact Hfind].
  - run_handler. eexists _, _. split; [reflexivity |]. repeat split; try reflexivity.
    left. split; [reflexivity | now right].
  - destruct Hres.
Qed.

(** The outcomes of verify-room, whatever the collection answers: a
    response in every case; either nothing is written, or the response is
    200 and the user is appended to the members of the room of that code,
    of which it was not a member. *)
Lemma verify_room_cases (userId : string) (roomCode : option string) (w : World) :
  ∃ resp w',
    verify_room userId roomCode w = (Ok resp, w')
    ∧ rooms w' = rooms w ∧ sent w' = sent w
    ∧ ((docs w' = docs w
        ∧ (status resp = 400 ∨ status resp = 404 ∨ status resp = 500
           ∨ ∃ s room,
               roomCode = Some s
               ∧ List.find (has_code (toUpperCase (trim s))) (docs w) = Some room
               ∧ includes (members room) userId = true
               ∧ resp = mkResponse 200
                          (RoomFound (room_name room) (code room)
                             (length (members room)) "Room found successfully")))
       ∨ (∃ s room,
            roomCode = Some s
            ∧ List.find (has_code (toUpperCase (trim s))) (docs w) = Some room
            ∧ includes (members room) userId = false
            ∧ resp = mkResponse 200
                       (RoomFound (room_name room) (code room)
                          (length (members room ++ [userId])) "Room found successfully")
            ∧ docs w' = update_first (toUpperCase (trim s))
                          (set_members (members room ++ [userId])) (docs w))).
Proof.
  destruct w as [r d f k s e]. unfold verify_room.
  destruct (negb (truthy roomCode) || negb (truthy (trim <$> roomCode))) eqn:Hcond.
  { eexists _, _. split; [reflexivity |]. repeat split; try reflexivity.
    left. split; [reflexivity | now left]. }
  destruct roomCode as [rc|]; [| discriminate]. cbn [default]. cbv zeta.
  unfold try_catch, mbind at 1, M_bind at 1. run_handler. change (id rc) with rc.
  assert (Hquiet : ∀ (resp : Response) (f' : list (option string)) (e' : list ErrorLine),
    status resp = 404 ∨ status resp = 500 →
    ∃ resp0 w0, (Ok resp, mkWorld r d f' k s e') = (Ok resp0, w0)
      ∧ rooms w0 = r ∧ sent w0 = s
      ∧ ((docs w0 = d
          ∧ (status resp0 = 400 ∨ status resp0 = 404 ∨ status resp0 = 500
             ∨ ∃ s1 room,
                 Some rc = Some s1
                 ∧ List.find (has_code (toUpperCase (trim s1))) d = Some room
                 ∧ includes (members room) userId = true
                 ∧ resp0 = mkResponse 200
                            (RoomFound (room_name room) (code room)
                               (length (members room)) "Room found successfully")))
         ∨ (∃ s1 room,
              Some rc = Some s1
              ∧ List.find (has_code (toUpperCase (trim s1))) d = Some room
              ∧ includes (members room) userId = false
              ∧ resp0 = mkResponse 200
                         (RoomFound (room_name room) (code room)
                            (length (members room ++ [userId])) "Room found successfully")
              ∧ docs w0 = update_first (toUpperCase (trim s1))
                            (set_members (members room ++ [userId])) d))).
  { intros resp f' e' Hst. exists resp, (mkWorld r d f' k s e').
    split; [reflexivity |]. split; [reflexivity |]. split; [reflexivity |].
    left. split; [reflexivity |]. tauto. }
  destruct f as [|[m|] f]; [| apply Hquiet; now right |];
    (destruct (List.find (has_code (toUpperCase (trim rc))) d) as [room|] eqn:Hfind;
     [ destruct (includes (members room) userId) eqn:Hin; cbn [negb]
     | ]).
  all: try (destruct f as [|[m|] f]).
  all: try (apply Hquiet; simpl; tauto).
  all: try (eexists _, _; split; [reflexivity |];
            split; [reflexivity |]; split; [reflexivity |];
            left; split; [reflexivity |];
            right; right; right; exists rc, room; repeat split; assumption).
  all: eexists _, _; split; [reflexivity |];
       split; [reflexivity |]; split; [reflexivity |];
       right; exists rc, room;
       split; [reflexivity |]; split; [assumption |]; split; [assumption |];
       split; [reflexivity |]; cbn [docs];
       apply (update_first_found _ (set_members (members room ++ [userId])) _ _ Hfind).
Qed.

(** What a request does to the collection: nothing, or it appends a room
    whose code no room had, with its creator as only member, or it writes
    the snapshot of the first room of a code, or it appends to the members
    of the first room of a code a user that was not among them. *)
Lemma docs_serve (random : nat → Q) (rq : Request) (w : World) :
  docs (serve random rq w) = docs w
  ∨ (∃ room,
       List.find (has_code (code room)) (docs w) = None
       ∧ members room = [creator room]
       ∧ docs (serve random rq w) = docs w ++ [room])
  ∨ (∃ q v, docs (serve random rq w) = update_first q (set_canvasData v) (docs w))
  ∨ (∃ q room u,
       List.find (has_code q) (docs w) = Some room
       ∧ includes (members room) u = false
       ∧ docs (serve random rq w)
         = update_first q (set_members (members room ++ [u])) (docs w)).
Proof.
  destruct rq as [userId roomName|userId roomCode|socket ev]; unfold serve.
  - destruct (create_room_cases random userId roomName w)
      as (resp & w' & -> & _ & _ & [[Hd _]|(s & k & _ & _ & _ & Hfind & Hd)]);
      cbn [snd]; [now left |].
    right. left.
    exists (mkRoom (toUpperCase (fst (genRoomCode random k))) (trim s) userId [userId] None).
    split; [exact Hfind |]. split; [reflexivity | exact Hd].
  - destruct (verify_room_cases userId roomCode w)
      as (resp & w' & -> & _ & _ & [[Hd _]|(s & room & _ & Hfind & Hin & _ & Hd)]);
      cbn [snd]; [now left |].
    right. right. right. exists (toUpperCase (trim s)), room, userId.
    split; [exact Hfind |]. split; [exact Hin | exact Hd].
  - destruct (docs_relay socket ev w) as [H|H]; [now left | right; right; now left].
Qed.

Lemma find_none_code (q : string) (ds : list Room) :
  List.find (has_code q) ds = None → q ∉ code <$> ds.
Proof.
  intros Hnone (r & -> & Hin)%list_elem_of_fmap.
  apply list_elem_of_In in Hin.
  pose proof (find_none _ _ Hnone r Hin) as Hr.
  unfold has_code in Hr. now rewrite String.eqb_refl in Hr.
Qed.

Lemma includes_false (ms : list string) (u : string) :
  includes ms u = false → u ∉ ms.
Proof.
  unfold includes. intros Hex Hin%list_elem_of_In.
  assert (existsb (String.eqb u) ms = true); [| congruence].
  apply existsb_exists. exists u. split; [assumption | apply String.eqb_refl].
Qed.

Lemma update_first_grows_found (q : string) (f : Room → Room) (ds : list Room) :
  (∀ r, List.find (has_code q) ds = Some r → room_grows r (f r)) →
  Forall2 room_grows ds (update_first q f ds).
Proof.
  induction ds as [|r ds IH]; simpl; intros Hf; [constructor |].
  destruct (has_code q r); constructor;
    auto using room_grows_refl, Forall2_room_grows_refl.
Qed.

Lemma Forall_update_first (P : Room → Prop) (q : string) (f : Room → Room)
    (ds : list Room) :
  Forall P ds →
  (∀ r, List.find (has_code q) ds = Some r → P r → P (f r)) →
  Forall P (update_first q f ds).
Proof.
  induction ds as [|r ds IH]; simpl; intros Hall Hf; [constructor |].
  inversion Hall as [|? ? Hr Hrest]; subst.
  destruct (has_code q r); constructor; auto.
Qed.

(** ** Invariants of the collection *)

(** X1. Whatever requests are served (create-room, verify-room, socket
    events), whatever the generator draws and whatever the collection
    answers, if no two rooms had the same code before, no two rooms have
    the same code after. *)
Theorem codes_stay_unique (random : nat → Q) (rqs : list Request) (w : World) :
  unique_codes (docs w) → unique_codes (docs (serve_all random rqs w)).
Proof.
  revert w. induction rqs as [|rq rqs IH]; intros w Huniq; [exact Huniq |].
  simpl. apply IH. unfold unique_codes in *.
  destruct (docs_serve random rq w)
    as [->|[(room & Hnone & _ & ->)|[(q & v & ->)|(q & room & u & _ & _ & ->)]]].
  - exact Huniq.
  - rewrite fmap_app. apply NoDup_app. split; [exact Huniq |]. split.
    + intros c Hc [->|[]%elem_of_nil]%elem_of_cons.
      exact (find_none_code _ _ Hnone Hc).
    + apply NoDup_singleton.
  - now rewrite fmap_update_first.
  - now rewrite fmap_update_first.
Qed.

Lemma codes_stay_unique_witness :
  unique_codes (docs (serve_all stuck
    [CreateRoom "u2" (Some "Second"); VerifyRoom "u2" (Some "room1");
     Socket "A" (CanvasDataIn "room1" "X"); CreateRoom "u3" (Some "Third")]
    one_room)).
Proof.
  apply (codes_stay_unique stuck _ one_room).
  unfold unique_codes. simpl. apply NoDup_singleton.
Defined.

(** X2. Whatever requests are served, the rooms of the collection stay
    where they are: none is deleted or moved, the code, the name and the
    creator of a room never change, its members are only appended to, and
    new rooms come at the end. *)
Theorem rooms_only_grow (random : nat → Q) (rqs : list Request) (w : World) :
  docs_grow (docs w) (docs (serve_all random rqs w)).
Proof.
  revert w. induction rqs as [|rq rqs IH]; intros w; [apply docs_grow_refl |].
  simpl. apply docs_grow_trans with (docs (serve random rq w)); [| apply IH].
  destruct (docs_serve random rq w)
    as [->|[(room & _ & _ & ->)|[(q & v & ->)|(q & room & u & Hfind & _ & ->)]]].
  - apply docs_grow_refl.
  - exists (docs w), [room]. split; [reflexivity | apply Forall2_room_grows_refl].
  - exists (update_first q (set_canvasData v) (docs w)), [].
    split; [now rewrite app_nil_r |]. apply update_first_grows.
    intros r. unfold room_grows. repeat split; reflexivity.
  - exists (update_first q (set_members (members room ++ [u])) (docs w)), [].
    split; [now rewrite app_nil_r |]. apply update_first_grows_found.
    intros r Hr. rewrite Hfind in Hr. injection Hr as <-.
    unfold room_grows. repeat split; try reflexivity.
    simpl. now apply prefix_app_r.
Qed.

(** X3. Whatever requests are served, if no room listed a member twice
    before, none does after. *)
Theorem members_stay_unique (random : nat → Q) (rqs : list Request) (w : World) :
  unique_members (docs w) → unique_members (docs (serve_all random rqs w)).
Proof.
  revert w. induction rqs as [|rq rqs IH]; intros w Huniq; [exact Huniq |].
  simpl. apply IH. unfold unique_members in *.
  destruct (docs_serve random rq w)
    as [->|[(room & _ & Hm & ->)|[(q & v & ->)|(q & room & u & Hfind & Hin & ->)]]].
  - exact Huniq.
  - apply Forall_app. split; [exact Huniq |]. constructor; [| constructor].
    rewrite Hm. apply NoDup_singleton.
  - apply Forall_update_first; [exact Huniq |]. intros r _ Hr. exact Hr.
  - apply Forall_update_first; [exact Huniq |]. intros r Hr Hnodup.
    rewrite Hfind in Hr. injection Hr as <-. simpl.
    apply NoDup_app. split; [exact Hnodup |]. split.
    + intros x Hx [->|[]%elem_of_nil]%elem_of_cons.
      exact (includes_false _ _ Hin Hx).
    + apply NoDup_singleton.
Qed.

Lemma members_stay_unique_witness :
  unique_members (docs (serve_all stuck
    [VerifyRoom "u2" (Some "room1"); VerifyRoom "u2" (Some " ROOM1 ");
     VerifyRoom "u1" (Some "room1"); CreateRoom "u2" (Some "Second")]
    one_room)).
Proof.
  apply (members_stay_unique stuck _ one_room).
  unfold unique_members. simpl. constructor; [apply NoDup_singleton | constructor].
Defined.

(** ** The routes and the relay keep to their own state *)

Lemma without_snapshot_relay (s : string) (ev : SocketEvent) (w : World) :
  without_snapshot <$> docs (relay s ev w) = without_snapshot <$> docs w.
Proof.
  destruct (docs_relay s ev w) as [->|(q & v & ->)]; [reflexivity |].
  now apply fmap_update_first.
Qed.

Lemma without_snapshot_run_events (evs : list (string * SocketEvent)) :
  ∀ w, without_snapshot <$> docs (run_events evs w) = without_snapshot <$> docs w.
Proof.
  induction evs as [|[s ev] evs IH]; intros w; simpl; [reflexivity |].
  now rewrite IH, without_snapshot_relay.
Qed.

(** X4. Create-room and verify-room put no socket in or out of a room
    and send no message to any socket; the socket events change nothing
    of the rooms of the collection but their snapshots: same rooms, same
    codes, names, creators and members. *)
Theorem routes_and_relay_keep_apart
    (random : nat → Q) (userId : string) (field : option string)
    (evs : list (string * SocketEvent)) (w : World) :
  rooms (snd (create_room random userId field w)) = rooms w
  ∧ sent (snd (create_room random userId field w)) = sent w
  ∧ rooms (snd (verify_room userId field w)) = rooms w
  ∧ sent (snd (verify_room userId field w)) = sent w
  ∧ without_snapshot <$> docs (run_events evs w) = without_snapshot <$> docs w.
Proof.
  destruct (create_room_cases random userId field w) as (r1 & w1 & -> & Hr1 & Hs1 & _).
  destruct (verify_room_cases userId field w) as (r2 & w2 & -> & Hr2 & Hs2 & _).
  cbn [snd]. repeat split; try assumption. apply without_snapshot_run_events.
Qed.

(** ** Create-room *)

Lemma toUpperCase_alphabet (s : string) :
  Forall (λ c, in_alphabet c = true) (chars_of s) → toUpperCase s = s.
Proof.
  induction s as [|c s IH]; simpl; intros Hall; [reflexivity |].
  inversion Hall as [|? ? Hc Hrest]; subst. rewrite (IH Hrest). f_equal.
  revert Hc. destruct c as [[] [] [] [] [] [] [] []]; vm_compute; congruence.
Qed.

(** X5. When [Math.random()] stays in its range, a create-room answered
    201 has appended exactly one room: its code is the one of the
    response, six characters of A-Z and 0-9 that no room had; its only
    member is its creator, the user of the request; it has no snapshot. *)
Theorem created_room_shape
    (random : nat → Q) (userId : string) (roomName : option string) (w : World)
    (resp : Response) :
  (∀ i, (0 <= random i)%Q ∧ (random i < 1)%Q) →
  fst (create_room random userId roomName w) = Ok resp →
  status resp = 201 →
  ∃ roomCode name,
    body resp = RoomCreated roomCode name "Room created successfully"
    ∧ String.length roomCode = 6
    ∧ Forall (λ c, in_alphabet c = true) (chars_of roomCode)
    ∧ List.find (has_code roomCode) (docs w) = None
    ∧ docs (snd (create_room random userId roomName w))
      = docs w ++ [mkRoom roomCode name userId [userId] None].
Proof.
  intros Hrandom Hresp H201.
  destruct (create_room_cases random userId roomName w)
    as (r1 & w1 & Hrun & _ & _ & [[_ Hst]|(s & k & _ & _ & Hr1 & Hfind & Hd)]);
    rewrite Hrun in Hresp |- *; cbn [fst] in Hresp; cbn [snd].
  - injection Hresp as <-. destruct Hst as [Hst|Hst]; rewrite Hst in H201; discriminate.
  - destruct (genRoomCode_loop_shape random 6 Hrandom "" k ltac:(constructor))
      as [Hlen Hall].
    change (genRoomCode_loop random 6 "" k) with (genRoomCode random k) in Hlen, Hall.
    change (String.length "" + 6) with 6 in Hlen.
    rewrite (toUpperCase_alphabet _ Hall) in Hfind, Hd, Hr1.
    remember (fst (genRoomCode random k)) as c eqn:Hc.
    assert (Hresp' : resp = r1) by congruence. subst resp r1.
    exists c, (trim s).
    split; [reflexivity |]. split; [exact Hlen |]. split; [exact Hall |].
    split; [exact Hfind | exact Hd].
Qed.

Lemma created_room_shape_witness :
  ∃ roomCode name,
    body (mkResponse 201 (RoomCreated "AAAAAA" "Team Sync" "Room created successfully"))
    = RoomCreated roomCode name "Room created successfully"
    ∧ String.length roomCode = 6
    ∧ Forall (λ c, in_alphabet c = true) (chars_of roomCode)
    ∧ List.find (has_code roomCode) (docs empty_world) = None
    ∧ docs (snd (create_room stuck "u1" (Some "  Team Sync ") empty_world))
      = docs empty_world ++ [mkRoom roomCode name "u1" ["u1"] None].
Proof.
  apply (created_room_shape stuck "u1" (Some "  Team Sync ") empty_world).
  - intros i. unfold stuck, Qle, Qlt. simpl. lia.
  - vm_compute. reflexivity.
  - reflexivity.
Defined.

(** X6. Create-room on any JSON field roomName.  When the field is a
    truthy value that is not a string (a number other than 0, [true], an
    array, an object), [roomName.trim] is not a function: the error is
    raised by the test of line 242, before the [try], so it leaves the
    handler, which has sent no response, and nothing is changed.  In
    every other case (a string, or a field that is missing, [null],
    [false] or 0) the route answers, whatever the collection does: its
    status is 201, 400 or 500, and unless it is 201 the collection is
    left as it was; the loop never runs away and an error of the
    collection never escapes the route. *)
Theorem create_room_answers_unless_type_error
    (random : nat → Q) (userId : string) (roomName : option Json) (w : World) :
  if not_a_string roomName
  then create_room_request random userId roomName w = (Throw type_error, w)
  else ∃ resp,
    fst (create_room_request random userId roomName w) = Ok resp
    ∧ (status resp = 201 ∨ status resp = 400 ∨ status resp = 500)
    ∧ (status resp = 201
       ∨ docs (snd (create_room_request random userId roomName w)) = docs w).
Proof.
  assert (Hanswer : ∀ name : option string,
    ∃ resp,
      fst (create_room random userId name w) = Ok resp
      ∧ (status resp = 201 ∨ status resp = 400 ∨ status resp = 500)
      ∧ (status resp = 201 ∨ docs (snd (create_room random userId name w)) = docs w)).
  { intros name.
    destruct (create_room_cases random userId name w)
      as (r1 & w1 & -> & _ & _ & [[Hd Hst]|(s & k & _ & _ & -> & _)]);
      cbn [fst snd]; eexists; (split; [reflexivity |]).
    - split; [tauto | now right].
    - split; now left. }
  unfold create_room_request.
  destruct roomName as [[|b|q|s|items|fields]|]; cbn [not_a_string truthy_json];
    try apply Hanswer; try reflexivity.
  - destruct b; [reflexivity | apply Hanswer].
  - destruct (negb (Qeq_bool q 0)); [reflexivity | apply Hanswer].
Qed.

(** A number as room name: no response; [null] as room name: 400. *)
Example create_room_number_name :
  create_room_request stuck "u1" (Some (JNumber 5)) one_room = (Throw type_error, one_room)
  ∧ create_room_request stuck "u1" (Some JNull) one_room
    = (Ok (mkResponse 400 (ErrorBody "Room name is required" None)), one_room).
Proof. split; reflexivity. Qed.

(** X7. Verify-room on any JSON field roomCode.  When the field is a
    truthy value that is not a string, [roomCode.trim] is not a function:
    the error is raised by the test of line 306, before the [try], so it
    leaves the handler, which has sent no response, and nothing is
    changed.  In every other case the route answers, whatever the
    collection does: its status is 200, 400, 404 or 500, and unless it is
    200 the collection is left as it was; an error of the collection
    never escapes the route. *)
Theorem verify_room_answers_unless_type_error
    (userId : string) (roomCode : option Json) (w : World) :
  if not_a_string roomCode
  then verify_room_request userId roomCode w = (Throw type_error, w)
  else ∃ resp,
    fst (verify_room_request userId roomCode w) = Ok resp
    ∧ (status resp = 200 ∨ status resp = 400 ∨ status resp = 404 ∨ status resp = 500)
    ∧ (status resp = 200
       ∨ docs (snd (verify_room_request userId roomCode w)) = docs w).
Proof.
  assert (Hanswer : ∀ given : option string,
    ∃ resp,
      fst (verify_room userId given w) = Ok resp
      ∧ (status resp = 200 ∨ status resp = 400 ∨ status resp = 404 ∨ status resp = 500)
      ∧ (status resp = 200 ∨ docs (snd (verify_room userId given w)) = docs w)).
  { intros given.
    destruct (verify_room_cases userId given w)
      as (r1 & w1 & -> & _ & _ & [[Hd Hst]|(s & room & _ & _ & _ & -> & _)]);
      cbn [fst snd]; eexists; (split; [reflexivity |]).
    - destruct Hst as [H|[H|[H|(s & room & _ & _ & _ & ->)]]];
        (split; [tauto || (now left) | (now right) || (now left)]).
    - split; now left. }
  unfold verify_room_request.
  destruct roomCode as [[|b|q|s|items|fields]|]; cbn [not_a_string truthy_json];
    try apply Hanswer; try reflexivity.
  - destruct b; [reflexivity | apply Hanswer].
  - destruct (negb (Qeq_bool q 0)); [reflexivity | apply Hanswer].
Qed.

(** An array as room code: no response; a room code that is missing:
    400. *)
Example verify_room_array_code :
  verify_room_request "u2" (Some (JArray [JString "ROOM1"])) one_room
  = (Throw type_error, one_room)
  ∧ verify_room_request "u2" None one_room
    = (Ok (mkResponse 400 (ErrorBody "Room code is required" None)), one_room).
Proof. split; reflexivity. Qed.

(** ** Failures of the collection *)



(** ** Verify-room *)

Lemma is_empty_toUpperCase (s : string) : is_empty (toUpperCase s) = is_empty s.
Proof. now destruct s. Qed.

Lemma validation_is_trim (s : string) :
  negb (truthy (Some s)) || negb (truthy (trim <$> Some s)) = is_empty (trim s).
Proof.
  cbn [fmap option_fmap option_map truthy]. rewrite negb_involutive.
  destruct s as [|c s]; [reflexivity |]. cbn [is_empty negb orb].
  now rewrite negb_involutive.
Qed.

(** X9. Verify-room does not tell apart two room codes that are the same
    once trimmed and upper-cased: the response and the state it leaves are
    the same for both. *)
Theorem verify_room_ignores_case_and_padding
    (userId codeA codeB : string) (w : World) :
  toUpperCase (trim codeA) = toUpperCase (trim codeB) →
  verify_room userId (Some codeA) w = verify_room userId (Some codeB) w.
Proof.
  intros Hsame. unfold verify_room. rewrite !validation_is_trim.
  rewrite <- (is_empty_toUpperCase (trim codeA)), Hsame, is_empty_toUpperCase.
  destruct (is_empty (trim codeB)); [reflexivity |].
  cbn [from_option id]. cbv zeta. now rewrite Hsame.
Qed.

Lemma verify_room_ignores_case_and_padding_witness :
  verify_room "u2" (Some "  room1 ") one_room = verify_room "u2" (Some "ROOM1") one_room.
Proof.
  apply (verify_room_ignores_case_and_padding "u2" "  room1 " "ROOM1" one_room).
  reflexivity.
Defined.

(** X10. Verify-room with a code that, trimmed and upper-cased, no room
    of the collection has, is answered 404 when the collection answers:
    the error quotes the cleaned code and [availableRooms] is the number
    of rooms; nothing is changed.  With a code that is missing or made of
    white space only it is answered 400 before the collection is
    consulted: in any state [w0], whatever the collection would do, the
    answer is 400 and the state, with its schedule of the collection's
    outcomes, is left as it was. *)
Theorem verify_room_unknown_code
    (userId roomCode : string) (blankCode : option string) (w w0 : World) :
  faults w = [] →
  trim roomCode ≠ "" →
  List.find (has_code (toUpperCase (trim roomCode))) (docs w) = None →
  blankCode = None ∨ (∃ s, blankCode = Some s ∧ blank s = true) →
  fst (verify_room userId (Some roomCode) w)
  = Ok (mkResponse 404
          (RoomNotFound
             ("Room with code " +:+ double_quote +:+ toUpperCase (trim roomCode)
                +:+ double_quote +:+ " not found")
             (length (docs w))))
  ∧ docs (snd (verify_room userId (Some roomCode) w)) = docs w
  ∧ errors (snd (verify_room userId (Some roomCode) w)) = errors w
  ∧ verify_room userId blankCode w
    = (Ok (mkResponse 400 (ErrorBody "Room code is required" None)), w)
  ∧ verify_room userId blankCode w0
    = (Ok (mkResponse 400 (ErrorBody "Room code is required" None)), w0).
Proof.
  intros Hf Hcode Hfind Hblank.
  assert (H400 : ∀ w1, verify_room userId blankCode w1
            = (Ok (mkResponse 400 (ErrorBody "Room code is required" None)), w1)).
  { intros w1. unfold verify_room. now rewrite (invalid_name _ Hblank). }
  destruct w as [r d f k s e]. simpl in Hf, Hfind. subst f.
  rewrite (verify_room_run userId roomCode r d k s e Hcode). cbv zeta.
  rewrite Hfind. cbn [fst snd docs errors]. repeat split; apply H400.
Qed.

Lemma verify_room_unknown_code_witness :
  fst (verify_room "u2" (Some " nosuch ") one_room)
  = Ok (mkResponse 404
          (RoomNotFound
             ("Room with code " +:+ double_quote +:+ toUpperCase (trim " nosuch ")
                +:+ double_quote +:+ " not found")
             (length (docs one_room))))
  ∧ docs (snd (verify_room "u2" (Some " nosuch ") one_room)) = docs one_room
  ∧ errors (snd (verify_room "u2" (Some " nosuch ") one_room)) = errors one_room
  ∧ verify_room "u2" (Some "   ") one_room
    = (Ok (mkResponse 400 (ErrorBody "Room code is required" None)), one_room)
  ∧ verify_room "u2" (Some "   ") (mkWorld ∅ (docs one_room) [Some "timeout"] 0 [] [])
    = (Ok (mkResponse 400 (ErrorBody "Room code is required" None)),
       mkWorld ∅ (docs one_room) [Some "timeout"] 0 [] []).
Proof.
  apply (verify_room_unknown_code "u2" " nosuch " (Some "   ") one_room
           (mkWorld ∅ (docs one_room) [Some "timeout"] 0 [] [])).
  - reflexivity.
  - vm_compute. discriminate.
  - reflexivity.
  - right. exists "   ". split; reflexivity.
Defined.

(** ** From create-room to verify-room *)

(** The run of create-room on a valid name when the collection answers. *)
Lemma create_room_run (random : nat → Q) (userId name : string)
    (r : gmap string (gset string)) (d : list Room) (k : nat)
    (s : list (string * ServerMsg)) (e : list ErrorLine) :
  trim name ≠ "" →
  ∃ n c,
    create_room random userId (Some name) (mkWorld r d [] k s e) =
      match List.find (has_code (toUpperCase c)) d with
      | Some _ =>
          (Ok (mkResponse 500 (ErrorBody "Failed to generate unique room code" None)),
           mkWorld r d [] (k + 6 * n) s e)
      | None =>
          (Ok (mkResponse 201
                 (RoomCreated (toUpperCase c) (trim name) "Room created successfully")),
           mkWorld r (d ++ [mkRoom (toUpperCase c) (trim name) userId [userId] None])
             [] (k + 6 * n) s e)
      end.
Proof.
  intros Hname.
  destruct (generate_unique_spec random 10 0 r d k s e ltac:(lia) ltac:(lia))
    as (n & _ & _ & _ & _ & Hrun).
  cbv zeta in Hrun.
  remember (candidate random (mkWorld r d [] k s e) (n - 1)) as c eqn:Hc.
  exists n, c.
  unfold create_room. rewrite (valid_name _ Hname).
  unfold try_catch, mbind at 1, M_bind at 1. rewrite Hrun.
  destruct (List.find (has_code (toUpperCase c)) d) as [room|] eqn:Hfind;
    cbn [present default]; [reflexivity |].
  run_handler. rewrite existsb_find. cbn [code]. rewrite Hfind. reflexivity.
Qed.

Lemma find_app_none {A} (p : A → bool) (l l' : list A) :
  List.find p l = None → List.find p (l ++ l') = List.find p l'.
Proof.
  induction l as [|x l IH]; simpl; [reflexivity |].
  destruct (p x); [discriminate | exact IH].
Qed.

Lemma find_appended (q : string) (d : list Room) (room : Room) :
  List.find (has_code q) d = None → code room = q →
  List.find (has_code q) (d ++ [room]) = Some room.
Proof.
  intros Hnone Hq. rewrite (find_app_none _ _ _ Hnone). simpl.
  unfold has_code. now rewrite Hq, String.eqb_refl.
Qed.

Lemma includes_singleton (u v : string) : includes [u] v = String.eqb v u.
Proof. unfold includes. simpl. apply orb_false_r. Qed.

(** X11. With a collection that answers, a room that create-room has
    just created (201) is found by verify-room under its code written in
    any case and with any surrounding white space: the answer is 200 with
    the name and the code of the creation; for the creator the member
    count is 1 and the members are unchanged, for anyone else it is 2 and
    the user comes second. *)
Theorem created_room_can_be_verified
    (random : nat → Q) (creatorId otherId rawCode : string)
    (roomName : option string) (w : World) (roomCode name message : string) :
  faults w = [] →
  fst (create_room random creatorId roomName w)
  = Ok (mkResponse 201 (RoomCreated roomCode name message)) →
  trim rawCode ≠ "" →
  toUpperCase (trim rawCode) = roomCode →
  fst (verify_room otherId (Some rawCode) (snd (create_room random creatorId roomName w)))
  = Ok (mkResponse 200
          (RoomFound name roomCode (if String.eqb otherId creatorId then 1 else 2)
             "Room found successfully"))
  ∧ members <$> List.find (has_code roomCode)
                  (docs (snd (verify_room otherId (Some rawCode)
                                (snd (create_room random creatorId roomName w)))))
    = Some (if String.eqb otherId creatorId then [creatorId] else [creatorId; otherId]).
Proof.
  intros Hf Hcreated Hraw Hcode.
  destruct w as [r d f k s e]. simpl in Hf. subst f.
  destruct roomName as [given|]; [| discriminate].
  destruct (String.eqb (trim given) "") eqn:Hgiven.
  { apply String.eqb_eq in Hgiven. revert Hcreated. unfold create_room.
    rewrite validation_is_trim, Hgiven. discriminate. }
  apply String.eqb_neq in Hgiven.
  destruct (create_room_run random creatorId given r d k s e Hgiven) as (n & c & Hrun).
  rewrite Hrun in Hcreated |- *.
  destruct (List.find (has_code (toUpperCase c)) d) as [clash|] eqn:Hfree;
    cbn [fst snd] in Hcreated |- *; [discriminate |].
  injection Hcreated as Hc Hn _. subst name. rewrite <- Hcode in Hc.
  rewrite (verify_room_run otherId rawCode r _ _ s e Hraw). cbv zeta.
  rewrite <- Hc in *. rewrite Hcode in *.
  pose proof (find_appended roomCode d
                (mkRoom roomCode (trim given) creatorId [creatorId] None)
                Hfree eq_refl) as Hfound.
  rewrite Hfound. cbn [members room_name code]. rewrite includes_singleton.
  destruct (String.eqb otherId creatorId) eqn:Hsame; cbn [fst snd docs].
  - rewrite Hfound. split; reflexivity.
  - rewrite find_update_first by reflexivity. rewrite Hfound. split; reflexivity.
Qed.

Lemma created_room_can_be_verified_witness :
  fst (verify_room "u2" (Some " aaaaaa ")
         (snd (create_room stuck "u1" (Some "  Team Sync ") empty_world)))
  = Ok (mkResponse 200
          (RoomFound "Team Sync" "AAAAAA" (if String.eqb "u2" "u1" then 1 else 2)
             "Room found successfully"))
  ∧ members <$> List.find (has_code "AAAAAA")
                  (docs (snd (verify_room "u2" (Some " aaaaaa ")
                                (snd (create_room stuck "u1" (Some "  Team Sync ")
                                        empty_world)))))
    = Some (if String.eqb "u2" "u1" then ["u1"] else ["u1"; "u2"]).
Proof.
  apply (created_room_can_be_verified stuck "u1" "u2" " aaaaaa "
           (Some "  Team Sync ") empty_world "AAAAAA" "Team Sync"
           "Room created successfully").
  - reflexivity.
  - vm_compute. reflexivity.
  - vm_compute. discriminate.
  - reflexivity.
Defined.

(** ** The registry of the relay *)

Lemma joined_member (socket room : string) (rs : gmap string (gset string)) :
  socket ∈ default ∅ (rs !! room) → joined socket room rs = rs.
Proof.
  unfold joined. destruct (rs !! room) as [members|] eqn:Hroom; simpl; intros Hin.
  - apply insert_id. rewrite Hroom. f_equal. set_solver.
  - set_solver.
Qed.

(** X12. Joining a room again changes nothing in the registry: once a
    socket has joined with a code, a second join-room of that socket with
    a code that differs at most in the case of its letters leaves every
    room with the same sockets. *)
Theorem join_room_twice_is_once (socket codeA codeB : string) (w : World) :
  toUpperCase codeB = toUpperCase codeA →
  rooms (on_join_room socket codeB (on_join_room socket codeA w))
  = rooms (on_join_room socket codeA w).
Proof.
  intros Hsame. rewrite (rooms_on_join_room socket codeB), Hsame.
  apply joined_member.
  change (socket ∈ room_members (on_join_room socket codeA w) (toUpperCase codeA)).
  apply elem_of_on_join_room. now left.
Qed.

Lemma join_room_twice_is_once_witness :
  rooms (on_join_room "A" "Room1" (on_join_room "A" "room1" one_room))
  = rooms (on_join_room "A" "room1" one_room).
Proof.
  apply (join_room_twice_is_once "A" "room1" "Room1" one_room). reflexivity.
Defined.

(** X13. A join-room succeeds even when the look-up of the snapshot is
    rejected by the collection: the socket is in the room, no message is
    sent, the collection is unchanged and the error goes to
    [console.error]. *)
Theorem join_room_survives_store_failure
    (socket roomCode m : string) (fs : list (option string)) (w : World) :
  faults w = Some m :: fs →
  socket ∈ room_members (on_join_room socket roomCode w) (toUpperCase roomCode)
  ∧ emitted w (on_join_room socket roomCode w) = []
  ∧ docs (on_join_room socket roomCode w) = docs w
  ∧ errors (on_join_room socket roomCode w) = errors w ++ [JoinRoomError m].
Proof.
  intros Hf. split; [apply elem_of_on_join_room; now left |].
  split; [apply emitted_app; rewrite sent_on_join_room, Hf; reflexivity |].
  split; [apply docs_on_join_room |].
  rewrite on_join_room_eq. destruct w as [r d f k s e]. simpl in Hf. subst f.
  reflexivity.
Qed.

Lemma join_room_survives_store_failure_witness :
  "A" ∈ room_members
          (on_join_room "A" "room1"
             (mkWorld ∅ (docs one_room) [Some "timeout"] 0 [] []))
          (toUpperCase "room1")
  ∧ emitted (mkWorld ∅ (docs one_room) [Some "timeout"] 0 [] [])
      (on_join_room "A" "room1" (mkWorld ∅ (docs one_room) [Some "timeout"] 0 [] []))
    = []
  ∧ docs (on_join_room "A" "room1" (mkWorld ∅ (docs one_room) [Some "timeout"] 0 [] []))
    = docs (mkWorld ∅ (docs one_room) [Some "timeout"] 0 [] [])
  ∧ errors (on_join_room "A" "room1" (mkWorld ∅ (docs one_room) [Some "timeout"] 0 [] []))
    = errors (mkWorld ∅ (docs one_room) [Some "timeout"] 0 [] [])
      ++ [JoinRoomError "timeout"].
Proof.
  apply (join_room_survives_store_failure "A" "room1" "timeout" []
           (mkWorld ∅ (docs one_room) [Some "timeout"] 0 [] [])).
  reflexivity.
Defined.

Lemma emitted_on_drawing_data (socket roomCode : string) (stroke : Stroke) (w : World) :
  emitted w (on_drawing_data socket roomCode stroke w)
  = broadcast w socket (toUpperCase roomCode) (DrawingData stroke).
Proof. apply emitted_app. now rewrite on_drawing_data_eq. Qed.

(** X14. Joining a second room does not leave the first: a socket that
    joins with one code and then with another is in both rooms, and a
    stroke that any other socket sends to either room reaches it. *)
Theorem joining_another_room_keeps_the_first
    (socket other codeA codeB : string) (stroke : Stroke) (w : World) :
  other ≠ socket →
  socket ∈ room_members (on_join_room socket codeB (on_join_room socket codeA w))
             (toUpperCase codeA)
  ∧ socket ∈ room_members (on_join_room socket codeB (on_join_room socket codeA w))
               (toUpperCase codeB)
  ∧ (socket, DrawingData stroke)
    ∈ emitted (on_join_room socket codeB (on_join_room socket codeA w))
        (on_drawing_data other codeA stroke
           (on_join_room socket codeB (on_join_room socket codeA w)))
  ∧ (socket, DrawingData stroke)
    ∈ emitted (on_join_room socket codeB (on_join_room socket codeA w))
        (on_drawing_data other codeB stroke
           (on_join_room socket codeB (on_join_room socket codeA w))).
Proof.
  intros Hne.
  assert (HA : socket ∈ room_members (on_join_room socket codeB (on_join_room socket codeA w))
                        (toUpperCase codeA)).
  { apply elem_of_on_join_room. right. apply elem_of_on_join_room. now left. }
  assert (HB : socket ∈ room_members (on_join_room socket codeB (on_join_room socket codeA w))
                        (toUpperCase codeB)).
  { apply elem_of_on_join_room. now left. }
  split; [exact HA |]. split; [exact HB |].
  split.
  - rewrite emitted_on_drawing_data. apply elem_of_broadcast. auto.
  - rewrite emitted_on_drawing_data. apply elem_of_broadcast. auto.
Qed.

Lemma joining_another_room_keeps_the_first_witness :
  "A" ∈ room_members (on_join_room "A" "blue" (on_join_room "A" "red" empty_world))
          (toUpperCase "red")
  ∧ "A" ∈ room_members (on_join_room "A" "blue" (on_join_room "A" "red" empty_world))
            (toUpperCase "blue")
  ∧ ("A", DrawingData pen_stroke)
    ∈ emitted (on_join_room "A" "blue" (on_join_room "A" "red" empty_world))
        (on_drawing_data "B" "red" pen_stroke
           (on_join_room "A" "blue" (on_join_room "A" "red" empty_world)))
  ∧ ("A", DrawingData pen_stroke)
    ∈ emitted (on_join_room "A" "blue" (on_join_room "A" "red" empty_world))
        (on_drawing_data "B" "blue" pen_stroke
           (on_join_room "A" "blue" (on_join_room "A" "red" empty_world))).
Proof.
  apply (joining_another_room_keeps_the_first "A" "B" "red" "blue" pen_stroke empty_world).
  discriminate.
Defined.

Lemma elem_of_run_events (socket room : string) (evs : list (string * SocketEvent)) :
  ∀ w,
    socket ∈ room_members (run_events evs w) room →
    socket ∈ room_members w room
    ∨ (room = socket ∧ (socket, Connection) ∈ evs)
    ∨ (∃ roomCode, (socket, JoinRoom roomCode) ∈ evs ∧ room = toUpperCase roomCode).
Proof.
  induction evs as [|[s ev] evs IH]; simpl; intros w Hin; [now left |].
  destruct (IH _ Hin) as [Hstep|[[-> Hc]|(rc & Hj & ->)]].
  - destruct (elem_of_relay _ _ _ _ _ Hstep) as [Hw|[(-> & -> & ->)|(-> & rc & -> & ->)]].
    + now left.
    + right. left. split; [reflexivity | apply list_elem_of_here].
    + right. right. exists rc. split; [apply list_elem_of_here | reflexivity].
  - right. left. split; [reflexivity | now apply list_elem_of_further].
  - right. right. exists rc. split; [now apply list_elem_of_further | reflexivity].
Qed.

(** X15. In a run of socket events from the empty registry, a socket is
    only ever in the room named by its own id, which it entered when it
    connected, or in a room named by the upper-cased code of one of its
    own join-room messages: no event of another socket puts it in a
    room. *)
Theorem rooms_come_from_own_joins
    (socket room : string) (evs : list (string * SocketEvent)) :
  socket ∈ room_members (run_events evs empty_world) room →
  (room = socket ∧ (socket, Connection) ∈ evs)
  ∨ (∃ roomCode, (socket, JoinRoom roomCode) ∈ evs ∧ room = toUpperCase roomCode).
Proof.
  intros Hin. destruct (elem_of_run_events socket room evs empty_world Hin) as [H|H];
    [| exact H].
  rewrite room_members_empty_world in H. set_solver.
Qed.

Lemma rooms_come_from_own_joins_witness :
  ("B" = "B" ∧ ("B", Connection) ∈ lurker)
  ∨ (∃ roomCode, ("B", JoinRoom roomCode) ∈ lurker ∧ "B" = toUpperCase roomCode).
Proof.
  apply (rooms_come_from_own_joins "B" "B" lurker).
  apply (bool_decide_unpack _). vm_compute. reflexivity.
Defined.

(** ** Snapshots in the collection *)

Lemma find_update_first_other (q q' : string) (f : Room → Room) (ds : list Room) :
  q' ≠ q → (∀ r, code (f r) = code r) →
  List.find (has_code q') (update_first q f ds) = List.find (has_code q') ds.
Proof.
  intros Hne Hcode. induction ds as [|r ds IH]; simpl; [reflexivity |].
  destruct (has_code q r) eqn:Hq; simpl.
  - unfold has_code in *. rewrite Hcode.
    apply String.eqb_eq in Hq. rewrite Hq.
    destruct (String.eqb q q') eqn:Hqq; [| reflexivity].
    apply String.eqb_eq in Hqq. congruence.
  - now rewrite IH.
Qed.

Lemma update_first_absent (q : string) (f : Room → Room) (ds : list Room) :
  List.find (has_code q) ds = None → update_first q f ds = ds.
Proof.
  induction ds as [|r ds IH]; simpl; [reflexivity |].
  destruct (has_code q r); [discriminate |]. intros H. now rewrite IH.
Qed.

(** X16. A canvas-data or clear-canvas message writes the snapshot of
    the room of its upper-cased code and of no other: a look-up under any
    other code gives what it gave before; and when no room has the code,
    the collection is left exactly as it was (no room is created), whatever
    the collection answers. *)
Theorem snapshot_written_to_one_room
    (socket roomCode imageData other : string) (w : World) :
  other ≠ toUpperCase roomCode →
  List.find (has_code other) (docs (on_canvas_data socket roomCode imageData w))
  = List.find (has_code other) (docs w)
  ∧ List.find (has_code other) (docs (on_clear_canvas socket roomCode w))
    = List.find (has_code other) (docs w)
  ∧ (List.find (has_code (toUpperCase roomCode)) (docs w) = None →
     docs (on_canvas_data socket roomCode imageData w) = docs w
     ∧ docs (on_clear_canvas socket roomCode w) = docs w).
Proof.
  intros Hne. rewrite on_canvas_data_eq, on_clear_canvas_eq.
  destruct w as [r d f k s e]. cbv zeta.
  destruct f as [|[m|] f]; cbn [faults docs set_docs set_faults add_sent add_error tail];
    repeat split; try reflexivity;
    try (apply find_update_first_other; [exact Hne | reflexivity]);
    intros; now apply update_first_absent.
Qed.

Lemma snapshot_written_to_one_room_witness :
  List.find (has_code "ROOM1") (docs (on_canvas_data "A" "room2" "X" one_room))
  = List.find (has_code "ROOM1") (docs one_room)
  ∧ List.find (has_code "ROOM1") (docs (on_clear_canvas "A" "room2" one_room))
    = List.find (has_code "ROOM1") (docs one_room)
  ∧ (List.find (has_code (toUpperCase "room2")) (docs one_room) = None →
     docs (on_canvas_data "A" "room2" "X" one_room) = docs one_room
     ∧ docs (on_clear_canvas "A" "room2" one_room) = docs one_room).
Proof.
  apply (snapshot_written_to_one_room "A" "room2" "X" "ROOM1" one_room).
  vm_compute. discriminate.
Defined.

(** X17. The last snapshot wins: with the room in the collection and the
    writes going through, after two canvas-data messages for the room, X
    from one socket and then a non-empty Y from another, a connection that
    joins receives Y and only Y; codes are compared without regard to
    case. *)
Theorem last_snapshot_wins
    (first second joiner codeA codeB codeC imageX imageY : string) (w : World) :
  faults w = [] →
  toUpperCase codeB = toUpperCase codeA →
  toUpperCase codeC = toUpperCase codeA →
  present (List.find (has_code (toUpperCase codeA)) (docs w)) = true →
  imageY ≠ "" →
  emitted (on_canvas_data second codeB imageY (on_canvas_data first codeA imageX w))
    (on_join_room joiner codeC
       (on_canvas_data second codeB imageY (on_canvas_data first codeA imageX w)))
  = [(joiner, CanvasData imageY)].
Proof.
  intros Hf HB HC Hroom HY. apply emitted_app. rewrite sent_on_join_room.
  rewrite !on_canvas_data_eq. destruct w as [r d f k s e]. simpl in Hf, Hroom. subst f.
  cbn [faults docs set_docs set_faults add_sent add_error tail].
  rewrite HB, HC. rewrite !find_update_first by reflexivity.
  destruct (List.find (has_code (toUpperCase codeA)) d) as [room|]; [| discriminate].
  cbn [fmap option_fmap option_map set_canvasData canvasData].
  now rewrite truthy_Some.
Qed.

Lemma last_snapshot_wins_witness :
  emitted (on_canvas_data "B" "ROOM1" "Y" (on_canvas_data "A" "room1" "X" one_room))
    (on_join_room "C" "Room1"
       (on_canvas_data "B" "ROOM1" "Y" (on_canvas_data "A" "room1" "X" one_room)))
  = [("C", CanvasData "Y")].
Proof.
  apply (last_snapshot_wins "A" "B" "C" "room1" "ROOM1" "Room1" "X" "Y" one_room).
  - reflexivity.
  - reflexivity.
  - reflexivity.
  - reflexivity.
  - discriminate.
Defined.





(** The four lines of that history. *)
Example mixed_codes_lines :
  errors (run_raw_events mixed_codes one_room)
  = [JoinRoomError type_error; DrawingDataError type_error;
     CanvasDataError type_error; ClearCanvasError type_error].
Proof. vm_compute. reflexivity. Qed.

(** An event with a room code that is not a string changes nothing but
    the error log. *)
Example bad_code_changes_nothing_else :
  run_raw_events [("A", RawJoinRoom (Some (JNumber 7)))] abc_room
  = add_error (JoinRoomError type_error) abc_room.
Proof. reflexivity. Qed.

(** ** The codes the generator can produce *)

Ltac find_index n :=
  first [ exists n; split; [lia | reflexivity]
        | match n with S ?m => find_index m end ].

Lemma alphabet_index (c : ascii) :
  in_alphabet c = true → ∃ i, (i < 36)%nat ∧ String.get i chars = Some c.
Proof.
  destruct c as [[] [] [] [] [] [] [] []]; intros H; vm_compute in H;
    try discriminate; clear H; find_index 35.
Qed.

Lemma index_of_fraction (i : nat) :
  Qfloor ((Z.of_nat i # 36) * inject_Z (Z.of_nat (String.length chars))) = Z.of_nat i.
Proof.
  transitivity (Qfloor (inject_Z (Z.of_nat i))); [| apply Qfloor_Z].
  apply Qfloor_comp.
  change (Z.of_nat (String.length chars)) with 36%Z.
  unfold Qeq, Qmult, inject_Z. cbn [Qnum Qden].
  change (Z.pos (36 * 1)) with 36%Z. lia.
Qed.

Lemma charAt_fraction (random : nat → Q) (k i : nat) (c : ascii) :
  random k = (Z.of_nat i # 36)%Q → String.get i chars = Some c →
  charAt chars (random_index random k) = String c "".
Proof.
  intros Hk Hget. unfold random_index. rewrite Hk, index_of_fraction.
  unfold charAt. destruct (Z.ltb_spec (Z.of_nat i) 0) as [Hneg|_]; [lia |].
  now rewrite Nat2Z.id, Hget.
Qed.

Lemma fraction_range (i : nat) :
  (i < 36)%nat → (0 <= Z.of_nat i # 36)%Q ∧ (Z.of_nat i # 36 < 1)%Q.
Proof. intros Hi. unfold Qle, Qlt. simpl. lia. Qed.

(** X19. Every code can come out of the generator: for each string of
    six characters of A-Z and 0-9 there are values of [Math.random()], all
    in its range, for which [genRoomCode] returns that string. *)
Theorem every_code_can_be_generated (wanted : string) :
  String.length wanted = 6 →
  Forall (λ c, in_alphabet c = true) (chars_of wanted) →
  ∃ random : nat → Q,
    (∀ i, (0 <= random i)%Q ∧ (random i < 1)%Q)
    ∧ fst (genRoomCode random 0) = wanted.
Proof.
  intros Hlen Hall.
  destruct wanted as [|c0 [|c1 [|c2 [|c3 [|c4 [|c5 [|c6 rest]]]]]]]; try discriminate.
  simpl in Hall.
  repeat match goal with
         | H : Forall _ (_ :: _) |- _ =>
             let Hc := fresh "Hc" in
             let Ht := fresh "Ht" in
             inversion H as [|? ? Hc Ht]; subst; clear H
         end.
  destruct (alphabet_index c0) as (i0 & Hi0 & Hg0); [assumption |].
  destruct (alphabet_index c1) as (i1 & Hi1 & Hg1); [assumption |].
  destruct (alphabet_index c2) as (i2 & Hi2 & Hg2); [assumption |].
  destruct (alphabet_index c3) as (i3 & Hi3 & Hg3); [assumption |].
  destruct (alphabet_index c4) as (i4 & Hi4 & Hg4); [assumption |].
  destruct (alphabet_index c5) as (i5 & Hi5 & Hg5); [assumption |].
  exists (λ k, (Z.of_nat (nth k [i0; i1; i2; i3; i4; i5] 0%nat) # 36)%Q).
  split.
  - intros k. apply fraction_range.
    do 6 (destruct k as [|k]; [simpl; assumption |]). destruct k; simpl; lia.
  - unfold genRoomCode. cbn [genRoomCode_loop].
    rewrite (charAt_fraction _ 0 i0 c0 eq_refl Hg0),
            (charAt_fraction _ 1 i1 c1 eq_refl Hg1),
            (charAt_fraction _ 2 i2 c2 eq_refl Hg2),
            (charAt_fraction _ 3 i3 c3 eq_refl Hg3),
            (charAt_fraction _ 4 i4 c4 eq_refl Hg4),
            (charAt_fraction _ 5 i5 c5 eq_refl Hg5).
    reflexivity.
Qed.

Lemma every_code_can_be_generated_witness :
  ∃ random : nat → Q,
    (∀ i, (0 <= random i)%Q ∧ (random i < 1)%Q)
    ∧ fst (genRoomCode random 0) = "Z9A0QX".
Proof.
  apply (every_code_can_be_generated "Z9A0QX").
  - reflexivity.
  - repeat constructor.
Defined.

(** * Accounts *)

(** ** The matcher reads exactly the strings of the expression *)

Lemma append_eq_nil (s1 s2 : string) : s1 +:+ s2 = "" → s1 = "" ∧ s2 = "".
Proof. destruct s1; simpl; [auto | discriminate]. Qed.

Lemma append_eq_cons (s1 s2 : string) (c : ascii) (s : string) :
  s1 +:+ s2 = String c s →
  (s1 = "" ∧ s2 = String c s) ∨ ∃ s1', s1 = String c s1' ∧ s = s1' +:+ s2.
Proof.
  destruct s1 as [|c1 s1]; simpl; intros H; [now left |].
  injection H as -> <-. right. now exists s1.
Qed.

Lemma never_inv (s : string) : Matches RNever s → False.
Proof. inversion 1. Qed.

Lemma empty_inv (s : string) : Matches REmpty s → s = "".
Proof. now inversion 1. Qed.

Lemma class_inv (p : ascii → bool) (s : string) :
  Matches (RClass p) s → ∃ c, s = String c "" ∧ p c = true.
Proof. inversion 1; subst. eauto. Qed.

Lemma seq_inv (r1 r2 : Regex) (s : string) :
  Matches (RSeq r1 r2) s → ∃ s1 s2, s = s1 +:+ s2 ∧ Matches r1 s1 ∧ Matches r2 s2.
Proof. inversion 1; subst. eauto. Qed.

Lemma alt_inv (r1 r2 : Regex) (s : string) :
  Matches (RAlt r1 r2) s → Matches r1 s ∨ Matches r2 s.
Proof. inversion 1; subst; auto. Qed.

Lemma nullable_spec (r : Regex) : nullable r = true ↔ Matches r "".
Proof.
  induction r as [| |p|r1 IH1 r2 IH2|r1 IH1 r2 IH2|r IH]; simpl.
  - split; [discriminate | intros []%never_inv].
  - split; [constructor | reflexivity].
  - split; [discriminate | intros (c & Hc & _)%class_inv; discriminate].
  - rewrite andb_true_iff, IH1, IH2. split.
    + intros [H1 H2]. exact (MSeq _ _ "" "" H1 H2).
    + intros (s1 & s2 & Heq & H1 & H2)%seq_inv.
      symmetry in Heq. apply append_eq_nil in Heq as [-> ->]. now split.
  - rewrite orb_true_iff, IH1, IH2. split.
    + intros [H|H]; [now apply MAltL | now apply MAltR].
    + apply alt_inv.
  - split; [constructor | reflexivity].
Qed.

Lemma star_cons_inv (r : Regex) (c : ascii) (s : string) :
  Matches (RStar r) (String c s) →
  ∃ s1 s2, s = s1 +:+ s2 ∧ Matches r (String c s1) ∧ Matches (RStar r) s2.
Proof.
  intros H. remember (RStar r) as r' eqn:Hr. remember (String c s) as x eqn:Hx.
  revert s Hx. induction H as [| | | | | |r0 s1 s2 H1 _ H2 IH2]; intros tl Hx;
    try discriminate.
  injection Hr as ->.
  apply append_eq_cons in Hx as [[-> ->]|(s1' & -> & ->)].
  - now apply IH2.
  - now exists s1', s2.
Qed.

Lemma derive_spec (r : Regex) :
  ∀ (c : ascii) (s : string), Matches (derive c r) s ↔ Matches r (String c s).
Proof.
  induction r as [| |p|r1 IH1 r2 IH2|r1 IH1 r2 IH2|r IH]; intros c s; simpl.
  - split; intros []%never_inv.
  - split; [intros []%never_inv | intros H%empty_inv; discriminate].
  - destruct (p c) eqn:Hp; split.
    + intros ->%empty_inv. now constructor.
    + intros (c' & [= -> ->] & _)%class_inv. constructor.
    + intros []%never_inv.
    + intros (c' & [= -> ->] & Hc)%class_inv. congruence.
  - assert (Hseq : Matches (RSeq (derive c r1) r2) s → Matches (RSeq r1 r2) (String c s)).
    { intros (s1 & s2 & -> & H1 & H2)%seq_inv.
      apply IH1 in H1. exact (MSeq _ _ (String c s1) s2 H1 H2). }
    assert (Hback : Matches (RSeq r1 r2) (String c s) →
                    (Matches r1 "" ∧ Matches (derive c r2) s)
                    ∨ Matches (RSeq (derive c r1) r2) s).
    { intros (s1 & s2 & Heq & H1 & H2)%seq_inv. symmetry in Heq.
      apply append_eq_cons in Heq as [[-> ->]|(s1' & -> & ->)].
      - left. split; [assumption | now apply IH2].
      - right. apply IH1 in H1. now constructor. }
    destruct (nullable r1) eqn:Hn; split.
    + intros [Hl|Hr]%alt_inv; [now apply Hseq |].
      apply IH2 in Hr. apply nullable_spec in Hn.
      exact (MSeq _ _ "" (String c s) Hn Hr).
    + intros [[_ H]|H]%Hback; [now apply MAltR | now apply MAltL].
    + exact Hseq.
    + intros [[H _]|H]%Hback; [| assumption].
      apply nullable_spec in H. congruence.
  - split.
    + intros [H|H]%alt_inv; [apply MAltL; now apply IH1 | apply MAltR; now apply IH2].
    + intros [H|H]%alt_inv; [apply MAltL; now apply IH1 | apply MAltR; now apply IH2].
  - split.
    + intros (s1 & s2 & -> & H1 & H2)%seq_inv.
      apply IH in H1. exact (MStarCons _ (String c s1) s2 H1 H2).
    + intros (s1 & s2 & -> & H1 & H2)%star_cons_inv.
      apply IH in H1. now constructor.
Qed.

Lemma matches_spec (r : Regex) (s : string) : matches r s = true ↔ Matches r s.
Proof.
  revert r. induction s as [|c s IH]; intros r; simpl.
  - apply nullable_spec.
  - rewrite IH. apply derive_spec.
Qed.

Lemma literal_spec (t s : string) : Matches (literal t) s ↔ s = t.
Proof.
  revert s. induction t as [|c t IH]; intros s; simpl.
  - split; [apply empty_inv | intros ->; constructor].
  - split.
    + intros (s1 & s2 & -> & (c' & -> & Hc)%class_inv & H2)%seq_inv.
      apply Ascii.eqb_eq in Hc. subst c'. apply IH in H2. now subst.
    + intros ->. apply (MSeq _ _ (String c "") t).
      * constructor. apply Ascii.eqb_refl.
      * now apply IH.
Qed.

Lemma star_class_spec (p : ascii → bool) (s : string) :
  Matches (RStar (RClass p)) s ↔ Forall (λ c, p c = true) (chars_of s).
Proof.
  split.
  - intros H. remember (RStar (RClass p)) as r eqn:Hr.
    induction H as [| | | | | |r0 s1 s2 H1 _ H2 IH2]; try discriminate.
    + constructor.
    + injection Hr as ->. apply class_inv in H1 as (c & -> & Hc).
      simpl. constructor; auto.
  - induction s as [|c s IH]; simpl; intros H; [constructor |].
    inversion H as [|? ? Hc Hrest]; subst.
    apply (MStarCons _ (String c "") s); [now constructor | now apply IH].
Qed.

Lemma one_or_more_class_spec (p : ascii → bool) (s : string) :
  Matches (one_or_more (RClass p)) s ↔ s ≠ "" ∧ Forall (λ c, p c = true) (chars_of s).
Proof.
  unfold one_or_more. split.
  - intros (s1 & s2 & -> & (c & -> & Hc)%class_inv & H2)%seq_inv.
    apply star_class_spec in H2. simpl.
    split; [discriminate | now constructor].
  - intros [Hne Hall]. destruct s as [|c s]; [congruence |]. simpl in Hall.
    inversion Hall as [|? ? Hc Hrest]; subst.
    apply (MSeq _ _ (String c "") s); [now constructor | now apply star_class_spec].
Qed.

(** X20. The email test of register accepts exactly the addresses made
    of one or more characters among the letters, the digits and the five
    characters . _ % + - followed by the ten characters of "@gmail.com",
    lower case, with nothing before and nothing after. *)
Theorem gmail_pattern_accepts (address : string) :
  matches gmail_pattern address = true
  ↔ ∃ local,
      local ≠ ""
      ∧ Forall (λ c, email_local c = true) (chars_of local)
      ∧ address = local +:+ "@gmail.com".
Proof.
  rewrite matches_spec. unfold gmail_pattern. split.
  - intros (s1 & s2 & -> & H1 & H2)%seq_inv.
    apply one_or_more_class_spec in H1 as [Hne Hall].
    apply literal_spec in H2. subst s2. now exists s1.
  - intros (local & Hne & Hall & ->). constructor.
    + now apply one_or_more_class_spec.
    + now apply literal_spec.
Qed.

(** What the pattern takes and what it refuses. *)
Example gmail_pattern_examples :
  matches gmail_pattern "alice.b+tag_1%x-y@gmail.com" = true
  ∧ matches gmail_pattern "@gmail.com" = false
  ∧ matches gmail_pattern "alice@Gmail.com" = false
  ∧ matches gmail_pattern "alice@gmailxcom" = false
  ∧ matches gmail_pattern "alice@gmail.com " = false
  ∧ matches gmail_pattern "al ice@gmail.com" = false
  ∧ matches gmail_pattern "alice@gmail.com.org" = false
  ∧ matches gmail_pattern "alice@bob@gmail.com" = false.
Proof. repeat split; reflexivity. Qed.

(** ** Register *)

Ltac run_auth :=
  cbv [auth_bind auth_try auth_ret account_error user_call
       User_findOne_or User_save User_save_new
       users user_faults account_errors tail].

Lemma truthy_true (v : option string) :
  truthy v = true → ∃ s, v = Some s ∧ s ≠ "".
Proof.
  destruct v as [[|c s]|]; simpl; try discriminate. intros _. eexists. split; [reflexivity |].
  discriminate.
Qed.

(** The outcomes of register, whatever the collection answers: a
    response in every case; either the users are left as they were, or
    the response is 201 and one user is appended, built from a username,
    an email that the pattern accepts and a password of six characters or
    more, no user having that username or that email. *)
Lemma register_cases (new_user : list User → string → string → string → User)
    (body_username body_email body_password : option string) (acc : Accounts) :
  ∃ resp acc',
    register new_user body_username body_email body_password acc = (Done resp, acc')
    ∧ ((users acc' = users acc
        ∧ (account_status resp = 400 ∨ account_status resp = 409
           ∨ account_status resp = 500))
       ∨ (∃ u e p,
            body_username = Some u ∧ body_email = Some e ∧ body_password = Some p
            ∧ u ≠ "" ∧ matches gmail_pattern e = true ∧ (6 ≤ String.length p)%nat
            ∧ List.find (λ x, String.eqb (username x) u || String.eqb (email x) e)
                (users acc) = None
            ∧ resp = mkAccountResponse 201
                       (Registered "Registration successful! Please login.")
            ∧ users acc' = users acc ++ [new_user (users acc) u e p])).
Proof.
  destruct acc as [us fs errs]. unfold register.
  destruct (truthy body_username) eqn:Hu; cbn [negb orb];
    [| eexists _, _; split; [reflexivity |]; left; simpl; auto].
  destruct (truthy body_email) eqn:He; cbn [negb orb];
    [| eexists _, _; split; [reflexivity |]; left; simpl; auto].
  destruct (truthy body_password) eqn:Hp; cbn [negb orb];
    [| eexists _, _; split; [reflexivity |]; left; simpl; auto].
  apply truthy_true in Hu as (u & -> & Hu).
  apply truthy_true in He as (e & -> & _).
  apply truthy_true in Hp as (p & -> & _).
  cbn [from_option id]. cbv zeta.
  destruct (matches gmail_pattern e) eqn:Hmatch; cbn [negb];
    [| eexists _, _; split; [reflexivity |]; left; simpl; auto].
  destruct (Nat.ltb_spec (String.length p) 6) as [Hshort|Hlong];
    [eexists _, _; split; [reflexivity |]; left; simpl; auto |].
  run_auth.
  destruct fs as [|[err|] fs].
  - destruct (List.find _ us) as [existing|] eqn:Hfind.
    + eexists _, _; split; [reflexivity |]; left; simpl; auto.
    + eexists _, _; split; [reflexivity |]. right. exists u, e, p.
      repeat split; try reflexivity; assumption.
  - destruct (String.eqb (error_name err) "ValidationError");
      eexists _, _; (split; [reflexivity |]); left; simpl; auto.
  - destruct (List.find _ us) as [existing|] eqn:Hfind.
    + eexists _, _; split; [reflexivity |]; left; simpl; auto.
    + destruct fs as [|[err|] fs].
      * eexists _, _; split; [reflexivity |]. right. exists u, e, p.
        repeat split; try reflexivity; assumption.
      * destruct (String.eqb (error_name err) "ValidationError");
          eexists _, _; (split; [reflexivity |]); left; simpl; auto.
      * eexists _, _; split; [reflexivity |]. right. exists u, e, p.
        repeat split; try reflexivity; assumption.
Qed.

Lemma gmail_nonempty (e : string) : matches gmail_pattern e = true → e ≠ "".
Proof. intros H ->. discriminate. Qed.

Lemma long_nonempty (p : string) : (6 ≤ String.length p)%nat → p ≠ "".
Proof. intros H ->. simpl in H. lia. Qed.

(** X21. Register answers 400 and touches nothing, not even the
    collection of users, when the body lacks a username, an email or a
    password (or has an empty one), when the email is not a non-empty run
    of the allowed characters followed by "@gmail.com", or when the
    password has fewer than six characters. *)
Theorem register_rejects_invalid_body
    (new_user : list User → string → string → string → User)
    (body_username body_email body_password : option string) (acc : Accounts) :
  truthy body_username = false ∨ truthy body_email = false
  ∨ truthy body_password = false
  ∨ (∀ local, local ≠ "" → Forall (λ c, email_local c = true) (chars_of local) →
              body_email ≠ Some (local +:+ "@gmail.com"))
  ∨ (∃ p, body_password = Some p ∧ (String.length p < 6)%nat) →
  ∃ message,
    register new_user body_username body_email body_password acc
    = (Done (mkAccountResponse 400 (AccountError message None)), acc).
Proof.
  intros Hbad. unfold register.
  destruct (truthy body_username) eqn:Hu; cbn [negb orb]; [| eauto].
  destruct (truthy body_email) eqn:He; cbn [negb orb]; [| eauto].
  destruct (truthy body_password) eqn:Hp; cbn [negb orb]; [| eauto].
  apply truthy_true in He as (e & -> & _).
  apply truthy_true in Hp as (p & -> & _).
  cbn [from_option id]. cbv zeta.
  destruct (matches gmail_pattern e) eqn:Hmatch; cbn [negb]; [| eauto].
  destruct (Nat.ltb_spec (String.length p) 6) as [Hshort|Hlong]; [eauto |].
  exfalso. destruct Hbad as [H|[H|[H|[H|(p' & [= <-] & H)]]]]; try discriminate.
  - apply matches_spec in Hmatch. unfold gmail_pattern in Hmatch.
    apply seq_inv in Hmatch as (s1 & s2 & -> & H1 & H2).
    apply one_or_more_class_spec in H1 as [Hne Hall].
    apply literal_spec in H2. subst s2. exact (H s1 Hne Hall eq_refl).
  - lia.
Qed.

Lemma register_rejects_invalid_body_witness :
  ∃ message,
    register plain_user (Some "carol") (Some "carol@gmail.com") (Some "12345")
      two_accounts
    = (Done (mkAccountResponse 400 (AccountError message None)), two_accounts).
Proof.
  apply (register_rejects_invalid_body plain_user).
  right. right. right. right. exists "12345". split; [reflexivity | simpl; lia].
Defined.

(** The three messages of the validation, in the order of the checks. *)
Example register_validation_messages :
  fst (register plain_user (Some "carol") None (Some "12345") two_accounts)
  = Done (mkAccountResponse 400
            (AccountError "Username, email, and password are required" None))
  ∧ fst (register plain_user (Some "carol") (Some "carol@yahoo.com") (Some "12345")
           two_accounts)
    = Done (mkAccountResponse 400
              (AccountError "Email must be in format: xyz@gmail.com" None))
  ∧ fst (register plain_user (Some "carol") (Some "carol@gmail.com") (Some "12345")
           two_accounts)
    = Done (mkAccountResponse 400
              (AccountError "Password must be at least 6 characters" None)).
Proof. repeat split; reflexivity. Qed.

(** X22. With a valid body and a collection that answers, register
    refuses a username or an email that a user already has: the answer is
    409, it names the email when the first such user has the email of the
    request and the username otherwise, and nothing is changed. *)
Theorem register_refuses_taken_names
    (new_user : list User → string → string → string → User)
    (u e p : string) (existing : User) (us : list User)
    (errs : list AccountErrorLine) :
  u ≠ "" →
  matches gmail_pattern e = true →
  (6 ≤ String.length p)%nat →
  List.find (λ x, String.eqb (username x) u || String.eqb (email x) e) us
  = Some existing →
  register new_user (Some u) (Some e) (Some p) (mkAccounts us [] errs)
  = (Done (mkAccountResponse 409
             (AccountError
                ("User with this "
                   +:+ (if String.eqb (email existing) e then "email" else "username")
                   +:+ " already exists")
                None)),
     mkAccounts us [] errs).
Proof.
  intros Hu He Hp Hfind. unfold register.
  rewrite (truthy_Some _ Hu), (truthy_Some _ (gmail_nonempty _ He)),
    (truthy_Some _ (long_nonempty _ Hp)).
  cbn [negb orb from_option id]. cbv zeta. rewrite He. cbn [negb].
  destruct (Nat.ltb_spec (String.length p) 6) as [Hshort|_]; [lia |].
  run_auth. rewrite Hfind. reflexivity.
Qed.

Lemma register_refuses_taken_names_witness :
  register plain_user (Some "alice") (Some "other@gmail.com") (Some "secret1")
    (mkAccounts [alice; bob] [] [])
  = (Done (mkAccountResponse 409
             (AccountError
                ("User with this "
                   +:+ (if String.eqb (email alice) "other@gmail.com"
                        then "email" else "username")
                   +:+ " already exists")
                None)),
     mkAccounts [alice; bob] [] []).
Proof.
  apply (register_refuses_taken_names plain_user "alice" "other@gmail.com" "secret1"
           alice [alice; bob] []).
  - discriminate.
  - reflexivity.
  - simpl. lia.
  - reflexivity.
Defined.

(** X23. Register on a body whose fields username and password are
    strings or missing, and whose field email is any JSON value.  When
    the three fields are truthy and the email is not a string,
    [email.match] is not a function: the error is raised by the test of
    line 93, before the [try], so it leaves the handler, which has sent
    no response, and nothing is changed.  In every other case the route
    answers, whatever the collection does, with status 201, 400, 409 or
    500.  Unless the status is 201 the users are left as they were.  When it is 201
    exactly one user has been appended, the existing ones being
    untouched: it is built from the username, the email and the password
    of the body, the email is a string that the pattern accepts, the
    password has six characters or more, and no user had that username or
    that email. *)
Theorem register_answers_unless_type_error
    (new_user : list User → string → string → string → User)
    (body_username : option string) (body_email : option Json)
    (body_password : option string) (acc : Accounts) :
  if truthy body_username && not_a_string body_email && truthy body_password
  then register_request new_user body_username body_email body_password acc
       = (Rejected match_type_error, acc)
  else ∃ resp,
    fst (register_request new_user body_username body_email body_password acc) = Done resp
    ∧ (account_status resp = 201 ∨ account_status resp = 400
       ∨ account_status resp = 409 ∨ account_status resp = 500)
    ∧ (account_status resp ≠ 201 →
       users (snd (register_request new_user body_username body_email body_password acc))
       = users acc)
    ∧ (account_status resp = 201 →
       ∃ u e p,
         body_username = Some u ∧ body_email = Some (JString e) ∧ body_password = Some p
         ∧ matches gmail_pattern e = true ∧ (6 ≤ String.length p)%nat
         ∧ Forall (λ x, username x ≠ u ∧ email x ≠ e) (users acc)
         ∧ users (snd (register_request new_user body_username body_email
                         body_password acc))
           = users acc ++ [new_user (users acc) u e p]).
Proof.
  assert (Hanswer : ∀ given : option string,
    ∃ resp,
      fst (register new_user body_username given body_password acc) = Done resp
      ∧ (account_status resp = 201 ∨ account_status resp = 400
         ∨ account_status resp = 409 ∨ account_status resp = 500)
      ∧ (account_status resp ≠ 201 →
         users (snd (register new_user body_username given body_password acc))
         = users acc)
      ∧ (account_status resp = 201 →
         ∃ u e p,
           body_username = Some u ∧ given = Some e ∧ body_password = Some p
           ∧ matches gmail_pattern e = true ∧ (6 ≤ String.length p)%nat
           ∧ Forall (λ x, username x ≠ u ∧ email x ≠ e) (users acc)
           ∧ users (snd (register new_user body_username given body_password acc))
             = users acc ++ [new_user (users acc) u e p])).
  { intros given.
    destruct (register_cases new_user body_username given body_password acc)
      as (resp & acc' & -> & [[Hus Hst]|(u & e & p & -> & -> & -> & Hu & He & Hp
                                         & Hfind & -> & Hus)]);
      cbn [fst snd]; exists resp || eexists; (split; [reflexivity |]).
    - split; [tauto |]. split; [intros _; exact Hus |].
      intros H201. destruct Hst as [H|[H|H]]; rewrite H in H201; discriminate.
    - split; [now left |]. split; [intros H; now elim H |]. intros _.
      exists u, e, p. repeat split; try assumption.
      apply Forall_forall. intros x Hx%list_elem_of_In.
      pose proof (find_none _ _ Hfind x Hx) as Hno. cbn beta in Hno.
      apply orb_false_iff in Hno as [H1 H2].
      apply String.eqb_neq in H1, H2. now split. }
  assert (Hmissing : ∃ resp,
    fst (register new_user body_username None body_password acc) = Done resp
    ∧ (account_status resp = 201 ∨ account_status resp = 400
       ∨ account_status resp = 409 ∨ account_status resp = 500)
    ∧ (account_status resp ≠ 201 →
       users (snd (register new_user body_username None body_password acc)) = users acc)
    ∧ (account_status resp = 201 →
       ∃ u e p,
         body_username = Some u ∧ body_email = Some (JString e) ∧ body_password = Some p
         ∧ matches gmail_pattern e = true ∧ (6 ≤ String.length p)%nat
         ∧ Forall (λ x, username x ≠ u ∧ email x ≠ e) (users acc)
         ∧ users (snd (register new_user body_username None body_password acc))
           = users acc ++ [new_user (users acc) u e p])).
  { destruct (Hanswer None) as (resp & Hres & Hst & Hkeep & Hnew).
    exists resp. split; [exact Hres |]. split; [exact Hst |]. split; [exact Hkeep |].
    intros H201. destruct (Hnew H201) as (u & e & p & _ & Habs & _). discriminate. }
  unfold register_request.
  destruct body_email as [[|b|q|s|items|fields]|]; cbn [not_a_string truthy_json];
    rewrite ?andb_false_r; cbn [andb]; try exact Hmissing.
  - destruct b; rewrite ?andb_true_r, ?andb_false_r; cbn [andb];
      [| exact Hmissing].
    destruct (truthy body_username && truthy body_password);
      [reflexivity | exact Hmissing].
  - destruct (negb (Qeq_bool q 0)); rewrite ?andb_true_r, ?andb_false_r; cbn [andb];
      [| exact Hmissing].
    destruct (truthy body_username && truthy body_password);
      [reflexivity | exact Hmissing].
  - destruct (Hanswer (Some s)) as (resp & Hres & Hst & Hkeep & Hnew).
    exists resp. split; [exact Hres |]. split; [exact Hst |]. split; [exact Hkeep |].
    intros H201. destruct (Hnew H201) as (u & e & p & Hu & [= ->] & Hrest).
    exists u, e, p. split; [exact Hu |]. split; [reflexivity |]. exact Hrest.
  - rewrite andb_true_r.
    destruct (truthy body_username && truthy body_password);
      [reflexivity | exact Hmissing].
  - rewrite andb_true_r.
    destruct (truthy body_username && truthy body_password);
      [reflexivity | exact Hmissing].
Qed.

(** A number as email: no response, whoever registers. *)
Example register_number_email :
  register_request plain_user (Some "carol") (Some (JNumber 5)) (Some "secret1") two_accounts
  = (Rejected match_type_error, two_accounts).
Proof. reflexivity. Qed.

(** X24. When the collection rejects a call of register (the look-up,
    or the saving of the new user), the route writes the error to
    [console.error] and leaves the users as they were; it answers 400
    with the messages of the fields joined by ", " if the error is a
    validation error of the model, and 500 with the message of the error
    as details otherwise. *)
Theorem register_reports_model_errors
    (new_user : list User → string → string → string → User)
    (u e p : string) (err : JsError) (us : list User)
    (fs : list (option JsError)) (errs : list AccountErrorLine) :
  u ≠ "" →
  matches gmail_pattern e = true →
  (6 ≤ String.length p)%nat →
  List.find (λ x, String.eqb (username x) u || String.eqb (email x) e) us = None →
  register new_user (Some u) (Some e) (Some p) (mkAccounts us (Some err :: fs) errs)
  = (Done (if String.eqb (error_name err) "ValidationError"
           then mkAccountResponse 400 (AccountError (join ", " (error_errors err)) None)
           else mkAccountResponse 500
                  (AccountError "Registration failed" (Some (error_message err)))),
     mkAccounts us fs (errs ++ [RegistrationError err]))
  ∧ register new_user (Some u) (Some e) (Some p)
      (mkAccounts us (None :: Some err :: fs) errs)
    = (Done (if String.eqb (error_name err) "ValidationError"
             then mkAccountResponse 400 (AccountError (join ", " (error_errors err)) None)
             else mkAccountResponse 500
                    (AccountError "Registration failed" (Some (error_message err)))),
       mkAccounts us fs (errs ++ [RegistrationError err])).
Proof.
  intros Hu He Hp Hfind. unfold register.
  rewrite (truthy_Some _ Hu), (truthy_Some _ (gmail_nonempty _ He)),
    (truthy_Some _ (long_nonempty _ Hp)).
  cbn [negb orb from_option id]. cbv zeta. rewrite He. cbn [negb].
  destruct (Nat.ltb_spec (String.length p) 6) as [Hshort|_]; [lia |].
  run_auth. rewrite Hfind.
  destruct (String.eqb (error_name err) "ValidationError"); split; reflexivity.
Qed.

Lemma register_reports_model_errors_witness :
  register plain_user (Some "carol") (Some "carol@gmail.com") (Some "secret1")
    (mkAccounts [alice; bob]
       [Some (mkError "ValidationError" "User validation failed"
                ["Username too short"; "Email is invalid"])] [])
  = (Done (if String.eqb "ValidationError" "ValidationError"
           then mkAccountResponse 400
                  (AccountError (join ", " ["Username too short"; "Email is invalid"]) None)
           else mkAccountResponse 500
                  (AccountError "Registration failed" (Some "User validation failed"))),
     mkAccounts [alice; bob] []
       ([] ++ [RegistrationError
                 (mkError "ValidationError" "User validation failed"
                    ["Username too short"; "Email is invalid"])]))
  ∧ register plain_user (Some "carol") (Some "carol@gmail.com") (Some "secret1")
      (mkAccounts [alice; bob]
         [None; Some (mkError "ValidationError" "User validation failed"
                        ["Username too short"; "Email is invalid"])] [])
    = (Done (if String.eqb "ValidationError" "ValidationError"
             then mkAccountResponse 400
                    (AccountError (join ", " ["Username too short"; "Email is invalid"])
                       None)
             else mkAccountResponse 500
                    (AccountError "Registration failed" (Some "User validation failed"))),
       mkAccounts [alice; bob] []
         ([] ++ [RegistrationError
                   (mkError "ValidationError" "User validation failed"
                      ["Username too short"; "Email is invalid"])])).
Proof.
  apply (register_reports_model_errors plain_user "carol" "carol@gmail.com" "secret1"
           (mkError "ValidationError" "User validation failed"
              ["Username too short"; "Email is invalid"])
           [alice; bob] [] []).
  - discriminate.
  - reflexivity.
  - simpl. lia.
  - reflexivity.
Defined.

(** ** Login *)

(** The outcomes of login, whatever the collection answers: a response in
    every case; either the users are left as they were, or the response is
    200 for the first user with that username or email, who is active and
    whose password compares, and the time of the last login of that user
    is set. *)
Lemma login_cases (comparePassword : User → string → bool)
    (generateToken : string → string) (now : nat)
    (body_username body_password : option string) (acc : Accounts) :
  ∃ resp acc',
    login comparePassword generateToken now body_username body_password acc
    = (Done resp, acc')
    ∧ ((users acc' = users acc
        ∧ (account_status resp = 400 ∨ account_status resp = 401
           ∨ account_status resp = 500))
       ∨ (∃ u p user,
            body_username = Some u ∧ body_password = Some p
            ∧ List.find (λ x, String.eqb (username x) u || String.eqb (email x) u)
                (users acc) = Some user
            ∧ isActive user = true ∧ comparePassword user p = true
            ∧ resp = mkAccountResponse 200
                       (LoggedIn (_id user) (username user) (email user)
                          (generateToken (_id user)) "Login successful")
            ∧ users acc'
              = map (λ x, if String.eqb (_id x) (_id user)
                          then with_lastLogin now user else x) (users acc))).
Proof.
  destruct acc as [us fs errs]. unfold login.
  destruct (truthy body_username) eqn:Hu; cbn [negb orb];
    [| eexists _, _; split; [reflexivity |]; left; simpl; auto].
  destruct (truthy body_password) eqn:Hp; cbn [negb orb];
    [| eexists _, _; split; [reflexivity |]; left; simpl; auto].
  apply truthy_true in Hu as (u & -> & Hu).
  apply truthy_true in Hp as (p & -> & _).
  cbn [from_option id]. cbv zeta.
  destruct fs as [|[err|] fs]; run_auth;
    try (eexists _, _; split; [reflexivity |]; left; simpl; auto; fail);
    (destruct (List.find _ us) as [user|] eqn:Hfind;
     [| eexists _, _; split; [reflexivity |]; left; simpl; auto]);
    (destruct (isActive user) eqn:Hact; cbn [negb];
     [| eexists _, _; split; [reflexivity |]; left; simpl; auto]);
    (destruct (comparePassword user p) eqn:Hcmp; cbn [negb];
     [| eexists _, _; split; [reflexivity |]; left; simpl; auto]).
  - eexists _, _; split; [reflexivity |]. right. exists u, p, user.
    repeat split; assumption.
  - destruct fs as [|[err|] fs].
    + eexists _, _; split; [reflexivity |]. right. exists u, p, user.
      repeat split; assumption.
    + eexists _, _; split; [reflexivity |]. left. simpl. auto.
    + eexists _, _; split; [reflexivity |]. right. exists u, p, user.
      repeat split; assumption.
Qed.

(** X25. With a collection that answers, login gives one and the same
    answer, 401 "Invalid credentials", and changes nothing, whether no
    user has the given username or email, or an active user has but the
    password does not compare: the response does not tell which. *)
Theorem login_failures_look_alike
    (comparePassword : User → string → bool) (generateToken : string → string)
    (now : nat) (u p : string) (us : list User) (errs : list AccountErrorLine) :
  u ≠ "" →
  p ≠ "" →
  List.find (λ x, String.eqb (username x) u || String.eqb (email x) u) us = None
  ∨ (∃ user,
       List.find (λ x, String.eqb (username x) u || String.eqb (email x) u) us
       = Some user
       ∧ isActive user = true ∧ comparePassword user p = false) →
  login comparePassword generateToken now (Some u) (Some p) (mkAccounts us [] errs)
  = (Done (mkAccountResponse 401 (AccountError "Invalid credentials" None)),
     mkAccounts us [] errs).
Proof.
  intros Hu Hp Hwhy. unfold login.
  rewrite (truthy_Some _ Hu), (truthy_Some _ Hp).
  cbn [negb orb from_option id]. cbv zeta. run_auth.
  destruct Hwhy as [->|(user & -> & -> & ->)]; reflexivity.
Qed.

Lemma login_failures_look_alike_witness :
  login plain_compare plain_token 7 (Some "alice") (Some "guess")
    (mkAccounts [alice; bob] [] [])
  = (Done (mkAccountResponse 401 (AccountError "Invalid credentials" None)),
     mkAccounts [alice; bob] [] []).
Proof.
  apply (login_failures_look_alike plain_compare plain_token 7 "alice" "guess"
           [alice; bob] []).
  - discriminate.
  - discriminate.
  - right. exists alice. repeat split; reflexivity.
Defined.

(** X26. With a collection that answers, a login for an account that is
    not active is answered 401 "Account is inactive" whatever the
    password, right or wrong, and changes nothing: the password is not
    looked at. *)
Theorem login_inactive_account
    (comparePassword : User → string → bool) (generateToken : string → string)
    (now : nat) (u p : string) (user : User) (us : list User)
    (errs : list AccountErrorLine) :
  u ≠ "" →
  p ≠ "" →
  List.find (λ x, String.eqb (username x) u || String.eqb (email x) u) us = Some user →
  isActive user = false →
  login comparePassword generateToken now (Some u) (Some p) (mkAccounts us [] errs)
  = (Done (mkAccountResponse 401 (AccountError "Account is inactive" None)),
     mkAccounts us [] errs).
Proof.
  intros Hu Hp Hfind Hact. unfold login.
  rewrite (truthy_Some _ Hu), (truthy_Some _ Hp).
  cbn [negb orb from_option id]. cbv zeta. run_auth.
  rewrite Hfind, Hact. reflexivity.
Qed.

Lemma login_inactive_account_witness :
  login plain_compare plain_token 7 (Some "bob@gmail.com") (Some "builder")
    (mkAccounts [alice; bob] [] [])
  = (Done (mkAccountResponse 401 (AccountError "Account is inactive" None)),
     mkAccounts [alice; bob] [] []).
Proof.
  apply (login_inactive_account plain_compare plain_token 7 "bob@gmail.com" "builder"
           bob [alice; bob] []).
  - discriminate.
  - discriminate.
  - reflexivity.
  - reflexivity.
Defined.

(** X27. With a collection that answers, a login with the username or
    the email of an active user and a password that compares is answered
    200 with the id, the username and the email of that user and the token
    made from the id; the time of the last login of that user is set to
    the time of the request, and the route writes nothing else. *)
Theorem login_success
    (comparePassword : User → string → bool) (generateToken : string → string)
    (now : nat) (u p : string) (user : User) (us : list User)
    (errs : list AccountErrorLine) :
  u ≠ "" →
  p ≠ "" →
  List.find (λ x, String.eqb (username x) u || String.eqb (email x) u) us = Some user →
  isActive user = true →
  comparePassword user p = true →
  login comparePassword generateToken now (Some u) (Some p) (mkAccounts us [] errs)
  = (Done (mkAccountResponse 200
             (LoggedIn (_id user) (username user) (email user)
                (generateToken (_id user)) "Login successful")),
     mkAccounts
       (map (λ x, if String.eqb (_id x) (_id user) then with_lastLogin now user else x) us)
       [] errs).
Proof.
  intros Hu Hp Hfind Hact Hcmp. unfold login.
  rewrite (truthy_Some _ Hu), (truthy_Some _ Hp).
  cbn [negb orb from_option id]. cbv zeta. run_auth.
  rewrite Hfind, Hact, Hcmp. reflexivity.
Qed.

Lemma login_success_witness :
  login plain_compare plain_token 7 (Some "alice@gmail.com") (Some "wonderland")
    (mkAccounts [alice; bob] [] [])
  = (Done (mkAccountResponse 200
             (LoggedIn (_id alice) (username alice) (email alice)
                (plain_token (_id alice)) "Login successful")),
     mkAccounts
       (map (λ x, if String.eqb (_id x) (_id alice) then with_lastLogin 7 alice else x)
          [alice; bob])
       [] []).
Proof.
  apply (login_success plain_compare plain_token 7 "alice@gmail.com" "wonderland"
           alice [alice; bob] []).
  - discriminate.
  - discriminate.
  - reflexivity.
  - reflexivity.
  - reflexivity.
Defined.

Lemma NoDup_fmap_same {A B} (f : A → B) (l : list A) (x y : A) :
  NoDup (f <$> l) → x ∈ l → y ∈ l → f x = f y → x = y.
Proof.
  induction l as [|a l IH]; intros Hnd Hx Hy Hf; [now apply elem_of_nil in Hx |].
  rewrite fmap_cons in Hnd. apply NoDup_cons in Hnd as [Ha Hnd].
  apply elem_of_cons in Hx as [->|Hx]; apply elem_of_cons in Hy as [->|Hy].
  - reflexivity.
  - exfalso. apply Ha. rewrite Hf. now apply list_elem_of_fmap_2.
  - exfalso. apply Ha. rewrite <- Hf. now apply list_elem_of_fmap_2.
  - now apply IH.
Qed.

Lemma credentials_map (g : User → User) (us : list User) :
  (∀ x, x ∈ us → credentials (g x) = credentials x) →
  credentials <$> map g us = credentials <$> us.
Proof.
  induction us as [|a us IH]; intros Hg; [reflexivity |].
  cbn [map]. rewrite !fmap_cons. f_equal.
  - apply Hg. apply list_elem_of_here.
  - apply IH. intros x Hx. apply Hg. now apply list_elem_of_further.
Qed.

(** X28. Neither route rewrites an account.  When the ids of the users
    are distinct, a login, whatever its outcome, leaves the id, the
    username, the email, the stored password and the flag [isActive] of
    every user as they were: only a time of last login can change.  A
    register, whatever its outcome, leaves the existing users as they were
    and at their places: it can only append one. *)
Theorem accounts_are_never_rewritten
    (new_user : list User → string → string → string → User)
    (comparePassword : User → string → bool) (generateToken : string → string)
    (now : nat) (body_username body_email body_password : option string)
    (acc : Accounts) :
  NoDup (_id <$> users acc) →
  credentials <$> users (snd (login comparePassword generateToken now
                                body_username body_password acc))
  = credentials <$> users acc
  ∧ users acc `prefix_of`
      users (snd (register new_user body_username body_email body_password acc)).
Proof.
  intros Hids. split.
  - destruct (login_cases comparePassword generateToken now body_username
                body_password acc)
      as (resp & acc' & -> & [[Hus _]|(u & p & user & _ & _ & Hfind & _ & _ & _ & Hus)]);
      cbn [snd]; rewrite Hus; [reflexivity |].
    apply find_some in Hfind as [Hin _]. apply list_elem_of_In in Hin.
    apply credentials_map. intros x Hx.
    destruct (String.eqb (_id x) (_id user)) eqn:Hid; [| reflexivity].
    apply String.eqb_eq in Hid.
    rewrite (NoDup_fmap_same _id (users acc) x user Hids Hx Hin Hid).
    reflexivity.
  - destruct (register_cases new_user body_username body_email body_password acc)
      as (resp & acc' & -> & [[Hus _]|(u & e & p & _ & _ & _ & _ & _ & _ & _ & _ & Hus)]);
      cbn [snd]; rewrite Hus; [reflexivity |].
    now apply prefix_app_r.
Qed.

Lemma accounts_are_never_rewritten_witness :
  credentials <$> users (snd (login plain_compare plain_token 7
                                (Some "alice") (Some "wonderland") two_accounts))
  = credentials <$> users two_accounts
  ∧ users two_accounts `prefix_of`
      users (snd (register plain_user (Some "alice") (Some "carol@gmail.com")
                    (Some "wonderland") two_accounts)).
Proof.
  apply (accounts_are_never_rewritten plain_user plain_compare plain_token 7
           (Some "alice") (Some "carol@gmail.com") (Some "wonderland") two_accounts).
  apply (bool_decide_unpack _). vm_compute. reflexivity.
Defined.
